(** * airgradient-proxy: the monitor (bin/monitor/monitor.py)

    A shallow embedding of the polling service: the [Reading] dataclass,
    the averaging of readings ([Service.compute_avg]), the sanity check
    ([Service.is_sane]), the decoding of a sensor response
    ([Service.parse_response]), the SQLite store ([Database]) and the
    scheduler ([Service.compute_next_event], [Service.do_loop]).

    Conventions.
    - A Python value is a [pyval]: the fields of a [Reading] are checked
      at run time by [is_sane], so they are kept dynamically typed. A
      Python [float] is a binary64 ([PrimFloat.float]), a Python [int]
      is a [Z].
    - A [datetime] is the number of microseconds since the Unix epoch
      (all datetimes of the program are timezone-aware, in UTC).
    - [datetime.timestamp()] is the binary64 that Python computes
      ([timestamp]), and [is_sane] subtracts two of them as floats. The
      clock of the scheduler ([time.time()]) is kept as the rational
      number it denotes ([Q]); the arithmetic on it is exact, so the
      wait of [compute_next_event] is the number that the float of the
      code approximates.
    - A function that can raise returns a [result]. The clock, the
      sensor and the failures of the database file are arguments.
      Logging is left out.
    - The table of the database is the list of its rows. What SQLite
      does with the text of a statement is described on values
      ([sql_literal], [store_as]); the REAL that SQLite reads in the
      decimal text of a float is a parameter ([Sqlite]). The timestamp
      of a row is kept in microseconds: ['%f'] of the float timestamp
      writes them exactly for a datetime before 2^33 seconds, and the
      statements that depend on it say so.
    - [Unmodelled] marks what the embedding leaves out (a text read as
      a number, a [str] that [repr] escapes, an int past 64 bits). The
      loop catches it like the exceptions of the code; the statements
      about the loop that depend on an outcome exclude it. *)

From Stdlib Require Import ZArith QArith Qround Qabs PrimFloat SpecFloat FloatOps.
From stdpp Require Import gmap strings list sorting pretty.

Local Open Scope Z_scope.

(** ** Exceptions and results *)

Inductive exn : Type :=
  | IndexError                      (* list index out of range *)
  | KeyError (key : string)         (* missing dict key *)
  | TypeError
  | ValueError
  | OverflowError                   (* int too large to convert to float *)
  | ZeroDivisionError
  | AttributeError
  | JSONDecodeError                 (* response.json() on a malformed body *)
  | HTTPError                       (* session.get / raise_for_status *)
  | IntegrityError                  (* sqlite3: UNIQUE constraint failed *)
  | OperationalError                (* sqlite3: statement rejected, database locked *)
  | Unmodelled.                     (* a text read as a number, or the reverse: left out *)

Inductive result (A : Type) : Type :=
  | Ok (a : A)
  | Err (e : exn).
Arguments Ok {A} a.
Arguments Err {A} e.

Definition bind {A B} (m : result A) (k : A -> result B) : result B :=
  match m with
  | Ok a => k a
  | Err e => Err e
  end.

Notation "x <- m ;; k" := (bind m (fun x => k))
  (at level 100, m at next level, right associativity,
   format "x  <-  m  ;;  '/' k").

Definition is_ok {A} (m : result A) : bool :=
  match m with Ok _ => true | Err _ => false end.

(** ** Python values *)

#[warnings="-register-all"]
Inductive pyval : Type :=
  | VNone
  | VBool (b : bool)
  | VInt (z : Z)
  | VFloat (f : float)
  | VStr (s : string)
  | VDatetime (us : Z)              (* aware datetime, microseconds since the epoch *)
  | VList (items : list pyval)
  | VDict (items : list (string * pyval)).

(** [x is None] *)
Definition is_none (v : pyval) : bool :=
  match v with VNone => true | _ => false end.

(** [isinstance(v, float)], [isinstance(v, int)] (a [bool] is an [int]),
    [isinstance(v, str)], [isinstance(v, datetime)]. *)
Definition isinstance_float (v : pyval) : bool :=
  match v with VFloat _ => true | _ => false end.
Definition isinstance_int (v : pyval) : bool :=
  match v with VInt _ | VBool _ => true | _ => false end.
Definition isinstance_str (v : pyval) : bool :=
  match v with VStr _ => true | _ => false end.
Definition isinstance_datetime (v : pyval) : bool :=
  match v with VDatetime _ => true | _ => false end.

(** The binary64 nearest to an integer (round to nearest, ties to even). *)
Definition float_of_Z (z : Z) : float :=
  SF2Prim (binary_normalize prec emax z 0 false).

(** [float(n)] for an [int]: raises [OverflowError] past the binary64 range. *)
Definition int_to_float (z : Z) : result float :=
  let f := float_of_Z z in
  if is_infinity f then Err OverflowError else Ok f.

(** The numeric operand of a binary arithmetic operator. *)
Inductive num : Type :=
  | NInt (z : Z)
  | NFloat (f : float).

Definition as_num (v : pyval) : option num :=
  match v with
  | VBool b => Some (NInt (if b then 1 else 0))
  | VInt z => Some (NInt z)
  | VFloat f => Some (NFloat f)
  | _ => None
  end.

Definition num_to_float (n : num) : result float :=
  match n with
  | NInt z => int_to_float z
  | NFloat f => Ok f
  end.

(** [a + b] *)
Definition py_add (a b : pyval) : result pyval :=
  match as_num a, as_num b with
  | Some (NInt x), Some (NInt y) => Ok (VInt (x + y))
  | Some x, Some y =>
      fx <- num_to_float x ;;
      fy <- num_to_float y ;;
      Ok (VFloat (fx + fy)%float)
  | _, _ =>
      match a, b with
      | VStr s, VStr t => Ok (VStr (s ++ t))
      | VList l, VList m => Ok (VList (l ++ m))
      | _, _ => Err TypeError
      end
  end.

(** [a / count] where [count] is [float(n)] for an int [n]. A division
    by a float raises [ZeroDivisionError] when the divisor is zero, and
    [float(n)] is zero only when [n] is. *)
Definition py_truediv (a : pyval) (n : Z) : result pyval :=
  match as_num a with
  | Some x =>
      fx <- num_to_float x ;;
      if n =? 0 then Err ZeroDivisionError
      else Ok (VFloat (fx / float_of_Z n)%float)
  | None => Err TypeError
  end.

(** ** The Reading dataclass *)

Record Reading : Type := mkReading {
  measurementTime : pyval;
  serialno        : pyval;
  wifi            : pyval;
  pm01            : pyval;
  pm02            : pyval;
  pm10            : pyval;
  pm02Compensated : pyval;
  pm01Standard    : pyval;
  pm02Standard    : pyval;
  pm10Standard    : pyval;
  rco2            : pyval;
  pm003Count      : pyval;
  pm005Count      : pyval;
  pm01Count       : pyval;
  pm02Count       : pyval;
  pm50Count       : pyval;
  pm10Count       : pyval;
  atmp            : pyval;
  atmpCompensated : pyval;
  rhum            : pyval;
  rhumCompensated : pyval;
  tvocIndex       : pyval;
  tvocRaw         : pyval;
  noxIndex        : pyval;
  noxRaw          : pyval;
  boot            : pyval;
  bootCount       : pyval;
  ledMode         : pyval;
  firmware        : pyval;
  model           : pyval
}.

(** The 23 averaged channels, in the order of the source. *)
Inductive channel : Type :=
  | Cwifi | Cpm01 | Cpm02 | Cpm10 | Cpm02Compensated
  | Cpm01Standard | Cpm02Standard | Cpm10Standard | Crco2
  | Cpm003Count | Cpm005Count | Cpm01Count | Cpm02Count
  | Cpm50Count | Cpm10Count | Catmp | CatmpCompensated
  | Crhum | CrhumCompensated | CtvocIndex | CtvocRaw
  | CnoxIndex | CnoxRaw.

Definition all_channels : list channel :=
  [ Cwifi; Cpm01; Cpm02; Cpm10; Cpm02Compensated;
    Cpm01Standard; Cpm02Standard; Cpm10Standard; Crco2;
    Cpm003Count; Cpm005Count; Cpm01Count; Cpm02Count;
    Cpm50Count; Cpm10Count; Catmp; CatmpCompensated;
    Crhum; CrhumCompensated; CtvocIndex; CtvocRaw;
    CnoxIndex; CnoxRaw ].

Definition chan (c : channel) (r : Reading) : pyval :=
  match c with
  | Cwifi => wifi r | Cpm01 => pm01 r | Cpm02 => pm02 r | Cpm10 => pm10 r
  | Cpm02Compensated => pm02Compensated r
  | Cpm01Standard => pm01Standard r | Cpm02Standard => pm02Standard r
  | Cpm10Standard => pm10Standard r | Crco2 => rco2 r
  | Cpm003Count => pm003Count r | Cpm005Count => pm005Count r
  | Cpm01Count => pm01Count r | Cpm02Count => pm02Count r
  | Cpm50Count => pm50Count r | Cpm10Count => pm10Count r
  | Catmp => atmp r | CatmpCompensated => atmpCompensated r
  | Crhum => rhum r | CrhumCompensated => rhumCompensated r
  | CtvocIndex => tvocIndex r | CtvocRaw => tvocRaw r
  | CnoxIndex => noxIndex r | CnoxRaw => noxRaw r
  end.

(** ** Service.compute_avg *)

(** [s + x if s is not None and x is not None else None] *)
Definition sum_opt (s x : pyval) : result pyval :=
  if negb (is_none s) && negb (is_none x) then py_add s x else Ok VNone.

(** [a / count if a is not None else None] *)
Definition div_opt (a : pyval) (count : Z) : result pyval :=
  if negb (is_none a) then py_truediv a count else Ok VNone.

(** One turn of the [for reading in readings[1:]] loop on the value of
    [summed_reading]: the identity fields are overwritten, the channels
    are summed, in the order of the source. *)
Definition accumulate (summed reading : Reading) : result Reading :=
  wifi' <- sum_opt (wifi summed) (wifi reading) ;;
  pm01' <- sum_opt (pm01 summed) (pm01 reading) ;;
  pm02' <- sum_opt (pm02 summed) (pm02 reading) ;;
  pm10' <- sum_opt (pm10 summed) (pm10 reading) ;;
  pm02Compensated' <- sum_opt (pm02Compensated summed) (pm02Compensated reading) ;;
  pm01Standard' <- sum_opt (pm01Standard summed) (pm01Standard reading) ;;
  pm02Standard' <- sum_opt (pm02Standard summed) (pm02Standard reading) ;;
  pm10Standard' <- sum_opt (pm10Standard summed) (pm10Standard reading) ;;
  rco2' <- sum_opt (rco2 summed) (rco2 reading) ;;
  pm003Count' <- sum_opt (pm003Count summed) (pm003Count reading) ;;
  pm005Count' <- sum_opt (pm005Count summed) (pm005Count reading) ;;
  pm01Count' <- sum_opt (pm01Count summed) (pm01Count reading) ;;
  pm02Count' <- sum_opt (pm02Count summed) (pm02Count reading) ;;
  pm50Count' <- sum_opt (pm50Count summed) (pm50Count reading) ;;
  pm10Count' <- sum_opt (pm10Count summed) (pm10Count reading) ;;
  atmp' <- sum_opt (atmp summed) (atmp reading) ;;
  atmpCompensated' <- sum_opt (atmpCompensated summed) (atmpCompensated reading) ;;
  rhum' <- sum_opt (rhum summed) (rhum reading) ;;
  rhumCompensated' <- sum_opt (rhumCompensated summed) (rhumCompensated reading) ;;
  tvocIndex' <- sum_opt (tvocIndex summed) (tvocIndex reading) ;;
  tvocRaw' <- sum_opt (tvocRaw summed) (tvocRaw reading) ;;
  noxIndex' <- sum_opt (noxIndex summed) (noxIndex reading) ;;
  noxRaw' <- sum_opt (noxRaw summed) (noxRaw reading) ;;
  Ok {| measurementTime := measurementTime reading;
        serialno := serialno reading;
        wifi := wifi'; pm01 := pm01'; pm02 := pm02'; pm10 := pm10';
        pm02Compensated := pm02Compensated';
        pm01Standard := pm01Standard'; pm02Standard := pm02Standard';
        pm10Standard := pm10Standard'; rco2 := rco2';
        pm003Count := pm003Count'; pm005Count := pm005Count';
        pm01Count := pm01Count'; pm02Count := pm02Count';
        pm50Count := pm50Count'; pm10Count := pm10Count';
        atmp := atmp'; atmpCompensated := atmpCompensated';
        rhum := rhum'; rhumCompensated := rhumCompensated';
        tvocIndex := tvocIndex'; tvocRaw := tvocRaw';
        noxIndex := noxIndex'; noxRaw := noxRaw';
        boot := boot reading; bootCount := bootCount reading;
        ledMode := ledMode reading; firmware := firmware reading;
        model := model reading |}.

(** The divisions on [avg_reading], a copy of [summed_reading];
    [count] is [len(readings)], which the source holds as a float. *)
Definition divide (summed : Reading) (count : Z) : result Reading :=
  wifi' <- div_opt (wifi summed) count ;;
  pm01' <- div_opt (pm01 summed) count ;;
  pm02' <- div_opt (pm02 summed) count ;;
  pm10' <- div_opt (pm10 summed) count ;;
  pm02Compensated' <- div_opt (pm02Compensated summed) count ;;
  pm01Standard' <- div_opt (pm01Standard summed) count ;;
  pm02Standard' <- div_opt (pm02Standard summed) count ;;
  pm10Standard' <- div_opt (pm10Standard summed) count ;;
  rco2' <- div_opt (rco2 summed) count ;;
  pm003Count' <- div_opt (pm003Count summed) count ;;
  pm005Count' <- div_opt (pm005Count summed) count ;;
  pm01Count' <- div_opt (pm01Count summed) count ;;
  pm02Count' <- div_opt (pm02Count summed) count ;;
  pm50Count' <- div_opt (pm50Count summed) count ;;
  pm10Count' <- div_opt (pm10Count summed) count ;;
  atmp' <- div_opt (atmp summed) count ;;
  atmpCompensated' <- div_opt (atmpCompensated summed) count ;;
  rhum' <- div_opt (rhum summed) count ;;
  rhumCompensated' <- div_opt (rhumCompensated summed) count ;;
  tvocIndex' <- div_opt (tvocIndex summed) count ;;
  tvocRaw' <- div_opt (tvocRaw summed) count ;;
  noxIndex' <- div_opt (noxIndex summed) count ;;
  noxRaw' <- div_opt (noxRaw summed) count ;;
  Ok {| measurementTime := measurementTime summed;
        serialno := serialno summed;
        wifi := wifi'; pm01 := pm01'; pm02 := pm02'; pm10 := pm10';
        pm02Compensated := pm02Compensated';
        pm01Standard := pm01Standard'; pm02Standard := pm02Standard';
        pm10Standard := pm10Standard'; rco2 := rco2';
        pm003Count := pm003Count'; pm005Count := pm005Count';
        pm01Count := pm01Count'; pm02Count := pm02Count';
        pm50Count := pm50Count'; pm10Count := pm10Count';
        atmp := atmp'; atmpCompensated := atmpCompensated';
        rhum := rhum'; rhumCompensated := rhumCompensated';
        tvocIndex := tvocIndex'; tvocRaw := tvocRaw';
        noxIndex := noxIndex'; noxRaw := noxRaw';
        boot := boot summed; bootCount := bootCount summed;
        ledMode := ledMode summed; firmware := firmware summed;
        model := model summed |}.

(** The [for] loop over [readings[1:]]. *)
Fixpoint sum_readings (summed : Reading) (rest : list Reading) : result Reading :=
  match rest with
  | [] => Ok summed
  | reading :: rest' =>
      summed' <- accumulate summed reading ;;
      sum_readings summed' rest'
  end.

(** [compute_avg(readings)] on values. [readings[0]] raises [IndexError]
    on the empty list. *)
Definition compute_avg (readings : list Reading) : result Reading :=
  match readings with
  | [] => Err IndexError
  | first :: rest =>
      summed <- sum_readings first rest ;;
      divide summed (Z.of_nat (length readings))
  end.

(** ** Clock values *)

(** [dt.timestamp()] for an aware datetime at [us] microseconds from the
    epoch: [(dt - epoch).total_seconds()], the quotient of two ints, the
    microseconds and [10**6]. The true division of ints rounds once: the
    result is the binary64 nearest to the quotient. It is not always the
    exact number of seconds. *)
Definition timestamp (us : Z) : float :=
  let quotient (s : bool) (m : positive) :=
    SF2Prim (SFdiv prec emax (S754_finite s m 0) (S754_finite false 1000000 0)) in
  match us with
  | Z0 => 0%float
  | Zpos m => quotient false m
  | Zneg m => quotient true m
  end.

(** [x > y] on exact times. *)
Definition Qgtb (x y : Q) : bool := negb (Qle_bool x y).

(** Round to the nearest integer, ties to even. *)
Definition Qround_half_even (q : Q) : Z :=
  let n := Qnum q in
  let d := Z.pos (Qden q) in
  let fl := n / d in
  let r := n mod d in
  match 2 * r ?= d with
  | Lt => fl
  | Gt => fl + 1
  | Eq => if Z.even fl then fl else fl + 1
  end.

(** ['%f' % q]: fixed notation with six decimals. *)
Definition fmt_f (q : Q) : string :=
  let n := Qround_half_even (Qabs q * 1000000) in
  let frac := pretty (n mod 1000000) in
  let pad := String.concat "" (repeat "0"%string (6 - String.length frac)) in
  ((if Qgtb 0 q then "-" else "") ++ pretty (n / 1000000) ++ "." ++ pad ++ frac)%string.

(** ['%f' % x] for a float [x]: the exact value of [x] is rounded to six
    decimals. *)
Definition fmt_f_float (x : float) : string :=
  match Prim2SF x with
  | S754_nan => "nan"
  | S754_infinity s => if s then "-inf" else "inf"
  | S754_zero s => if s then "-0.000000" else "0.000000"
  | S754_finite s m e =>
      fmt_f (inject_Z (if s then Z.neg m else Z.pos m) * Qpower (inject_Z 2) e)%Q
  end%string.

(** ** Service.is_sane *)

(** [v is not None and not isinstance(v, T)] *)
Definition present_not (isinstance_T : pyval -> bool) (v : pyval) : bool :=
  negb (is_none v) && negb (isinstance_T v).

(** [is_sane(reading)]; [now] is the value of [Service.utc_now()]. *)
Definition is_sane (now : Z) (reading : Reading) : bool * string :=
  match measurementTime reading with
  | VDatetime t =>
    let delta_seconds := PrimFloat.sub (timestamp now) (timestamp t) in
    if PrimFloat.ltb 20 (PrimFloat.abs delta_seconds) then
      (false, ("measurementTime more than 20s off: " ++ fmt_f_float delta_seconds)%string)
    else if present_not isinstance_str (serialno reading) then
      (false, "serialno not instance of str"%string)
    else if present_not isinstance_float (wifi reading) then
      (false, "wifi not instance of float"%string)
    else if present_not isinstance_float (pm01 reading) then
      (false, "pm01 not instance of float"%string)
    else if present_not isinstance_float (pm02 reading) then
      (false, "pm02 not instance of float"%string)
    else if present_not isinstance_float (pm10 reading) then
      (false, "pm10 not instance of float"%string)
    else if present_not isinstance_float (pm02Compensated reading) then
      (false, "pm02Compensated not instance of float"%string)
    else if present_not isinstance_float (pm01Standard reading) then
      (false, "pm01Standard not instance of float"%string)
    else if present_not isinstance_float (pm02Standard reading) then
      (false, "pm02Standard not instance of float"%string)
    else if present_not isinstance_float (pm10Standard reading) then
      (false, "pm10Standard not instance of float"%string)
    else if present_not isinstance_float (rco2 reading) then
      (false, "rco2 not instance of float"%string)
    else if present_not isinstance_float (pm003Count reading) then
      (false, "pm003Count not instance of float"%string)
    else if present_not isinstance_float (pm005Count reading) then
      (false, "pm005Count not instance of float"%string)
    else if present_not isinstance_float (pm01Count reading) then
      (false, "pm01Count not instance of float"%string)
    else if present_not isinstance_float (pm02Count reading) then
      (false, "pm02Count not instance of float"%string)
    else if present_not isinstance_float (pm50Count reading) then
      (false, "pm50Count not instance of float"%string)
    else if present_not isinstance_float (pm10Count reading) then
      (false, "pm10Count not instance of float"%string)
    else if present_not isinstance_float (atmp reading) then
      (false, "atmp not instance of float"%string)
    else if present_not isinstance_float (atmpCompensated reading) then
      (false, "atmpCompensated not instance of float"%string)
    else if present_not isinstance_float (rhum reading) then
      (false, "rhum not instance of float"%string)
    else if present_not isinstance_float (rhumCompensated reading) then
      (false, "rhumCompensated not instance of float"%string)
    else if present_not isinstance_float (tvocIndex reading) then
      (false, "tvocIndex not instance of float"%string)
    else if present_not isinstance_float (tvocRaw reading) then
      (false, "tvocRaw not instance of float"%string)
    else if present_not isinstance_float (noxIndex reading) then
      (false, "noxIndex not instance of float"%string)
    else if present_not isinstance_float (noxRaw reading) then
      (false, "noxRaw not instance of float"%string)
    else if present_not isinstance_int (boot reading) then
      (false, "boot not instance of int"%string)
    else if present_not isinstance_int (bootCount reading) then
      (false, "bootCount not instance of int"%string)
    else if present_not isinstance_str (ledMode reading) then
      (false, "ledMode not instance of str"%string)
    else if present_not isinstance_str (firmware reading) then
      (false, "firmware not instance of str"%string)
    else if present_not isinstance_str (model reading) then
      (false, "model not instance of str"%string)
    else (true, ""%string)
  | _ => (false, "measurementTime not instance of datetime"%string)
  end.

(** ** Service.parse_response *)

(** [d.get] on the items of a dict built by the JSON decoder. *)
Fixpoint assoc (k : string) (items : list (string * pyval)) : option pyval :=
  match items with
  | [] => None
  | (k', v) :: rest => if String.eqb k k' then Some v else assoc k rest
  end.

(** [j[key]] with a string key. *)
Definition getitem (j : pyval) (key : string) : result pyval :=
  match j with
  | VDict items =>
      match assoc key items with
      | Some v => Ok v
      | None => Err (KeyError key)
      end
  | _ => Err TypeError
  end.

(** [float(v)]. The conversion of a [str] needs Python's decimal parser,
    which is left out. *)
Definition py_float (v : pyval) : result float :=
  match v with
  | VFloat f => Ok f
  | VInt z => int_to_float z
  | VBool b => Ok (if b then 1 else 0)%float
  | VStr _ => Err Unmodelled
  | _ => Err TypeError
  end.

(** [float(j[key]) if j[key] is not None else None] *)
Definition float_field (j : pyval) (key : string) : result pyval :=
  v <- getitem j key ;;
  if negb (is_none v) then
    v' <- getitem j key ;;
    f <- py_float v' ;;
    Ok (VFloat f)
  else Ok VNone.

(** [parse_response(response)]: [response_json] is what [response.json()]
    gives (an error on a malformed body) and [now] is [Service.utc_now()].
    The keyword arguments are evaluated in the order they are written. *)
Definition parse_response (response_json : result pyval) (now : Z) : result Reading :=
  j <- response_json ;;
  serialno' <- getitem j "serialno" ;;
  wifi' <- float_field j "wifi" ;;
  pm01' <- float_field j "pm01" ;;
  pm02' <- float_field j "pm02" ;;
  pm10' <- float_field j "pm10" ;;
  pm02Compensated' <- float_field j "pm02Compensated" ;;
  pm01Standard' <- float_field j "pm01Standard" ;;
  pm02Standard' <- float_field j "pm02Standard" ;;
  pm10Standard' <- float_field j "pm10Standard" ;;
  rco2' <- float_field j "rco2" ;;
  pm003Count' <- float_field j "pm003Count" ;;
  pm005Count' <- float_field j "pm005Count" ;;
  pm01Count' <- float_field j "pm01Count" ;;
  pm02Count' <- float_field j "pm02Count" ;;
  pm50Count' <- float_field j "pm50Count" ;;
  pm10Count' <- float_field j "pm10Count" ;;
  atmp' <- float_field j "atmp" ;;
  atmpCompensated' <- float_field j "atmpCompensated" ;;
  rhum' <- float_field j "rhum" ;;
  rhumCompensated' <- float_field j "rhumCompensated" ;;
  tvocIndex' <- float_field j "tvocIndex" ;;
  tvocRaw' <- float_field j "tvocRaw" ;;
  noxIndex' <- float_field j "noxIndex" ;;
  noxRaw' <- float_field j "noxRaw" ;;
  boot' <- getitem j "boot" ;;
  bootCount' <- getitem j "bootCount" ;;
  ledMode' <- getitem j "ledMode" ;;
  firmware' <- getitem j "firmware" ;;
  model' <- getitem j "model" ;;
  Ok {| measurementTime := VDatetime now;
        serialno := serialno';
        wifi := wifi'; pm01 := pm01'; pm02 := pm02'; pm10 := pm10';
        pm02Compensated := pm02Compensated';
        pm01Standard := pm01Standard'; pm02Standard := pm02Standard';
        pm10Standard := pm10Standard'; rco2 := rco2';
        pm003Count := pm003Count'; pm005Count := pm005Count';
        pm01Count := pm01Count'; pm02Count := pm02Count';
        pm50Count := pm50Count'; pm10Count := pm10Count';
        atmp := atmp'; atmpCompensated := atmpCompensated';
        rhum := rhum'; rhumCompensated := rhumCompensated';
        tvocIndex := tvocIndex'; tvocRaw := tvocRaw';
        noxIndex := noxIndex'; noxRaw := noxRaw';
        boot := boot'; bootCount := bootCount';
        ledMode := ledMode'; firmware := firmware'; model := model' |}.

(** [collect_data]: [response] is the outcome of [session.get] and
    [raise_for_status], whose exception is raised again as it is. *)
Definition collect_data (response : result (result pyval)) (now : Z) : result Reading :=
  response_json <- response ;;
  parse_response response_json now.

(** ** The Database class (one SQLite table, [Reading]) *)

(** A value held by SQLite, with its storage class. *)
Inductive sqlval : Type :=
  | SNull
  | SInteger (z : Z)
  | SReal (f : float)
  | SText (s : string).

(** The declared type of a column decides how a value is coerced on
    its way in. *)
Inductive affinity : Type := AInteger | AReal | AText.

(** [class RecordType] *)
Module RecordType.
Definition CURRENT : Z := 0.
Definition ARCHIVE : Z := 1.
Definition TWO_MINUTE : Z := 2.
End RecordType.

(** A row of the table. The primary key is [(record_type, timestamp)].
    The [timestamp] column holds seconds as a REAL written with ['%f'],
    six decimals: the row keeps the microseconds it denotes.
    [row_values] are the 29 remaining columns, serialno to model. *)
Record Row : Type := mkRow {
  record_type   : Z;
  row_timestamp : Z;
  row_values    : list sqlval
}.

(** The columns after [timestamp], in the order of CREATE TABLE, which
    is also the order of the INSERT and of the SELECT. *)
Definition column_affinities : list affinity :=
  [AText] ++ repeat AReal 23 ++ [AInteger; AInteger; AText; AText; AText].

(** The arguments of the INSERT after [record_type] and [stamp]. *)
Definition reading_fields (r : Reading) : list pyval :=
  [ serialno r; wifi r; pm01 r; pm02 r; pm10 r; pm02Compensated r;
    pm01Standard r; pm02Standard r; pm10Standard r; rco2 r;
    pm003Count r; pm005Count r; pm01Count r; pm02Count r;
    pm50Count r; pm10Count r; atmp r; atmpCompensated r;
    rhum r; rhumCompensated r; tvocIndex r; tvocRaw r;
    noxIndex r; noxRaw r; boot r; bootCount r;
    ledMode r; firmware r; model r ].

(** [v if v is not None else 'NULL'] *)
Definition sql_arg (v : pyval) : pyval :=
  if negb (is_none v) then v else VStr "NULL".

(** A character that [repr] writes as it is between quotes. *)
Definition plain_char (a : Ascii.ascii) : bool :=
  let n := Ascii.N_of_ascii a in
  (32 <=? n)%N && (n <? 127)%N && negb (n =? 92)%N.

Definition has_char (c : N) (s : string) : bool :=
  existsb (fun a => (Ascii.N_of_ascii a =? c)%N) (String.list_ascii_of_string s).

Definition has_digit (s : string) : bool :=
  existsb (fun a => let n := Ascii.N_of_ascii a in (48 <=? n)%N && (n <=? 57)%N)
          (String.list_ascii_of_string s).

(** What SQLite makes of a decimal text is SQLite's, not the program's:
    the REAL it stores for the text that [repr] writes for a finite float
    is taken as given. It is not always the float that was written. *)
Class Sqlite : Type := real_of_repr : float -> float.

Section Store.

Context `{sqlite_impl : !Sqlite}.

(** The value SQLite reads in the text that ['%r' % v] writes into the
    statement. [repr] of a [str] is the text between single quotes, or
    between double quotes when it holds a single quote and no double
    quote; both are string literals for SQLite. A [str] that [repr] has
    to escape is left out. [repr] of a finite [float] is a decimal, which
    SQLite reads as a REAL ([real_of_repr]); [repr] of an [int] is an
    integer literal, left out past 64 bits; [True] and [False] are
    keywords of SQLite. [nan], [inf], [None] and the [repr] of the other
    types make the statement fail. *)
Definition sql_literal (v : pyval) : result sqlval :=
  match v with
  | VStr s =>
      if forallb plain_char (String.list_ascii_of_string s)
         && negb (has_char 39 s && has_char 34 s)
      then Ok (SText s) else Err Unmodelled
  | VFloat f =>
      if negb (is_finite f) then Err OperationalError
      else Ok (SReal (real_of_repr f))
  | VInt z =>
      if (- 2 ^ 63 <=? z) && (z <? 2 ^ 63) then Ok (SInteger z) else Err Unmodelled
  | VBool b => Ok (SInteger (if b then 1 else 0))
  | VNone | VDatetime _ | VList _ | VDict _ => Err OperationalError
  end.

(** Column affinity. An integer stored in a REAL column becomes a
    float; a text that is no number stays a text in a numeric column.
    The coercions between a text and the number it spells are left out
    (a text with no digit spells no number). *)
Definition store_as (a : affinity) (v : sqlval) : result sqlval :=
  match a, v with
  | _, SNull => Ok SNull
  | AText, SText s => Ok (SText s)
  | AText, SInteger z => Ok (SText (pretty z))
  | AText, SReal _ => Err Unmodelled
  | AReal, SReal f => Ok (SReal f)
  | AReal, SInteger z => Ok (SReal (float_of_Z z))
  | AInteger, SInteger z => Ok (SInteger z)
  | AInteger, SReal _ => Err Unmodelled
  | (AReal | AInteger), SText s =>
      if has_digit s then Err Unmodelled else Ok (SText s)
  end.

Definition insert_value (av : affinity * pyval) : result sqlval :=
  lit <- sql_literal (sql_arg (snd av)) ;;
  store_as (fst av) lit.

Fixpoint map_result {A B} (f : A -> result B) (l : list A) : result (list B) :=
  match l with
  | [] => Ok []
  | x :: l' =>
      y <- f x ;;
      ys <- map_result f l' ;;
      Ok (y :: ys)
  end.

(** The row that the INSERT of [save_reading] describes. The timestamp
    is written as ['%f' % measurementTime.timestamp()], six decimals of a
    binary64: for a datetime before 2^33 seconds these are its
    microseconds, which the row holds here. From 2^33 seconds on the
    float cannot tell neighbouring microseconds apart and two datetimes
    can share a key; the row of such a datetime is not described. *)
Definition insert_row_of (rt : Z) (r : Reading) : result Row :=
  stamp <- match measurementTime r with
           | VDatetime us => Ok us
           | _ => Err AttributeError
           end ;;
  values <- map_result insert_value (zip column_affinities (reading_fields r)) ;;
  Ok {| record_type := rt; row_timestamp := stamp; row_values := values |}.

(** [DELETE FROM Reading where record_type = rt] *)
Definition delete_record_type (rt : Z) (db : list Row) : list Row :=
  filter (fun row => record_type row <> rt) db.

Definition same_key (a b : Row) : bool :=
  (record_type a =? record_type b) && (row_timestamp a =? row_timestamp b).

(** [INSERT INTO Reading]: the primary key rejects a second row with
    the same record type and timestamp. *)
Definition insert_row (row : Row) (db : list Row) : result (list Row) :=
  if existsb (same_key row) db then Err IntegrityError else Ok (db ++ [row]).

(** [save_reading(record_type, r)] on the rows of the table. The
    DELETE and the INSERT run in one transaction, which the connection's
    context manager commits, or rolls back when the block raises: an
    error leaves the table as it was. *)
Definition save_reading (rt : Z) (r : Reading) (db : list Row) : result (list Row) :=
  row <- insert_row_of rt r ;;
  let db1 := if rt =? RecordType.CURRENT
             then delete_record_type RecordType.CURRENT db else db in
  let db2 := if rt =? RecordType.TWO_MINUTE
             then delete_record_type RecordType.TWO_MINUTE db1 else db1 in
  insert_row row db2.

Definition save_current_reading (r : Reading) (db : list Row) : result (list Row) :=
  save_reading RecordType.CURRENT r db.

Definition save_two_minute_reading (r : Reading) (db : list Row) : result (list Row) :=
  save_reading RecordType.TWO_MINUTE r db.

Definition save_archive_reading (r : Reading) (db : list Row) : result (list Row) :=
  save_reading RecordType.ARCHIVE r db.

(** The Python value of a fetched column. *)
Definition py_of_sql (v : sqlval) : pyval :=
  match v with
  | SNull => VNone
  | SInteger z => VInt z
  | SReal f => VFloat f
  | SText s => VStr s
  end.

(** [row[k]] for [1 <= k <= 29] in a row of the SELECT, whose [row[0]]
    is the timestamp. *)
Definition row_col (k : nat) (row : Row) : pyval :=
  py_of_sql (nth (k - 1) (row_values row) SNull).

(** [create_reading_from_row(row)]. [datetime.fromtimestamp(row[0])]
    returns for the timestamps of the years 1 to 9999 and raises
    [ValueError] outside; the reading of a row outside is not described.
    Before 2^33 seconds the datetime has the microseconds of the row. *)
Definition create_reading_from_row (row : Row) : Reading :=
  {| measurementTime := VDatetime (row_timestamp row);
     serialno := row_col 1 row;
     wifi := row_col 2 row;
     pm01 := row_col 3 row;
     pm02 := row_col 4 row;
     pm10 := row_col 5 row;
     pm02Compensated := row_col 6 row;
     pm01Standard := row_col 7 row;
     pm02Standard := row_col 8 row;
     pm10Standard := row_col 9 row;
     rco2 := row_col 10 row;
     pm003Count := row_col 11 row;
     pm005Count := row_col 12 row;
     pm01Count := row_col 13 row;
     pm02Count := row_col 14 row;
     pm50Count := row_col 15 row;
     pm10Count := row_col 16 row;
     atmp := row_col 17 row;
     atmpCompensated := row_col 18 row;
     rhum := row_col 19 row;
     rhumCompensated := row_col 20 row;
     tvocIndex := row_col 21 row;
     tvocRaw := row_col 22 row;
     noxIndex := row_col 23 row;
     noxRaw := row_col 24 row;
     boot := row_col 25 row;
     bootCount := row_col 26 row;
     ledMode := row_col 27 row;
     firmware := row_col 28 row;
     model := row_col 29 row |}.

(** [ORDER BY timestamp] *)
Definition ts_le (a b : Row) : Prop := row_timestamp a ≤ row_timestamp b.

#[global] Instance ts_le_dec : RelDecision ts_le :=
  fun a b => decide (row_timestamp a ≤ row_timestamp b).

(** The rows of the SELECT of [fetch_readings]: of the record type,
    later than [since_ts] seconds, not later than [max_ts] when it is
    given, by ascending timestamp, at most [limit] of them when it is
    given (SQLite takes a negative LIMIT as none). *)
Definition select_rows (rt since_ts : Z) (max_ts limit : option Z)
    (db : list Row) : list Row :=
  let rows :=
    filter (fun row => record_type row = rt /\
                       since_ts * 1000000 < row_timestamp row) db in
  let rows :=
    match max_ts with
    | Some m => filter (fun row => row_timestamp row ≤ m * 1000000) rows
    | None => rows
    end in
  let rows := merge_sort ts_le rows in
  match limit with
  | Some n => if n <? 0 then rows else take (Z.to_nat n) rows
  | None => rows
  end.

Definition fetch_readings (rt since_ts : Z) (max_ts limit : option Z)
    (db : list Row) : list Reading :=
  map create_reading_from_row (select_rows rt since_ts max_ts limit db).

Definition fetch_current_readings (db : list Row) : list Reading :=
  fetch_readings RecordType.CURRENT 0 None None db.

Definition fetch_two_minute_readings (db : list Row) : list Reading :=
  fetch_readings RecordType.TWO_MINUTE 0 None None db.

Definition fetch_archive_readings (since_ts : Z) (max_ts limit : option Z)
    (db : list Row) : list Reading :=
  fetch_readings RecordType.ARCHIVE since_ts max_ts limit db.

(** ** The scheduler *)

Inductive Event : Type := POLL | ARCHIVE.

(** The fields of [Service] that the loop reads. *)
Record Service : Type := mkService {
  pollfreq_secs   : Z;
  pollfreq_offset : Z;
  arcint_secs     : Z;
}.

(** [int(x)] for a float [x]: truncation toward zero. *)
Definition Qtrunc (q : Q) : Z := Z.quot (Qnum q) (Z.pos (Qden q)).

(** [x / n] for a float [x] and an int [n]. *)
Definition Qdiv_int (x : Q) (n : Z) : result Q :=
  if n =? 0 then Err ZeroDivisionError else Ok (x / inject_Z n)%Q.

(** [compute_next_event(first_time)]; [now] is [time.time()]. The
    two wake times are ints and are compared as ints. The quotients and
    the wait are given as the exact numbers; the code computes them in
    binary64, which rounds the wait. *)
Definition compute_next_event (self : Service) (first_time : bool) (now : Q)
    : result (Event * Q) :=
  qp <- Qdiv_int now (pollfreq_secs self) ;;
  let next_poll_event := Qtrunc qp * pollfreq_secs self + pollfreq_secs self in
  qa <- Qdiv_int now (arcint_secs self) ;;
  let next_arc_event := Qtrunc qa * arcint_secs self + arcint_secs self in
  let event := if next_poll_event =? next_arc_event then ARCHIVE else POLL in
  let secs_to_event := (inject_Z next_poll_event - now)%Q in
  let secs_to_event := (secs_to_event + inject_Z (pollfreq_offset self))%Q in
  Ok (event, secs_to_event).

(** [trim_two_minute_readings]; [now] is [datetime.now(tz=UTC)]. *)
Fixpoint trim_two_minute_readings (now : Z) (two_minute_readings : list Reading)
    : result (list Reading) :=
  match two_minute_readings with
  | [] => Ok []
  | first :: rest =>
      match measurementTime first with
      | VDatetime t =>
          if t <? now - 120 * 1000000
          then trim_two_minute_readings now rest
          else Ok two_minute_readings
      | _ => Err TypeError
      end
  end.

(** [r.measurementTime = t] *)
Definition set_measurementTime (r : Reading) (t : pyval) : Reading :=
  {| measurementTime := t;
     serialno := serialno r;
     wifi := wifi r; pm01 := pm01 r; pm02 := pm02 r; pm10 := pm10 r;
     pm02Compensated := pm02Compensated r;
     pm01Standard := pm01Standard r; pm02Standard := pm02Standard r;
     pm10Standard := pm10Standard r; rco2 := rco2 r;
     pm003Count := pm003Count r; pm005Count := pm005Count r;
     pm01Count := pm01Count r; pm02Count := pm02Count r;
     pm50Count := pm50Count r; pm10Count := pm10Count r;
     atmp := atmp r; atmpCompensated := atmpCompensated r;
     rhum := rhum r; rhumCompensated := rhumCompensated r;
     tvocIndex := tvocIndex r; tvocRaw := tvocRaw r;
     noxIndex := noxIndex r; noxRaw := noxRaw r;
     boot := boot r; bootCount := bootCount r;
     ledMode := ledMode r; firmware := firmware r; model := model r |}.

(** What the loop holds from one turn to the next. [session_open] is
    [session is not None]. *)
Record LoopState : Type := mkLoopState {
  archive_readings    : list Reading;
  two_minute_readings : list Reading;
  first_time          : bool;
  session_open        : bool;
  database            : list Row
}.

(** What one turn of the loop reads from outside: the clock at each
    place it is read, the answer of the sensor, and for each write
    whether the store refuses it for a reason of its own (a locked
    database, a full disk). *)
Record Cycle : Type := mkCycle {
  time_now          : Q;                       (* time.time() in compute_next_event *)
  trim_now          : Z;                       (* datetime.now() in the trim *)
  response          : result (result pyval);   (* session.get, then response.json() *)
  read_now          : Z;                       (* utc_now() in parse_response *)
  sane_now          : Z;                       (* utc_now() in is_sane *)
  archive_now       : Z;                       (* utc_now() in the archive branch *)
  fault_current     : bool;
  fault_two_minute  : bool;
  fault_archive     : bool
}.

(** A write to the store, as the loop sees it: [fault] is a failure of
    the database file (locked, disk full), raised as
    [sqlite3.OperationalError]. *)
Definition store_write (fault : bool) (save : list Row -> result (list Row))
    (db : list Row) : result (list Row) :=
  if fault then Err OperationalError else save db.

(** [calendar.timegm(dt.utctimetuple())]: the whole seconds of [dt]. *)
Definition timegm_utc (us : Z) : Z := us / 1000000.

(** [int(reading_plus_5s_ts / arcint_secs) * arcint_secs] at [now + 5s].
    The quotient of the two ints is a float; its truncation is the
    truncated integer quotient for every dividend below 2^53 in
    magnitude, which the seconds of a datetime are. *)
Definition archive_timestamp (self : Service) (now : Z) : result Z :=
  let reading_plus_5s_ts := timegm_utc (now + 5 * 1000000) in
  if arcint_secs self =? 0 then Err ZeroDivisionError
  else Ok (Z.quot reading_plus_5s_ts (arcint_secs self) * arcint_secs self).

(** The averaged reading of an archive cycle, with its timestamp
    ([datetime.fromtimestamp(archive_ts, tz=UTC)]). *)
Definition archive_reading (self : Service) (now : Z) (readings : list Reading)
    : result Reading :=
  avg_reading <- compute_avg readings ;;
  archive_ts <- archive_timestamp self now ;;
  Ok (set_measurementTime avg_reading (VDatetime (archive_ts * 1000000))).

(** The [try] block that reads the sensor and saves the current reading. *)
Definition collect_phase (c : Cycle) (st : LoopState) : LoopState :=
  match collect_data (response c) (read_now c) with
  | Ok reading =>
      let (sane, reason) := is_sane (sane_now c) reading in
      if sane then
        let db := match store_write (fault_current c)
                          (save_current_reading reading) (database st) with
                  | Ok db' => db'
                  | Err _ => database st
                  end in
        {| archive_readings := archive_readings st ++ [reading];
           two_minute_readings := two_minute_readings st ++ [reading];
           first_time := first_time st;
           session_open := true;
           database := db |}
      else
        {| archive_readings := archive_readings st;
           two_minute_readings := two_minute_readings st;
           first_time := first_time st;
           session_open := true;
           database := database st |}
  | Err _ =>
      {| archive_readings := archive_readings st;
         two_minute_readings := two_minute_readings st;
         first_time := first_time st;
         session_open := false;
         database := database st |}
  end.

(** "Write two minute avg reading." *)
Definition two_minute_phase (c : Cycle) (st : LoopState) : result LoopState :=
  match two_minute_readings st with
  | [] => Ok st
  | first :: rest =>
      avg_reading <- compute_avg (two_minute_readings st) ;;
      let avg_reading :=
        set_measurementTime avg_reading (measurementTime (List.last rest first)) in
      let db := match store_write (fault_two_minute c)
                        (save_two_minute_reading avg_reading) (database st) with
                | Ok db' => db'
                | Err _ => database st
                end in
      Ok {| archive_readings := archive_readings st;
            two_minute_readings := two_minute_readings st;
            first_time := first_time st;
            session_open := session_open st;
            database := db |}
  end.

(** "if archive time, also write an archive record" *)
Definition archive_phase (self : Service) (c : Cycle) (event : Event)
    (st : LoopState) : result LoopState :=
  match event with
  | POLL => Ok st
  | ARCHIVE =>
      match archive_readings st with
      | [] => Ok st
      | _ :: _ =>
          avg_reading <- archive_reading self (archive_now c) (archive_readings st) ;;
          match store_write (fault_archive c)
                  (save_archive_reading avg_reading) (database st) with
          | Ok db' =>
              Ok {| archive_readings := [];
                    two_minute_readings := two_minute_readings st;
                    first_time := first_time st;
                    session_open := session_open st;
                    database := db' |}
          | Err _ => Ok st
          end
      end
  end.

(** One turn of [while True] in [do_loop]. An error is an exception
    that leaves the loop. *)
Definition do_loop_turn (self : Service) (c : Cycle) (st : LoopState)
    : result LoopState :=
  event <- (if first_time st then Ok POLL
            else
              es <- compute_next_event self (first_time st) (time_now c) ;;
              (* sleep(secs_to_event) *)
              if Qgtb 0 (snd es) then Err ValueError else Ok (fst es)) ;;
  trimmed <- trim_two_minute_readings (trim_now c) (two_minute_readings st) ;;
  let st := {| archive_readings := archive_readings st;
               two_minute_readings := trimmed;
               first_time := false;
               session_open := session_open st;
               database := database st |} in
  let st := collect_phase c st in
  st <- two_minute_phase c st ;;
  archive_phase self c event st.

(** [do_loop] over the turns that a list of cycles describes. *)
Fixpoint do_loop_from (self : Service) (cycles : list Cycle) (st : LoopState)
    : result LoopState :=
  match cycles with
  | [] => Ok st
  | c :: cycles' =>
      st' <- do_loop_turn self c st ;;
      do_loop_from self cycles' st'
  end.

Definition initial_state (db : list Row) : LoopState :=
  {| archive_readings := [];
     two_minute_readings := [];
     first_time := true;
     session_open := false;
     database := db |}.

(** ** compute_avg on objects

    The readings of the program are objects that the two windows of the
    loop share, and [compute_avg] assigns to the fields of objects. Here
    the heap is explicit: a list is an object holding references, a
    reading is an object holding its fields, [copy.copy] and the slice
    [readings[1:]] allocate. *)

Inductive obj : Type :=
  | OReading (r : Reading)
  | OList (items : list positive).

Definition alloc (h : gmap positive obj) (o : obj) : positive * gmap positive obj :=
  let l := fresh (dom h) in (l, <[l := o]> h).

Definition load_reading (h : gmap positive obj) (l : positive) : result Reading :=
  match h !! l with
  | Some (OReading r) => Ok r
  | _ => Err AttributeError
  end.

Definition load_list (h : gmap positive obj) (l : positive) : result (list positive) :=
  match h !! l with
  | Some (OList items) => Ok items
  | _ => Err TypeError
  end.

(** The [for] loop: each turn assigns to the fields of the object
    [summed_reading]. *)
Fixpoint sum_loop (h : gmap positive obj) (summed_reading : positive)
    (rest : list positive) : result (gmap positive obj) :=
  match rest with
  | [] => Ok h
  | reading :: rest' =>
      s <- load_reading h summed_reading ;;
      r <- load_reading h reading ;;
      s' <- accumulate s r ;;
      sum_loop (<[summed_reading := OReading s']> h) summed_reading rest'
  end.

(** [compute_avg(readings)] on a heap: the reference of the result and
    the heap after the call. *)
Definition compute_avg_heap (h : gmap positive obj) (readings : positive)
    : result (positive * gmap positive obj) :=
  items <- load_list h readings ;;
  match items with
  | [] => Err IndexError
  | first :: rest =>
      r0 <- load_reading h first ;;
      let (summed_reading, h1) := alloc h (OReading r0) in
      let (tail, h2) := alloc h1 (OList rest) in
      h3 <- sum_loop h2 summed_reading rest ;;
      let count := Z.of_nat (length items) in
      s <- load_reading h3 summed_reading ;;
      let (avg_reading, h4) := alloc h3 (OReading s) in
      a <- divide s count ;;
      Ok (avg_reading, <[avg_reading := OReading a]> h4)
  end.

(** The readings that a list object refers to. *)
Definition deref_list (h : gmap positive obj) (readings : positive)
    : result (list Reading) :=
  items <- load_list h readings ;;
  map_result (load_reading h) items.

(** ** Notions used by the statements *)

(** The mean of a list of floats as the averaging computes it: the sum
    from the first value on, in list order, over the length. *)
Definition fmean (xs : list float) : float :=
  match xs with
  | [] => nan
  | x :: rest => (fold_left PrimFloat.add rest x / float_of_Z (Z.of_nat (length xs)))%float
  end.

Definition float_or_none (v : pyval) : bool := is_none v || isinstance_float v.
Definition int_or_none (v : pyval) : bool := is_none v || isinstance_int v.
Definition str_or_none (v : pyval) : bool := is_none v || isinstance_str v.

(** Every channel holds a float or is absent ([Optional[float]]). *)
Definition channels_typed (r : Reading) : bool :=
  forallb (fun c => float_or_none (chan c r)) all_channels.

(** The fields of a reading have the types the dataclass declares. *)
Definition declared_types (r : Reading) : bool :=
  str_or_none (serialno r) && channels_typed r
  && int_or_none (boot r) && int_or_none (bootCount r)
  && str_or_none (ledMode r) && str_or_none (firmware r) && str_or_none (model r).

(** The fields that the averaging copies from the last reading. *)
Definition identity_fields (r : Reading) : list pyval :=
  [serialno r; ledMode r; firmware r; model r; boot r; bootCount r].

(** The rows of a record type. *)
Definition rows_of (rt : Z) (db : list Row) : list Row :=
  filter (fun row => record_type row = rt) db.

(** The primary key holds: no two rows share record type and timestamp. *)
Definition key_of (row : Row) : Z * Z := (record_type row, row_timestamp row).
Definition keys_unique (db : list Row) : Prop := NoDup (map key_of db).

(** Saves in a row, of the readings of a list. *)
Fixpoint save_all (save : Reading -> list Row -> result (list Row))
    (rs : list Reading) (db : list Row) : result (list Row) :=
  match rs with
  | [] => Ok db
  | r :: rs' =>
      db' <- save r db ;;
      save_all save rs' db'
  end.

(** The sums of one channel, from the value of the first reading on. *)
Fixpoint sum_chan (s : pyval) (xs : list pyval) : result pyval :=
  match xs with
  | [] => Ok s
  | x :: xs' =>
      s' <- sum_opt s x ;;
      sum_chan s' xs'
  end.

(** A reading that [is_sane] accepts: a datetime and fields of the
    declared types. *)
Definition sane_reading (r : Reading) : bool :=
  isinstance_datetime (measurementTime r) && declared_types r.

(** The two windows of the loop hold accepted readings only. *)
Definition windows_sane (st : LoopState) : Prop :=
  Forall (fun r => sane_reading r = true) (archive_readings st) /\
  Forall (fun r => sane_reading r = true) (two_minute_readings st).

(** A value that comes back from a column as it went in. *)
Definition storable_as (a : affinity) (v : pyval) : bool :=
  match a, v with
  | AText, VStr _ | AReal, VFloat _ | AInteger, VInt _ => is_ok (sql_literal v)
  | _, _ => false
  end.

(** A reading with every field present and of the declared type, in the
    domain of the store. *)
Definition storable (r : Reading) : bool :=
  forallb (fun av => storable_as (fst av) (snd av))
          (zip column_affinities (reading_fields r)).

(** ** Sample data *)

(** The reading of [create_test_reading], with every channel a float as
    [parse_response] makes them. *)
#[warnings="-inexact-float"]
Definition create_test_reading (measurementTime : Z) : Reading :=
  {| measurementTime := VDatetime measurementTime;
     serialno := VStr "000000000000";
     wifi := VFloat (-70);
     pm01 := VFloat 0.67;
     pm02 := VFloat 0.23;
     pm10 := VFloat 0.54;
     pm02Compensated := VFloat 0;
     pm01Standard := VFloat 0;
     pm02Standard := VFloat 0;
     pm10Standard := VFloat 10;
     rco2 := VFloat 547;
     pm003Count := VFloat 94.33;
     pm005Count := VFloat 75.33;
     pm01Count := VFloat 22.33;
     pm02Count := VFloat 2.33;
     pm50Count := VFloat 0;
     pm10Count := VFloat 0;
     atmp := VFloat 21.66;
     atmpCompensated := VFloat 21.66;
     rhum := VFloat 60.74;
     rhumCompensated := VFloat 60.74;
     tvocIndex := VFloat 98;
     tvocRaw := VFloat 32358.67;
     noxIndex := VFloat 1;
     noxRaw := VFloat 18311.08;
     boot := VInt 14;
     bootCount := VInt 14;
     ledMode := VStr "pm";
     firmware := VStr "3.3.7";
     model := VStr "I-9PSL" |}.

(** [r.wifi = v] *)
Definition set_wifi (r : Reading) (v : pyval) : Reading :=
  {| measurementTime := measurementTime r;
     serialno := serialno r;
     wifi := v; pm01 := pm01 r; pm02 := pm02 r; pm10 := pm10 r;
     pm02Compensated := pm02Compensated r;
     pm01Standard := pm01Standard r; pm02Standard := pm02Standard r;
     pm10Standard := pm10Standard r; rco2 := rco2 r;
     pm003Count := pm003Count r; pm005Count := pm005Count r;
     pm01Count := pm01Count r; pm02Count := pm02Count r;
     pm50Count := pm50Count r; pm10Count := pm10Count r;
     atmp := atmp r; atmpCompensated := atmpCompensated r;
     rhum := rhum r; rhumCompensated := rhumCompensated r;
     tvocIndex := tvocIndex r; tvocRaw := tvocRaw r;
     noxIndex := noxIndex r; noxRaw := noxRaw r;
     boot := boot r; bootCount := bootCount r;
     ledMode := ledMode r; firmware := firmware r; model := model r |}.

(** Two readings fifteen seconds apart; the second has no wifi. *)
Definition sample_readings : list Reading :=
  [create_test_reading 0; set_wifi (create_test_reading 15000000) VNone].

(** A heap with two readings and the list of both. *)
Definition sample_heap : gmap positive obj :=
  <[3%positive := OList [1%positive; 2%positive]]>
    (<[2%positive := OReading (set_wifi (create_test_reading 15000000) VNone)]>
       (<[1%positive := OReading (create_test_reading 0)]> ∅)).

(** The keys that [parse_response] reads in the payload. *)
Definition response_keys : list string :=
  [ "serialno"; "wifi"; "pm01"; "pm02"; "pm10"; "pm02Compensated";
    "pm01Standard"; "pm02Standard"; "pm10Standard"; "rco2";
    "pm003Count"; "pm005Count"; "pm01Count"; "pm02Count";
    "pm50Count"; "pm10Count"; "atmp"; "atmpCompensated";
    "rhum"; "rhumCompensated"; "tvocIndex"; "tvocRaw";
    "noxIndex"; "noxRaw"; "boot"; "bootCount";
    "ledMode"; "firmware"; "model" ]%string.

(** The "Sample AirGradient Open Air reading" of the source, as
    [response.json()] decodes it. It has no [pm50Count], no [pm10Count]
    and no [ledMode]. *)
#[warnings="-inexact-float"]
Definition sample_open_air : pyval :=
  VDict
    [ ("pm01", VInt 0); ("pm02", VInt 0); ("pm10", VInt 0);
      ("pm01Standard", VInt 0); ("pm02Standard", VInt 0);
      ("pm10Standard", VInt 0);
      ("pm003Count", VFloat 57.17); ("pm005Count", VFloat 48.17);
      ("pm01Count", VFloat 7.83); ("pm02Count", VFloat 0.67);
      ("atmp", VFloat 23.2); ("atmpCompensated", VFloat 22.29);
      ("rhum", VFloat 46.05); ("rhumCompensated", VFloat 65.32);
      ("pm02Compensated", VInt 0); ("rco2", VFloat 599.33);
      ("tvocIndex", VInt 101); ("tvocRaw", VFloat 32378.83);
      ("noxIndex", VInt 1); ("noxRaw", VFloat 17800.5);
      ("boot", VInt 3); ("bootCount", VInt 3); ("wifi", VInt (-73));
      ("serialno", VStr "000000000000"); ("firmware", VStr "3.3.9");
      ("model", VStr "O-1PST") ]%string.

(** The "Sample AirGradient One reading" of the source, with a null
    for [rco2]. *)
#[warnings="-inexact-float"]
Definition sample_one_null_rco2 : pyval :=
  VDict
    [ ("pm01", VFloat 0.67); ("pm02", VFloat 0.67); ("pm10", VFloat 0.67);
      ("pm01Standard", VFloat 0.67); ("pm02Standard", VFloat 0.67);
      ("pm10Standard", VFloat 0.67);
      ("pm003Count", VFloat 568.33); ("pm005Count", VFloat 383.33);
      ("pm01Count", VInt 11); ("pm02Count", VInt 0);
      ("pm50Count", VInt 0); ("pm10Count", VInt 0);
      ("pm02Compensated", VFloat 1.03);
      ("atmp", VFloat 21.91); ("atmpCompensated", VFloat 21.91);
      ("rhum", VFloat 58.86); ("rhumCompensated", VFloat 58.86);
      ("rco2", VNone);
      ("tvocIndex", VInt 75); ("tvocRaw", VFloat 32100.5);
      ("noxIndex", VInt 1); ("noxRaw", VFloat 18138.67);
      ("boot", VInt 0); ("bootCount", VInt 0); ("wifi", VInt (-72));
      ("ledMode", VStr "pm"); ("serialno", VStr "000000000000");
      ("firmware", VStr "3.3.7"); ("model", VStr "I-9PSL") ]%string.

(** A service that polls every 30 seconds and archives every 300. *)
Definition sample_service : Service :=
  {| pollfreq_secs := 30; pollfreq_offset := 0; arcint_secs := 300 |}.

(** A cycle planned at 1700000070 s: the next poll, 1700000100 s, is an
    archive boundary. The loop wakes half a second early and gets no
    answer from the sensor; [fault] says whether the store refuses the
    archive write. *)
Definition sample_cycle (fault : bool) : Cycle :=
  {| time_now := 1700000070 # 1;
     trim_now := 1700000099500000;
     response := Err HTTPError;
     read_now := 1700000099600000;
     sane_now := 1700000099600000;
     archive_now := 1700000099700000;
     fault_current := false;
     fault_two_minute := false;
     fault_archive := fault |}.

(** A state with two readings in each window. *)
Definition sample_state : LoopState :=
  {| archive_readings := [create_test_reading 1700000040000000;
                          create_test_reading 1700000070000000];
     two_minute_readings := [create_test_reading 1700000040000000;
                             create_test_reading 1700000070000000];
     first_time := false;
     session_open := true;
     database := [] |}.

(** ** The store as the web server reads it *)

(** The [resp] dict of [get_earliest_timestamp_as_json] before [dumps]
    writes it: the [timestamp] of the first row of the SELECT (ARCHIVE
    rows, [ORDER BY timestamp LIMIT 1]), or no entry when it has no row. *)
Definition get_earliest_timestamp (db : list Row) : option Z :=
  match take 1 (merge_sort ts_le (rows_of RecordType.ARCHIVE db)) with
  | [] => None
  | row :: _ => Some (row_timestamp row)
  end.

Section Json.

(** [json.dumps] on a dict, which raises on a value that JSON has no
    form for, and [strftime('%Y-%m-%dT%H:%M:%S.%fZ')] on a datetime
    are taken as given. *)
Variable dumps : list (string * pyval) -> result string.
Variable strftime : Z -> string.

(** [convert_to_json(reading)]. The values of the dict display are
    evaluated in order, [measurementTime.strftime] last. *)
Definition convert_to_json (reading : Reading) : result string :=
  stamp <- match measurementTime reading with
           | VDatetime us => Ok (strftime us)
           | _ => Err AttributeError
           end ;;
  dumps
    [ ("pm01", pm01 reading);
      ("pm02", pm02 reading);
      ("pm10", pm10 reading);
      ("pm01Standard", pm01Standard reading);
      ("pm02Standard", pm02Standard reading);
      ("pm10Standard", pm10Standard reading);
      ("pm003Count", pm003Count reading);
      ("pm005Count", pm005Count reading);
      ("pm01Count", pm01Count reading);
      ("pm02Count", pm02Count reading);
      ("pm50Count", pm50Count reading);
      ("pm10Count", pm10Count reading);
      ("pm02Compensated", pm02Compensated reading);
      ("atmp", atmp reading);
      ("atmpCompensated", atmpCompensated reading);
      ("rhum", rhum reading);
      ("rhumCompensated", rhumCompensated reading);
      ("rco2", rco2 reading);
      ("tvocIndex", tvocIndex reading);
      ("tvocRaw", tvocRaw reading);
      ("noxIndex", noxIndex reading);
      ("noxRaw", noxRaw reading);
      ("boot", boot reading);
      ("bootCount", bootCount reading);
      ("wifi", wifi reading);
      ("ledMode", ledMode reading);
      ("serialno", serialno reading);
      ("firmware", firmware reading);
      ("model", model reading);
      ("measurementTime", VStr stamp) ]%string.

(** [fetch_current_reading_as_json]: the JSON of the first reading
    fetched, ['{}'] when there is none. *)
Definition fetch_current_reading_as_json (db : list Row) : result string :=
  match fetch_current_readings db with
  | reading :: _ => convert_to_json reading
  | [] => Ok "{}"%string
  end.

Definition fetch_two_minute_reading_as_json (db : list Row) : result string :=
  match fetch_two_minute_readings db with
  | reading :: _ => convert_to_json reading
  | [] => Ok "{}"%string
  end.

(** The loop of [fetch_archive_readings_as_json] from a value of
    [contents]. *)
Fixpoint archive_contents (contents : string) (readings : list Reading)
    : result string :=
  match readings with
  | [] => Ok contents
  | reading :: rest =>
      let contents :=
        if String.eqb contents "" then contents else (contents ++ ",")%string in
      json <- convert_to_json reading ;;
      archive_contents (contents ++ json)%string rest
  end.

(** [fetch_archive_readings_as_json(since_ts, max_ts, limit)] *)
Definition fetch_archive_readings_as_json (since_ts : Z) (max_ts limit : option Z)
    (db : list Row) : result string :=
  contents <- archive_contents "" (fetch_archive_readings since_ts max_ts limit db) ;;
  Ok ("[  " ++ contents ++ " ]")%string.

End Json.

(** ** Further notions used by the statements *)

(** The WHERE clause of [fetch_readings] on a row. *)
Definition selected (rt since_ts : Z) (max_ts : option Z) (row : Row) : bool :=
  (record_type row =? rt)
  && (since_ts * 1000000 <? row_timestamp row)
  && match max_ts with
     | Some m => row_timestamp row <=? m * 1000000
     | None => true
     end.

(** Two readings in the order of their times. *)
Definition time_le (a b : Reading) : Prop :=
  match measurementTime a, measurementTime b with
  | VDatetime x, VDatetime y => x ≤ y
  | _, _ => False
  end.

(** ** Further sample data *)

(** A table with two archive rows, saved out of order: the reading of
    [create_test_reading] at 600 s and at 300 s. *)
Definition sample_archive_table : list Row :=
  match save_all save_archive_reading
          [create_test_reading 600000000; create_test_reading 300000000] [] with
  | Ok db => db
  | Err _ => []
  end.

(** The key of the payload that carries each channel. *)
Definition channel_name (c : channel) : string :=
  match c with
  | Cwifi => "wifi" | Cpm01 => "pm01" | Cpm02 => "pm02" | Cpm10 => "pm10"
  | Cpm02Compensated => "pm02Compensated"
  | Cpm01Standard => "pm01Standard" | Cpm02Standard => "pm02Standard"
  | Cpm10Standard => "pm10Standard" | Crco2 => "rco2"
  | Cpm003Count => "pm003Count" | Cpm005Count => "pm005Count"
  | Cpm01Count => "pm01Count" | Cpm02Count => "pm02Count"
  | Cpm50Count => "pm50Count" | Cpm10Count => "pm10Count"
  | Catmp => "atmp" | CatmpCompensated => "atmpCompensated"
  | Crhum => "rhum" | CrhumCompensated => "rhumCompensated"
  | CtvocIndex => "tvocIndex" | CtvocRaw => "tvocRaw"
  | CnoxIndex => "noxIndex" | CnoxRaw => "noxRaw"
  end%string.

(** The keys of the payload that are copied as they are. *)
Definition identity_keys : list string :=
  [ "serialno"; "boot"; "bootCount"; "ledMode"; "firmware"; "model" ]%string.

(** A payload with every key, whose channel values are null or a number
    that [float] converts (a float, a bool, an int in the range of the
    floats). *)
Definition number_or_null (v : pyval) : bool :=
  match v with
  | VNone | VFloat _ | VBool _ => true
  | VInt z => is_ok (int_to_float z)
  | _ => false
  end.

Definition payload_ok (items : list (string * pyval)) : bool :=
  forallb (fun k => bool_decide (is_Some (assoc k items))) identity_keys
  && forallb (fun c => match assoc (channel_name c) items with
                       | Some v => number_or_null v
                       | None => false
                       end) all_channels.

(** The items of [sample_one_null_rco2]. *)
Definition sample_one_items : list (string * pyval) :=
  match sample_one_null_rco2 with
  | VDict items => items
  | _ => []
  end.

(** The two readings of [test_compute_avg] for wifi, with the ints the
    test writes. *)
Definition sample_int_readings : list Reading :=
  [ set_wifi (create_test_reading 0) (VInt (-71));
    set_wifi (create_test_reading 15000000) (VInt (-72)) ].

(** A value that JSON has a form for. *)
Definition jsonable (v : pyval) : bool :=
  match v with
  | VNone | VBool _ | VInt _ | VFloat _ | VStr _ => true
  | _ => false
  end.

(** The time check of [is_sane]: the two timestamps, as floats, are more
    than 20.0 apart. *)
Definition too_far (now t : Z) : bool :=
  PrimFloat.ltb 20 (PrimFloat.abs (PrimFloat.sub (timestamp now) (timestamp t))).

(** What comes back of a value that was saved: a float as SQLite read
    it, anything else as it was. *)
Definition real_back (v : pyval) : pyval :=
  match v with
  | VFloat f => VFloat (real_of_repr f)
  | _ => v
  end.

(** The reading that comes back of a reading whose fields are all
    present: its floats as SQLite read them, the rest as it was. *)
Definition read_back (r : Reading) : Reading :=
  {| measurementTime := measurementTime r;
     serialno := real_back (serialno r);
     wifi := real_back (wifi r); pm01 := real_back (pm01 r);
     pm02 := real_back (pm02 r); pm10 := real_back (pm10 r);
     pm02Compensated := real_back (pm02Compensated r);
     pm01Standard := real_back (pm01Standard r);
     pm02Standard := real_back (pm02Standard r);
     pm10Standard := real_back (pm10Standard r);
     rco2 := real_back (rco2 r);
     pm003Count := real_back (pm003Count r);
     pm005Count := real_back (pm005Count r);
     pm01Count := real_back (pm01Count r);
     pm02Count := real_back (pm02Count r);
     pm50Count := real_back (pm50Count r);
     pm10Count := real_back (pm10Count r);
     atmp := real_back (atmp r);
     atmpCompensated := real_back (atmpCompensated r);
     rhum := real_back (rhum r);
     rhumCompensated := real_back (rhumCompensated r);
     tvocIndex := real_back (tvocIndex r);
     tvocRaw := real_back (tvocRaw r);
     noxIndex := real_back (noxIndex r);
     noxRaw := real_back (noxRaw r);
     boot := real_back (boot r);
     bootCount := real_back (bootCount r);
     ledMode := real_back (ledMode r);
     firmware := real_back (firmware r);
     model := real_back (model r) |}.

(** ** The steps of a turn of the loop *)

(** The event of a turn: POLL at the first turn, then what
    [compute_next_event] answers, once [sleep] has returned. *)
Definition turn_event (self : Service) (c : Cycle) (st : LoopState) : result Event :=
  if first_time st then Ok POLL
  else
    es <- compute_next_event self (first_time st) (time_now c) ;;
    if Qgtb 0 (snd es) then Err ValueError else Ok (fst es).

(** The reading that a turn adds to the windows: the one the sensor
    gave, when [is_sane] accepts it. *)
Definition accepted (c : Cycle) : list Reading :=
  match collect_data (response c) (read_now c) with
  | Ok reading => if fst (is_sane (sane_now c) reading) then [reading] else []
  | Err _ => []
  end.

(** The state in which a turn reaches "if archive time": after the
    trim, the read and the two minute record. *)
Definition before_archive (c : Cycle) (st : LoopState) : result LoopState :=
  trimmed <- trim_two_minute_readings (trim_now c) (two_minute_readings st) ;;
  two_minute_phase c
    (collect_phase c
       {| archive_readings := archive_readings st;
          two_minute_readings := trimmed;
          first_time := false;
          session_open := session_open st;
          database := database st |}).

(** A result that the embedding leaves out. *)
Definition unmodelled {A} (m : result A) : bool :=
  match m with
  | Err Unmodelled => true
  | _ => false
  end.

(** A turn that the embedding describes up to the archive branch: the
    read of the sensor, the statement that saves the reading accepted and
    the statement that saves the two minute average do not end in
    [Unmodelled]. *)
Definition described (c : Cycle) (st : LoopState) : bool :=
  negb (unmodelled (collect_data (response c) (read_now c)))
  && forallb (fun reading =>
                negb (unmodelled (insert_row_of RecordType.CURRENT reading)))
             (accepted c)
  && match trim_two_minute_readings (trim_now c) (two_minute_readings st) with
     | Ok trimmed =>
         match trimmed ++ accepted c with
         | [] => true
         | first :: rest =>
             match compute_avg (first :: rest) with
             | Ok avg =>
                 negb (unmodelled
                         (insert_row_of RecordType.TWO_MINUTE
                            (set_measurementTime avg
                               (measurementTime (List.last rest first)))))
             | Err _ => true
             end
         end
     | Err _ => true
     end.

End Store.

(** For the sample data: an SQLite that reads the floats of the samples
    back as they were written. *)
#[global] Instance sample_sqlite : Sqlite := fun f => f.

(** For the sample data: a [dumps] that writes the keys with the texts,
    the ints and null as they are and [float] for a float, and a
    [strftime] that writes the microseconds. *)
Definition sample_dumps (d : list (string * pyval)) : result string :=
  Ok ("{" ++ String.concat ", "
               (map (fun kv =>
                       fst kv ++ ": " ++
                       match snd kv with
                       | VStr s => s
                       | VInt z => pretty z
                       | VNone => "null"
                       | VFloat _ => "float"
                       | _ => "?"
                       end) d)
          ++ "}")%string.

Definition sample_strftime (us : Z) : string := pretty us.

(** A cycle planned at 1700000100 s, whose next poll, 1700000130 s, is
    no archive boundary: the sensor answers with the sample payload and
    the store takes every write. *)
Definition sample_cycle_answered : Cycle :=
  {| time_now := 1700000100 # 1;
     trim_now := 1700000130100000;
     response := Ok (Ok sample_one_null_rco2);
     read_now := 1700000130200000;
     sane_now := 1700000130300000;
     archive_now := 1700000130400000;
     fault_current := false;
     fault_two_minute := false;
     fault_archive := false |}.
(** * Properties *)

(** ** Results *)

Lemma bind_ok {A B} (m : result A) (k : A -> result B) (b : B) :
  bind m k = Ok b -> exists a, m = Ok a /\ k a = Ok b.
Proof. destruct m as [a|e]; simpl; [eauto | discriminate]. Qed.

Lemma bind_err {A B} (m : result A) (k : A -> result B) (e : exn) :
  m = Err e -> bind m k = Err e.
Proof. intros ->. reflexivity. Qed.

Ltac inv_bind H :=
  let a := fresh "a" in
  let Ha := fresh "Ha" in
  apply bind_ok in H as (a & Ha & H).

(** ** compute_avg, channel by channel *)

Lemma accumulate_chan (s r s' : Reading) :
  accumulate s r = Ok s' ->
  forall c, sum_opt (chan c s) (chan c r) = Ok (chan c s').
Proof.
  unfold accumulate. intros H.
  repeat inv_bind H.
  injection H as <-.
  intros []; simpl; assumption.
Qed.

Lemma accumulate_identity (s r s' : Reading) :
  accumulate s r = Ok s' ->
  measurementTime s' = measurementTime r /\
  identity_fields s' = identity_fields r.
Proof.
  unfold accumulate. intros H.
  repeat inv_bind H.
  injection H as <-. split; reflexivity.
Qed.

Lemma bind_ok_intro {A B} (m : result A) (k : A -> result B) (a : A) :
  m = Ok a -> (exists b, k a = Ok b) -> exists b, bind m k = Ok b.
Proof. intros -> H. exact H. Qed.

(** Discharge the next [bind] of the goal with the fact [H] gives for
    the channel [c]. *)
Ltac use_chan H c :=
  let v := fresh "v" in
  let Hv := fresh "Hv" in
  destruct (H c) as [v Hv];
  eapply bind_ok_intro; [exact Hv | cbv beta]; clear Hv.

Ltac use_all_chans H :=
  use_chan H Cwifi; use_chan H Cpm01; use_chan H Cpm02; use_chan H Cpm10;
  use_chan H Cpm02Compensated; use_chan H Cpm01Standard;
  use_chan H Cpm02Standard; use_chan H Cpm10Standard; use_chan H Crco2;
  use_chan H Cpm003Count; use_chan H Cpm005Count; use_chan H Cpm01Count;
  use_chan H Cpm02Count; use_chan H Cpm50Count; use_chan H Cpm10Count;
  use_chan H Catmp; use_chan H CatmpCompensated; use_chan H Crhum;
  use_chan H CrhumCompensated; use_chan H CtvocIndex; use_chan H CtvocRaw;
  use_chan H CnoxIndex; use_chan H CnoxRaw.

Lemma accumulate_ok (s r : Reading) :
  (forall c, exists v, sum_opt (chan c s) (chan c r) = Ok v) ->
  exists s', accumulate s r = Ok s'.
Proof. intros H. unfold accumulate. use_all_chans H. eauto. Qed.

Lemma divide_chan (s a : Reading) (count : Z) :
  divide s count = Ok a ->
  forall c, div_opt (chan c s) count = Ok (chan c a).
Proof.
  unfold divide. intros H.
  repeat inv_bind H.
  injection H as <-.
  intros []; simpl; assumption.
Qed.

Lemma divide_identity (s a : Reading) (count : Z) :
  divide s count = Ok a ->
  measurementTime a = measurementTime s /\
  identity_fields a = identity_fields s.
Proof.
  unfold divide. intros H.
  repeat inv_bind H.
  injection H as <-. split; reflexivity.
Qed.

Lemma divide_ok (s : Reading) (count : Z) :
  (forall c, exists v, div_opt (chan c s) count = Ok v) ->
  exists a, divide s count = Ok a.
Proof. intros H. unfold divide. use_all_chans H. eauto. Qed.

(** The loop over the readings, seen from one channel. *)
Lemma sum_readings_chan (rest : list Reading) :
  forall s s', sum_readings s rest = Ok s' ->
  forall c, sum_chan (chan c s) (map (chan c) rest) = Ok (chan c s').
Proof.
  induction rest as [|r rest IH]; intros s s' H c; simpl in *.
  - injection H as <-. reflexivity.
  - inv_bind H.
    rewrite (accumulate_chan _ _ _ Ha c). simpl.
    apply IH, H.
Qed.

Lemma sum_readings_ok (rest : list Reading) :
  forall s,
  (forall c, exists v, sum_chan (chan c s) (map (chan c) rest) = Ok v) ->
  exists s', sum_readings s rest = Ok s'.
Proof.
  induction rest as [|r rest IH]; intros s H; simpl in *.
  - eauto.
  - destruct (accumulate_ok s r) as [s1 Hs1].
    { intros c. destruct (H c) as [v Hv]. inv_bind Hv. eauto. }
    rewrite Hs1. simpl. apply IH. intros c.
    destruct (H c) as [v Hv]. inv_bind Hv.
    rewrite (accumulate_chan _ _ _ Hs1 c) in Ha.
    injection Ha as ->. eauto.
Qed.

Lemma last_cons {A} (l : list A) (x d : A) :
  List.last (x :: l) d = List.last l x.
Proof.
  revert x d. induction l as [|y l IH]; intros x d; [reflexivity|].
  change (List.last (x :: y :: l) d) with (List.last (y :: l) d).
  rewrite (IH y d). symmetry. apply IH.
Qed.

Lemma sum_readings_identity (rest : list Reading) :
  forall s s', sum_readings s rest = Ok s' ->
  measurementTime s' = measurementTime (List.last rest s) /\
  identity_fields s' = identity_fields (List.last rest s).
Proof.
  induction rest as [|r rest IH]; intros s s' H.
  - injection H as <-. split; reflexivity.
  - simpl in H. inv_bind H.
    destruct (IH _ _ H) as [Ht Hi].
    destruct (accumulate_identity _ _ _ Ha) as [Ht' Hi'].
    rewrite last_cons.
    destruct rest as [|r' rest].
    + simpl in *. split; congruence.
    + rewrite last_cons in Ht, Hi. rewrite last_cons. split; assumption.
Qed.

(** ** Typed channels *)

Lemma float_or_none_cases (v : pyval) :
  float_or_none v = true -> v = VNone \/ exists f, v = VFloat f.
Proof. destruct v; simpl; try discriminate; eauto. Qed.

Lemma channels_typed_chan (r : Reading) (c : channel) :
  channels_typed r = true -> float_or_none (chan c r) = true.
Proof.
  unfold channels_typed. rewrite forallb_forall. intros H. apply H.
  destruct c; simpl; tauto.
Qed.

Lemma sum_chan_none (xs : list pyval) : sum_chan VNone xs = Ok VNone.
Proof. induction xs as [|x xs IH]; [reflexivity | exact IH]. Qed.

Lemma sum_chan_floats (xs : list float) :
  forall a, sum_chan (VFloat a) (map VFloat xs)
            = Ok (VFloat (fold_left PrimFloat.add xs a)).
Proof. induction xs as [|x xs IH]; intros a; [reflexivity | apply IH]. Qed.

Lemma sum_chan_absent (xs : list pyval) :
  forall s,
  Forall (fun v => float_or_none v = true) (s :: xs) ->
  Exists (fun v => v = VNone) (s :: xs) ->
  sum_chan s xs = Ok VNone.
Proof.
  induction xs as [|x xs IH]; intros s Ht Hex.
  - inversion Hex as [? ? Hs | ? ? Hx]; subst; [reflexivity | inversion Hx].
  - inversion Ht as [|? ? Hs Ht']; subst.
    inversion Ht' as [|? ? Hx Ht'']; subst.
    destruct (float_or_none_cases _ Hs) as [-> | [a ->]];
      [apply sum_chan_none|].
    destruct (float_or_none_cases _ Hx) as [-> | [b ->]];
      [apply sum_chan_none|].
    simpl. apply IH.
    + constructor; [reflexivity | assumption].
    + inversion Hex as [? ? Hs' | ? ? Hx']; subst; [discriminate|].
      inversion Hx' as [? ? Hb | ? ? Hr]; subst; [discriminate|].
      right. assumption.
Qed.

Lemma typed_present (vs : list pyval) :
  Forall (fun v => float_or_none v = true) vs ->
  Forall (fun v => v <> VNone) vs ->
  exists xs, vs = map VFloat xs.
Proof.
  induction vs as [|v vs IH]; intros Ht Hp.
  - exists []. reflexivity.
  - inversion Ht; subst. inversion Hp; subst.
    destruct IH as [xs ->]; [assumption..|].
    destruct (float_or_none_cases v) as [-> | [f ->]]; [assumption|congruence|].
    exists (f :: xs). reflexivity.
Qed.

Lemma sum_chan_typed (xs : list pyval) :
  forall s,
  Forall (fun v => float_or_none v = true) (s :: xs) ->
  exists v, sum_chan s xs = Ok v /\ float_or_none v = true.
Proof.
  induction xs as [|x xs IH]; intros s Ht.
  - inversion Ht; subst. simpl. eauto.
  - inversion Ht as [|? ? Hs Ht']; subst.
    inversion Ht' as [|? ? Hx Ht'']; subst.
    destruct (float_or_none_cases _ Hs) as [-> | [a ->]].
    { rewrite sum_chan_none. eauto. }
    destruct (float_or_none_cases _ Hx) as [-> | [b ->]].
    { simpl. rewrite sum_chan_none. eauto. }
    simpl. apply IH. constructor; [reflexivity | assumption].
Qed.

Lemma div_opt_typed (v : pyval) (n : Z) :
  float_or_none v = true -> n <> 0 ->
  div_opt v n = Ok (match v with
                    | VFloat f => VFloat (f / float_of_Z n)
                    | _ => VNone
                    end).
Proof.
  intros Hv Hn. apply Z.eqb_neq in Hn.
  destruct (float_or_none_cases _ Hv) as [-> | [f ->]]; [reflexivity|].
  unfold div_opt, py_truediv. simpl. rewrite Hn. reflexivity.
Qed.

Lemma Forall_chan (c : channel) (rs : list Reading) :
  Forall (fun r => channels_typed r = true) rs ->
  Forall (fun v => float_or_none v = true) (map (chan c) rs).
Proof.
  intros H. apply Forall_map.
  eapply Forall_impl; [exact H|]. intros r Hr. apply channels_typed_chan, Hr.
Qed.

(** On typed readings the loop and the divisions end, and the sums
    are typed. *)
Lemma compute_avg_parts (first : Reading) (rest : list Reading) :
  Forall (fun r => channels_typed r = true) (first :: rest) ->
  exists summed avg,
    sum_readings first rest = Ok summed /\
    divide summed (Z.of_nat (length (first :: rest))) = Ok avg /\
    forall c, float_or_none (chan c summed) = true.
Proof.
  intros Ht.
  assert (Hsum : forall c, exists v,
             sum_chan (chan c first) (map (chan c) rest) = Ok v /\
             float_or_none v = true).
  { intros c. apply sum_chan_typed. apply (Forall_chan c) in Ht. exact Ht. }
  destruct (sum_readings_ok rest first) as [summed Hsummed].
  { intros c. destruct (Hsum c) as (v & Hv & _). eauto. }
  assert (Hst : forall c, float_or_none (chan c summed) = true).
  { intros c. destruct (Hsum c) as (v & Hv & Hf).
    rewrite (sum_readings_chan _ _ _ Hsummed c) in Hv.
    injection Hv as <-. exact Hf. }
  destruct (divide_ok summed (Z.of_nat (length (first :: rest)))) as [avg Havg].
  { intros c. rewrite (div_opt_typed _ _ (Hst c)) by (simpl; lia). eauto. }
  exists summed, avg. auto.
Qed.

(** [compute_avg] returns on every list of typed readings that is not
    empty. *)
Lemma compute_avg_total (readings : list Reading) :
  readings <> [] ->
  Forall (fun r => channels_typed r = true) readings ->
  exists avg, compute_avg readings = Ok avg.
Proof.
  intros Hne Ht. destruct readings as [|first rest]; [congruence|].
  destruct (compute_avg_parts first rest Ht) as (summed & avg & Hs & Hd & _).
  exists avg. unfold compute_avg. rewrite Hs. exact Hd.
Qed.

(** ** C1 *)

(** C1. For every list of readings that is not empty (readings whose
    channels hold a float or nothing, as the dataclass declares),
    [compute_avg] returns a reading in which each numeric channel is the
    mean of that channel's values, the float sum divided by the float of
    the length, when every element has the channel, and is absent when
    any element lacks it; the identity fields are those of the last
    element. *)
Theorem compute_avg_mean (readings : list Reading) :
  readings <> [] ->
  Forall (fun r => channels_typed r = true) readings ->
  exists avg,
    compute_avg readings = Ok avg /\
    (forall c,
       (Forall (fun r => chan c r <> VNone) readings ->
        exists xs, map (chan c) readings = map VFloat xs /\
                   chan c avg = VFloat (fmean xs)) /\
       (Exists (fun r => chan c r = VNone) readings ->
        chan c avg = VNone)) /\
    (forall d, identity_fields avg = identity_fields (List.last readings d)).
Proof.
  intros Hne Ht. destruct readings as [|first rest]; [congruence|]. clear Hne.
  destruct (compute_avg_parts first rest Ht) as (summed & avg & Hsummed & Havg & Hst).
  pose proof (sum_readings_chan _ _ _ Hsummed) as Hchan.
  assert (Hn : Z.of_nat (length (first :: rest)) <> 0) by (simpl; lia).
  exists avg. split; [|split].
  - unfold compute_avg. rewrite Hsummed. exact Havg.
  - intros c.
    pose proof (divide_chan _ _ _ Havg c) as Hdiv.
    rewrite (div_opt_typed _ _ (Hst c) Hn) in Hdiv. injection Hdiv as Hdiv.
    pose proof (Forall_chan c _ Ht) as Htc.
    split.
    + intros Hp.
      destruct (typed_present (map (chan c) (first :: rest))) as [xs Hxs];
        [exact Htc | apply Forall_map; exact Hp |].
      exists xs. split; [exact Hxs|].
      destruct xs as [|x xs]; [discriminate|].
      simpl in Hxs. injection Hxs as Hx Hxs.
      specialize (Hchan c). rewrite Hx, Hxs, sum_chan_floats in Hchan.
      injection Hchan as Hchan. rewrite <- Hchan in Hdiv. rewrite <- Hdiv.
      unfold fmean. simpl length.
      assert (Hlen : length xs = length rest).
      { rewrite <- (length_map VFloat xs), <- Hxs. apply length_map. }
      rewrite Hlen. reflexivity.
    + intros Hex.
      specialize (Hchan c).
      rewrite sum_chan_absent in Hchan.
      * injection Hchan as Hchan. rewrite <- Hchan in Hdiv. congruence.
      * exact Htc.
      * change (chan c first :: map (chan c) rest)
          with (map (chan c) (first :: rest)).
        apply Exists_exists in Hex as (r & Hin & Hr).
        apply Exists_exists. exists (chan c r). split; [|exact Hr].
        apply list_elem_of_In, in_map, list_elem_of_In, Hin.
  - intros d.
    destruct (divide_identity _ _ _ Havg) as [_ ->].
    destruct (sum_readings_identity _ _ _ Hsummed) as [_ ->].
    rewrite last_cons. reflexivity.
Qed.

Lemma compute_avg_mean_witness :
  exists avg,
    compute_avg sample_readings = Ok avg /\
    chan Cwifi avg = VNone /\
    (exists xs, map (chan Cpm01) sample_readings = map VFloat xs /\
                chan Cpm01 avg = VFloat (fmean xs)) /\
    identity_fields avg
    = identity_fields (set_wifi (create_test_reading 15000000) VNone).
Proof.
  destruct (compute_avg_mean sample_readings) as (avg & Havg & Hc & Hid).
  - discriminate.
  - repeat constructor.
  - exists avg. split; [exact Havg|]. split; [|split].
    + apply (Hc Cwifi). right. left. reflexivity.
    + apply (Hc Cpm01). repeat constructor; discriminate.
    + apply (Hid (create_test_reading 0)).
Defined.

(** [test_compute_avg]: with ints in the channels as the test writes
    them, wifi -71 and -72 average to -71.5 and pm01Standard 340 and 346
    to 343; the timestamp and the identity are those of the second
    reading. *)
Example test_compute_avg :
  let reading1 :=
    set_wifi (create_test_reading 0) (VInt (-71)) in
  let reading2 :=
    set_wifi (create_test_reading 15000000) (VInt (-72)) in
  exists avg,
    compute_avg [reading1; reading2] = Ok avg /\
    wifi avg = VFloat (-71.5) /\
    measurementTime avg = VDatetime 15000000 /\
    identity_fields avg = identity_fields reading2.
Proof.
  eexists. split; [vm_compute; reflexivity|].
  split; [reflexivity|]. split; reflexivity.
Qed.

(** ** C6 *)

(** C6. [compute_avg] applied to the empty list fails: [readings[0]]
    raises, and no reading is returned. The exception is Python's
    [IndexError]; the program has no exception class of its own for the
    empty aggregation. *)
Theorem compute_avg_empty : compute_avg [] = Err IndexError.
Proof. reflexivity. Qed.

(** ** compute_avg on the heap *)

Lemma load_reading_insert_ne (h : gmap positive obj) (l k : positive) (o : obj) :
  l <> k -> load_reading (<[k := o]> h) l = load_reading h l.
Proof. intros Hne. unfold load_reading. rewrite lookup_insert_ne; [reflexivity | congruence]. Qed.

Lemma map_result_load_insert (items : list positive) :
  forall (h : gmap positive obj) (k : positive) (o : obj),
  k ∉ items ->
  map_result (load_reading (<[k := o]> h)) items = map_result (load_reading h) items.
Proof.
  induction items as [|l items IH]; intros h k o Hk; [reflexivity|].
  simpl. rewrite load_reading_insert_ne by (intros ->; apply Hk; left).
  rewrite IH; [reflexivity|]. intros Hin. apply Hk. right. exact Hin.
Qed.

Lemma map_result_load_dom (items : list positive) :
  forall (h : gmap positive obj) (rs : list Reading),
  map_result (load_reading h) items = Ok rs ->
  forall l, l ∈ items -> l ∈ dom h.
Proof.
  induction items as [|k items IH]; intros h rs H l Hl.
  - inversion Hl.
  - simpl in H.
    apply bind_ok in H as (r & Hr & H).
    apply bind_ok in H as (rs' & Hrs' & H).
    apply elem_of_cons in Hl as [-> | Hl].
    + unfold load_reading in Hr. apply elem_of_dom.
      destruct (h !! k); [eauto | discriminate].
    + eapply IH; eassumption.
Qed.

(** The loop on the heap computes what the loop on values computes,
    and writes only to [summed_reading]. *)
Lemma sum_loop_spec (rest : list positive) :
  forall (h : gmap positive obj) (summed_reading : positive)
         (s s' : Reading) (rs : list Reading),
  h !! summed_reading = Some (OReading s) ->
  summed_reading ∉ rest ->
  map_result (load_reading h) rest = Ok rs ->
  sum_readings s rs = Ok s' ->
  sum_loop h summed_reading rest = Ok (<[summed_reading := OReading s']> h).
Proof.
  induction rest as [|l rest IH]; intros h sl s s' rs Hs Hnot Hload Hsum.
  - simpl in Hload. injection Hload as <-. simpl in Hsum. injection Hsum as <-.
    simpl. rewrite insert_id; [reflexivity | exact Hs].
  - simpl in Hload.
    apply bind_ok in Hload as (r & Hr & Hload).
    apply bind_ok in Hload as (rs' & Hrs' & Hload). injection Hload as <-.
    simpl in Hsum. apply bind_ok in Hsum as (s1 & Hs1 & Hsum).
    simpl. unfold load_reading at 1. rewrite Hs. simpl.
    rewrite Hr. simpl. rewrite Hs1. simpl.
    rewrite (IH _ sl s1 s' rs').
    + rewrite insert_insert_eq. reflexivity.
    + apply lookup_insert_eq.
    + intros Hin. apply Hnot. right. exact Hin.
    + rewrite map_result_load_insert; [exact Hrs'|].
      intros Hin. apply Hnot. right. exact Hin.
    + exact Hsum.
Qed.
Lemma map_result_length {A B} (f : A -> result B) (l : list A) :
  forall l', map_result f l = Ok l' -> length l' = length l.
Proof.
  induction l as [|x l IH]; intros l' H; simpl in H.
  - injection H as <-. reflexivity.
  - apply bind_ok in H as (y & Hy & H).
    apply bind_ok in H as (ys & Hys & H).
    injection H as <-. simpl. f_equal. apply IH, Hys.
Qed.

(** ** C10 *)

(** C10. For every non-empty list of readings, [compute_avg] returns a
    reading it has just built and leaves its input as it was: the result
    is at a reference that was free before the call, and every object of
    the heap before the call, the list and each of its readings among
    them, is the same after it. The reading returned is the one that
    [compute_avg] computes on the values. *)
Theorem compute_avg_heap_frame (h : gmap positive obj) (readings : positive)
    (rs : list Reading) :
  deref_list h readings = Ok rs ->
  rs <> [] ->
  Forall (fun r => channels_typed r = true) rs ->
  exists avg h' a,
    compute_avg_heap h readings = Ok (avg, h') /\
    compute_avg rs = Ok a /\
    h !! avg = None /\
    h' !! avg = Some (OReading a) /\
    (forall l, l ∈ dom h -> h' !! l = h !! l).
Proof.
  intros Hderef Hne Ht.
  destruct (compute_avg_total rs Hne Ht) as (a & Ha).
  unfold deref_list in Hderef. apply bind_ok in Hderef as (items & Hitems & Hload).
  destruct rs as [|r0 rs']; [congruence|]. clear Hne.
  destruct items as [|first rest]; [discriminate|].
  pose proof (map_result_length _ _ _ Hload) as Hlen.
  pose proof (map_result_load_dom _ _ _ Hload) as Hdom.
  simpl in Hload. apply bind_ok in Hload as (r0' & Hfirst & Hload).
  apply bind_ok in Hload as (rs'' & Hrest & Heq). injection Heq as -> ->.
  unfold compute_avg in Ha. apply bind_ok in Ha as (summed & Hsummed & Hdiv).
  unfold compute_avg_heap. rewrite Hitems. cbn [bind]. rewrite Hfirst. cbn [bind].
  unfold alloc.
  set (s := fresh (dom h)).
  set (h1 := <[s := OReading r0]> h).
  set (t := fresh (dom h1)).
  set (h2 := <[t := OList rest]> h1).
  assert (Hs : s ∉ dom h) by apply is_fresh.
  assert (Ht1 : t ∉ dom h1) by apply is_fresh.
  assert (Hts : t <> s).
  { intros E. apply Ht1. rewrite E. unfold h1. rewrite dom_insert_L. set_solver. }
  assert (Hsr : s ∉ rest).
  { intros Hin. apply Hs, Hdom. right. exact Hin. }
  assert (Htr : t ∉ rest).
  { intros Hin. apply Ht1. unfold h1. rewrite dom_insert_L.
    apply elem_of_union_r, Hdom. right. exact Hin. }
  rewrite (sum_loop_spec rest h2 s r0 summed rs').
  - cbn [bind].
    set (h3 := <[s := OReading summed]> h2).
    assert (Hl3 : load_reading h3 s = Ok summed).
    { unfold load_reading, h3. rewrite lookup_insert_eq. reflexivity. }
    rewrite Hl3. cbn [bind].
    set (avg := fresh (dom h3)).
    assert (Havg : avg ∉ dom h3) by apply is_fresh.
    rewrite Hlen in Hdiv. rewrite Hdiv. cbn [bind].
    assert (Hsub : forall l, l ∈ dom h -> l ∈ dom h3).
    { intros l Hl. unfold h3, h2, h1. rewrite !dom_insert_L. set_solver. }
    exists avg, (<[avg := OReading a]> (<[avg := OReading summed]> h3)), a.
    split; [reflexivity|]. split.
    { unfold compute_avg. rewrite Hsummed. cbn [bind]. rewrite Hlen. exact Hdiv. }
    split; [|split].
    + apply not_elem_of_dom. intros Hin. apply Havg, Hsub, Hin.
    + apply lookup_insert_eq.
    + intros l Hl.
      assert (l <> avg) by (intros ->; apply Havg, Hsub, Hl).
      assert (l <> s) by (intros ->; apply Hs, Hl).
      assert (l <> t).
      { intros ->. apply Ht1. unfold h1. rewrite dom_insert_L. set_solver. }
      unfold h3, h2, h1.
      rewrite !lookup_insert_ne by congruence. reflexivity.
  - unfold h2, h1. rewrite lookup_insert_ne by exact Hts.
    apply lookup_insert_eq.
  - exact Hsr.
  - unfold h2, h1. rewrite !map_result_load_insert by assumption. exact Hrest.
  - exact Hsummed.
Qed.
Lemma compute_avg_heap_frame_witness :
  exists avg h' a,
    compute_avg_heap sample_heap 3 = Ok (avg, h') /\
    compute_avg sample_readings = Ok a /\
    sample_heap !! avg = None /\
    h' !! avg = Some (OReading a) /\
    (forall l, l ∈ dom sample_heap -> h' !! l = sample_heap !! l).
Proof.
  apply (compute_avg_heap_frame sample_heap 3 sample_readings).
  - vm_compute. reflexivity.
  - discriminate.
  - repeat constructor.
Defined.

(** ** is_sane *)

Lemma present_not_str (v : pyval) :
  str_or_none v = true -> present_not isinstance_str v = false.
Proof. destruct v; simpl; try discriminate; reflexivity. Qed.

Lemma present_not_int (v : pyval) :
  int_or_none v = true -> present_not isinstance_int v = false.
Proof. destruct v; simpl; try discriminate; reflexivity. Qed.

Lemma present_not_float (v : pyval) :
  float_or_none v = true -> present_not isinstance_float v = false.
Proof. destruct v; simpl; try discriminate; reflexivity. Qed.

Ltac sane_chan Hc c :=
  let E := fresh "E" in
  pose proof (present_not_float _ (Hc c)) as E; cbn [chan] in E;
  rewrite E; clear E.

(** ** C8 *)




(** ** parse_response *)

(** A JSON null decodes to an absent field. *)
Lemma float_field_null (j : pyval) (key : string) :
  getitem j key = Ok VNone -> float_field j key = Ok VNone.
Proof. intros H. unfold float_field. rewrite H. reflexivity. Qed.

(** A key that the payload lacks raises. *)
Lemma float_field_missing (items : list (string * pyval)) (key : string) :
  assoc key items = None -> float_field (VDict items) key = Err (KeyError key).
Proof. intros H. unfold float_field, getitem. rewrite H. reflexivity. Qed.

Lemma float_field_ok (j : pyval) (key : string) (v : pyval) :
  float_field j key = Ok v -> exists v', getitem j key = Ok v'.
Proof. unfold float_field. intros H. inv_bind H. eauto. Qed.

(** A reading is returned only when the payload has every key. *)
Lemma parse_response_ok_keys (j : pyval) (now : Z) (r : Reading) :
  parse_response (Ok j) now = Ok r ->
  forall key, key ∈ response_keys -> exists v, getitem j key = Ok v.
Proof.
  unfold parse_response. cbn [bind]. intros H.
  repeat inv_bind H.
  repeat match goal with
  | H : float_field _ _ = Ok _ |- _ => apply float_field_ok in H
  end.
  intros key Hkey. unfold response_keys in Hkey.
  repeat (apply elem_of_cons in Hkey as [-> | Hkey]; [eauto; fail|]).
  inversion Hkey.
Qed.

(** A payload that leaves a key out is refused, whatever the key. *)
Lemma parse_response_missing_key (items : list (string * pyval)) (now : Z)
    (key : string) :
  key ∈ response_keys ->
  assoc key items = None ->
  exists e, parse_response (Ok (VDict items)) now = Err e.
Proof.
  intros Hkey Hmiss.
  destruct (parse_response (Ok (VDict items)) now) as [r|e] eqn:E; [|eauto].
  destruct (parse_response_ok_keys _ _ _ E key Hkey) as [v Hv].
  unfold getitem in Hv. rewrite Hmiss in Hv. discriminate.
Qed.

Example parse_response_null :
  exists r, parse_response (Ok sample_one_null_rco2) 0 = Ok r /\
            rco2 r = VNone /\ wifi r = VFloat (-72).
Proof. eexists. split; [vm_compute; reflexivity | split; reflexivity]. Qed.

(** ** C7 *)

(** C7, at the payload an outdoor monitor sends. The payload is well
    formed and has its serialno; it leaves out pm50Count. The decoder
    does not return a reading with pm50Count absent: it raises
    [KeyError], whatever the clock. *)
Theorem parse_response_open_air (now : Z) :
  getitem sample_open_air "serialno" = Ok (VStr "000000000000") /\
  getitem sample_open_air "pm50Count" = Err (KeyError "pm50Count") /\
  parse_response (Ok sample_open_air) now = Err (KeyError "pm50Count").
Proof. split; [|split]; vm_compute; reflexivity. Qed.

Section StoreRows.

Context `{sqlite_impl : !Sqlite}.

(** ** The store *)

Lemma insert_row_of_fields (rt : Z) (r : Reading) (row : Row) :
  insert_row_of rt r = Ok row ->
  record_type row = rt /\ measurementTime r = VDatetime (row_timestamp row).
Proof.
  unfold insert_row_of. intros H.
  destruct (measurementTime r); try discriminate.
  simpl in H. inv_bind H. injection H as <-. split; reflexivity.
Qed.

Lemma same_key_spec (a b : Row) : same_key a b = true <-> key_of a = key_of b.
Proof.
  unfold same_key, key_of. rewrite andb_true_iff, !Z.eqb_eq.
  split; [intros [-> ->]; reflexivity | intros [= -> ->]; split; reflexivity].
Qed.

Lemma insert_row_ok (row : Row) (db : list Row) :
  (forall x, x ∈ db -> key_of x <> key_of row) ->
  insert_row row db = Ok (db ++ [row]).
Proof.
  intros H. unfold insert_row.
  destruct (existsb (same_key row) db) eqn:E; [|reflexivity].
  apply existsb_exists in E as (x & Hx & Hk).
  apply same_key_spec in Hk. exfalso.
  apply (H x); [apply list_elem_of_In, Hx | congruence].
Qed.

Lemma insert_row_dup (row : Row) (db : list Row) :
  (exists x, x ∈ db /\ key_of x = key_of row) ->
  insert_row row db = Err IntegrityError.
Proof.
  intros (x & Hx & Hk). unfold insert_row.
  replace (existsb (same_key row) db) with true; [reflexivity|].
  symmetry. apply existsb_exists. exists x.
  split; [apply list_elem_of_In, Hx | apply same_key_spec; congruence].
Qed.

Lemma insert_row_inv (row : Row) (db db' : list Row) :
  insert_row row db = Ok db' ->
  db' = db ++ [row] /\ forall x, x ∈ db -> key_of x <> key_of row.
Proof.
  unfold insert_row. intros H.
  destruct (existsb (same_key row) db) eqn:E; [discriminate|].
  injection H as <-. split; [reflexivity|].
  intros x Hx Hk.
  assert (existsb (same_key row) db = true); [|congruence].
  apply existsb_exists. exists x.
  split; [apply list_elem_of_In, Hx | apply same_key_spec; congruence].
Qed.

Lemma rows_of_delete (rt : Z) (db : list Row) :
  rows_of rt (delete_record_type rt db) = [].
Proof.
  unfold rows_of, delete_record_type. rewrite list_filter_filter.
  induction db as [|x db IH]; [reflexivity|].
  rewrite filter_cons_False; [exact IH | tauto].
Qed.

Lemma rows_of_delete_ne (rt rt' : Z) (db : list Row) :
  rt <> rt' -> rows_of rt (delete_record_type rt' db) = rows_of rt db.
Proof.
  intros Hne. unfold rows_of, delete_record_type. rewrite list_filter_filter.
  apply list_filter_iff. intros x. split; [tauto | intros ->; tauto].
Qed.

(** What a save of the given kind does to the table. *)
Lemma save_replacing (rt : Z) (r : Reading) (db db' : list Row) :
  rt = RecordType.CURRENT \/ rt = RecordType.TWO_MINUTE ->
  save_reading rt r db = Ok db' <->
  exists row, insert_row_of rt r = Ok row /\
              db' = delete_record_type rt db ++ [row].
Proof.
  intros Hrt. unfold save_reading.
  assert (Hdb : (if rt =? RecordType.TWO_MINUTE
                 then delete_record_type RecordType.TWO_MINUTE
                        (if rt =? RecordType.CURRENT
                         then delete_record_type RecordType.CURRENT db else db)
                 else (if rt =? RecordType.CURRENT
                       then delete_record_type RecordType.CURRENT db else db))
                = delete_record_type rt db).
  { destruct Hrt as [-> | ->]; reflexivity. }
  rewrite Hdb. clear Hdb.
  split.
  - intros H. inv_bind H. exists a. split; [exact Ha|].
    apply insert_row_inv in H as [-> _]. reflexivity.
  - intros (row & Hrow & ->). rewrite Hrow. simpl.
    apply insert_row_ok. intros x Hx Hk.
    apply list_elem_of_filter in Hx as [Hx _].
    apply insert_row_of_fields in Hrow as [Hrow _].
    unfold key_of in Hk. injection Hk as Hk _. congruence.
Qed.

Lemma save_archive_inv (r : Reading) (db db' : list Row) :
  save_archive_reading r db = Ok db' <->
  exists row, insert_row_of RecordType.ARCHIVE r = Ok row /\
              db' = db ++ [row] /\
              forall x, x ∈ db -> key_of x <> key_of row.
Proof.
  unfold save_archive_reading, save_reading. simpl. split.
  - intros H. inv_bind H. exists a. split; [exact Ha|].
    apply insert_row_inv, H.
  - intros (row & -> & -> & Hk). simpl. apply insert_row_ok, Hk.
Qed.

(** After a save of the current reading, or of the two minute reading,
    the table holds exactly one row of that record type, the row of the
    reading saved; the rows of the other types are as they were. *)
Lemma save_replacing_rows (rt : Z) (r : Reading) (db db' : list Row) :
  rt = RecordType.CURRENT \/ rt = RecordType.TWO_MINUTE ->
  save_reading rt r db = Ok db' ->
  exists row, insert_row_of rt r = Ok row /\
              rows_of rt db' = [row] /\
              forall rt', rt' <> rt -> rows_of rt' db' = rows_of rt' db.
Proof.
  intros Hrt H. apply (save_replacing rt r db db' Hrt) in H as (row & Hrow & ->).
  exists row. split; [exact Hrow|].
  pose proof (insert_row_of_fields _ _ _ Hrow) as [Hty _].
  split.
  - unfold rows_of at 1. rewrite filter_app. fold (rows_of rt (delete_record_type rt db)).
    rewrite rows_of_delete. simpl.
    rewrite filter_cons_True by exact Hty. reflexivity.
  - intros rt' Hne. unfold rows_of at 1. rewrite filter_app.
    fold (rows_of rt' (delete_record_type rt db)).
    rewrite rows_of_delete_ne by exact Hne.
    rewrite filter_cons_False by congruence.
    rewrite filter_nil. apply app_nil_r.
Qed.

(** The SELECT, from the rows of the record type. *)
Lemma select_rows_rows_of (rt since_ts : Z) (db : list Row) :
  select_rows rt since_ts None None db
  = merge_sort ts_le
      (filter (fun row => since_ts * 1000000 < row_timestamp row) (rows_of rt db)).
Proof.
  unfold select_rows, rows_of. f_equal.
  rewrite list_filter_filter. apply list_filter_iff. intros x. tauto.
Qed.

(** What [fetch_readings] returns for a record type that has one row. *)
Lemma fetch_single (rt : Z) (row : Row) (db : list Row) :
  rows_of rt db = [row] ->
  0 < row_timestamp row ->
  fetch_readings rt 0 None None db = [create_reading_from_row row].
Proof.
  intros Hrows Hts. unfold fetch_readings.
  rewrite select_rows_rows_of, Hrows.
  rewrite filter_cons_True by (simpl; lia). reflexivity.
Qed.

(** [n >= 1] saves of the current reading in a row leave one CURRENT
    row, the row of the last reading saved. *)
Lemma save_current_n (rs : list Reading) :
  forall db db' d,
  rs <> [] ->
  save_all save_current_reading rs db = Ok db' ->
  exists row,
    insert_row_of RecordType.CURRENT (List.last rs d) = Ok row /\
    rows_of RecordType.CURRENT db' = [row] /\
    (0 < row_timestamp row ->
     fetch_current_readings db' = [create_reading_from_row row]).
Proof.
  induction rs as [|r rs IH]; intros db db' d Hne H; [congruence|].
  simpl in H. inv_bind H.
  destruct rs as [|r' rs].
  - simpl in H. injection H as <-.
    destruct (save_replacing_rows RecordType.CURRENT r db a) as (row & Hrow & Hone & _);
      [left; reflexivity | exact Ha |].
    exists row. split; [exact Hrow|]. split; [exact Hone|].
    intros Hts. apply fetch_single; assumption.
  - rewrite !last_cons. rewrite <- (last_cons rs r' d).
    apply (IH a db' d); [discriminate | exact H].
Qed.

(** The same for the two minute reading. *)
Lemma save_two_minute_n (rs : list Reading) :
  forall db db' d,
  rs <> [] ->
  save_all save_two_minute_reading rs db = Ok db' ->
  exists row,
    insert_row_of RecordType.TWO_MINUTE (List.last rs d) = Ok row /\
    rows_of RecordType.TWO_MINUTE db' = [row].
Proof.
  induction rs as [|r rs IH]; intros db db' d Hne H; [congruence|].
  simpl in H. inv_bind H.
  destruct rs as [|r' rs].
  - simpl in H. injection H as <-.
    destruct (save_replacing_rows RecordType.TWO_MINUTE r db a)
      as (row & Hrow & Hone & _); [right; reflexivity | exact Ha |].
    exists row. split; [exact Hrow | exact Hone].
  - rewrite !last_cons. rewrite <- (last_cons rs r' d).
    apply (IH a db' d); [discriminate | exact H].
Qed.

(** ** C2 *)

(** C2, at a reading with an absent channel. After the save there is
    exactly one CURRENT row; but the INSERT is written with
    ['%r' % 'NULL'], a quoted text, so the row holds the text NULL where
    the reading had nothing, and [fetch_current_readings] does not
    return the reading saved: its wifi is the str ['NULL']. *)
Theorem save_current_absent_channel :
  let r := set_wifi (create_test_reading 15000000) VNone in
  exists db out,
    save_current_reading r [] = Ok db /\
    length (rows_of RecordType.CURRENT db) = 1%nat /\
    fetch_current_readings db = [out] /\
    wifi r = VNone /\
    wifi out = VStr "NULL" /\
    out <> r.
Proof.
  intros r. eexists. eexists.
  split; [vm_compute; reflexivity|].
  split; [vm_compute; reflexivity|].
  split; [vm_compute; reflexivity|].
  split; [reflexivity|]. split; [reflexivity|].
  intros E. apply (f_equal wifi) in E. discriminate.
Qed.

(** ** The order of a fetch *)

Lemma ts_le_trans : Transitive ts_le.
Proof. intros a b c. unfold ts_le. lia. Qed.

Lemma ts_le_total : Total ts_le.
Proof. intros a b. unfold ts_le. lia. Qed.

Lemma select_rows_sorted (rt since_ts : Z) (db : list Row) :
  StronglySorted ts_le (select_rows rt since_ts None None db).
Proof.
  unfold select_rows.
  apply (@StronglySorted_merge_sort _ ts_le _ ts_le_trans ts_le_total).
Qed.

Lemma select_rows_elem (rt since_ts : Z) (db : list Row) (row : Row) :
  row ∈ select_rows rt since_ts None None db <->
  row ∈ db /\ record_type row = rt /\ since_ts * 1000000 < row_timestamp row.
Proof.
  unfold select_rows. rewrite merge_sort_Permutation, list_elem_of_filter. tauto.
Qed.

End StoreRows.

(** [test_db_current_records]: two saves, then the fetch gives the
    second reading and nothing else (with an SQLite that reads the floats
    of the sample back as they were written). *)
Example test_db_current_records :
  (db <- save_current_reading (create_test_reading 1000000) [] ;;
   db <- save_current_reading (create_test_reading 2000000) db ;;
   Ok (fetch_current_readings db))
  = Ok [create_test_reading 2000000].
Proof. vm_compute. reflexivity. Qed.

Section PrimaryKey.

Context `{sqlite_impl : !Sqlite}.

(** ** The primary key *)

Lemma keys_unique_delete (rt : Z) (db : list Row) :
  keys_unique db -> keys_unique (delete_record_type rt db).
Proof.
  unfold keys_unique, delete_record_type.
  induction db as [|x db IH]; intros H; [constructor|].
  simpl in H. apply NoDup_cons in H as [Hx Hdb].
  destruct (decide (record_type x <> rt)) as [Hk | Hk].
  - rewrite filter_cons_True by exact Hk. simpl. apply NoDup_cons. split.
    + intros Hin. apply Hx.
      apply list_elem_of_In, in_map_iff in Hin as (y & Hy & Hin).
      apply list_elem_of_In, in_map_iff. exists y. split; [exact Hy|].
      apply list_elem_of_In. apply list_elem_of_In in Hin.
      apply list_elem_of_filter in Hin as [_ Hin]. exact Hin.
    + apply IH, Hdb.
  - rewrite filter_cons_False by exact Hk. apply IH, Hdb.
Qed.

Lemma keys_unique_insert (row : Row) (db db' : list Row) :
  keys_unique db -> insert_row row db = Ok db' -> keys_unique db'.
Proof.
  unfold keys_unique. intros Hdb H.
  apply insert_row_inv in H as [-> Hfresh].
  rewrite map_app. apply NoDup_app. split; [exact Hdb|]. split.
  - intros k Hk Hin. simpl in Hin. apply list_elem_of_singleton in Hin as ->.
    apply list_elem_of_In, in_map_iff in Hk as (y & Hy & Hk).
    apply (Hfresh y); [apply list_elem_of_In, Hk | exact Hy].
  - simpl. apply NoDup_singleton.
Qed.

(** Every save keeps the primary key: no two rows of the table share
    record type and timestamp. *)
Lemma save_reading_keys (rt : Z) (r : Reading) (db db' : list Row) :
  keys_unique db -> save_reading rt r db = Ok db' -> keys_unique db'.
Proof.
  intros Hdb H. unfold save_reading in H. inv_bind H.
  eapply keys_unique_insert; [|exact H].
  destruct (rt =? RecordType.TWO_MINUTE), (rt =? RecordType.CURRENT);
    repeat apply keys_unique_delete; exact Hdb.
Qed.

End PrimaryKey.

Section RoundTrip.

Context `{sqlite_impl : !Sqlite}.

(** ** A reading with every field present comes back as SQLite read it *)

Lemma insert_value_storable (a : affinity) (v : pyval) :
  storable_as a v = true ->
  exists sv, insert_value (a, v) = Ok sv /\ py_of_sql sv = real_back v.
Proof.
  unfold storable_as, insert_value. cbn [fst snd].
  destruct a, v; try discriminate; cbn [sql_arg is_none negb];
    destruct (sql_literal _) as [lit|] eqn:E; try discriminate; intros _;
    cbn [bind].
  - simpl in E. destruct (_ && _); [|discriminate]. injection E as <-.
    eexists. split; reflexivity.
  - simpl in E. destruct (negb _); [discriminate|]. injection E as <-.
    eexists. split; reflexivity.
  - simpl in E. destruct (_ && _); [|discriminate]. injection E as <-.
    eexists. split; reflexivity.
Qed.

Lemma map_result_storable (l : list (affinity * pyval)) :
  forallb (fun av => storable_as (fst av) (snd av)) l = true ->
  exists vs, map_result insert_value l = Ok vs /\
             map py_of_sql vs = map real_back (map snd l).
Proof.
  induction l as [|[a v] l IH]; intros H; simpl in *.
  - exists []. split; reflexivity.
  - apply andb_prop in H as [Hv Hl].
    destruct (insert_value_storable a v Hv) as (sv & Hsv & Hpy).
    destruct (IH Hl) as (vs & Hvs & Hmap).
    exists (sv :: vs). rewrite Hsv. cbn [bind]. rewrite Hvs. cbn [bind].
    split; [reflexivity|]. simpl. congruence.
Qed.

(** The row of a storable reading decodes to the reading as it comes
    back. *)
Lemma insert_row_of_storable (rt t : Z) (r : Reading) :
  storable r = true ->
  measurementTime r = VDatetime t ->
  exists row,
    insert_row_of rt r = Ok row /\
    record_type row = rt /\ row_timestamp row = t /\
    create_reading_from_row row = read_back r.
Proof.
  intros Hs Ht. unfold storable in Hs.
  destruct (map_result_storable _ Hs) as (vs & Hvs & Hmap).
  unfold insert_row_of. rewrite Ht. cbn [bind]. rewrite Hvs. cbn [bind].
  eexists. split; [reflexivity|]. split; [reflexivity|]. split; [reflexivity|].
  clear Hs Hvs.
  unfold reading_fields, column_affinities in Hmap. simpl in Hmap.
  do 29 (destruct vs as [|? vs]; [discriminate|]).
  destruct vs; [|discriminate].
  injection Hmap. intros.
  unfold create_reading_from_row, row_col. cbn [row_timestamp row_values nth Nat.sub].
  repeat match goal with
  | H : py_of_sql _ = _ |- _ => rewrite H; clear H
  end.
  unfold read_back. rewrite Ht. reflexivity.
Qed.

(** A save of the current reading, then the fetch: the reading saved as
    it comes back, when it is storable and later than the epoch. *)
Lemma save_current_fetch (r : Reading) (t : Z) (db : list Row) :
  storable r = true ->
  measurementTime r = VDatetime t ->
  0 < t ->
  exists db',
    save_current_reading r db = Ok db' /\
    fetch_current_readings db' = [read_back r].
Proof.
  intros Hs Ht Hpos.
  destruct (insert_row_of_storable RecordType.CURRENT t r Hs Ht)
    as (row & Hrow & Hty & Hts & Hback).
  exists (delete_record_type RecordType.CURRENT db ++ [row]).
  assert (Hsave : save_current_reading r db
                  = Ok (delete_record_type RecordType.CURRENT db ++ [row])).
  { apply save_replacing; [left; reflexivity|]. exists row. split; [exact Hrow | reflexivity]. }
  split; [exact Hsave|].
  destruct (save_replacing_rows RecordType.CURRENT r db _ (or_introl eq_refl) Hsave)
    as (row' & Hrow' & Hone & _).
  rewrite Hrow in Hrow'. injection Hrow' as <-.
  unfold fetch_current_readings. rewrite (fetch_single _ row); [|exact Hone | lia].
  rewrite Hback. reflexivity.
Qed.

Example create_test_reading_storable (t : Z) :
  storable (create_test_reading t) = true.
Proof. reflexivity. Qed.

End RoundTrip.

Section AbsentFields.

Context `{sqlite_impl : !Sqlite}.

(** ** An absent field in the store *)

(** Whatever the column, an absent field is written as the text NULL. *)
Lemma insert_value_absent (a : affinity) :
  insert_value (a, VNone) = Ok (SText "NULL").
Proof. destruct a; reflexivity. Qed.

Lemma map_result_lookup {A B} (f : A -> result B) (l : list A) :
  forall vs i x,
  map_result f l = Ok vs -> l !! i = Some x ->
  exists y, vs !! i = Some y /\ f x = Ok y.
Proof.
  induction l as [|a l IH]; intros vs i x H Hi; [discriminate|].
  simpl in H. inv_bind H. inv_bind H. injection H as <-.
  destruct i as [|i]; simpl in *.
  - injection Hi as <-. eauto.
  - eapply IH; eassumption.
Qed.

Lemma fields_of_row (row : Row) :
  length (row_values row) = 29%nat ->
  reading_fields (create_reading_from_row row) = map py_of_sql (row_values row).
Proof.
  destruct row as [rt ts vs]. cbn [row_values]. intros Hlen.
  do 29 (destruct vs as [|? vs]; [discriminate|]).
  destruct vs; [|discriminate]. reflexivity.
Qed.

Lemma insert_row_of_length (rt : Z) (r : Reading) (row : Row) :
  insert_row_of rt r = Ok row -> length (row_values row) = 29%nat.
Proof.
  unfold insert_row_of. intros H.
  apply bind_ok in H as (stamp & Hstamp & H).
  apply bind_ok in H as (values & Hvalues & H). injection H as <-.
  cbn [row_values]. rewrite (map_result_length _ _ _ Hvalues). reflexivity.
Qed.

(** Every save of a current reading that lacks a field puts the text
    NULL in its place, and the fetch returns it as a str. *)
Lemma save_current_absent (r : Reading) (t : Z) (db db' : list Row) (i : nat) :
  measurementTime r = VDatetime t ->
  0 < t ->
  reading_fields r !! i = Some VNone ->
  save_current_reading r db = Ok db' ->
  exists out,
    fetch_current_readings db' = [out] /\
    reading_fields out !! i = Some (VStr "NULL").
Proof.
  intros Ht Hpos Hi Hsave.
  destruct (save_replacing_rows RecordType.CURRENT r db db' (or_introl eq_refl) Hsave)
    as (row & Hrow & Hone & _).
  destruct (insert_row_of_fields _ _ _ Hrow) as [_ Hts].
  rewrite Ht in Hts. injection Hts as Hts.
  exists (create_reading_from_row row). split.
  - apply fetch_single; [exact Hone | lia].
  - rewrite fields_of_row by (eapply insert_row_of_length; exact Hrow).
    unfold insert_row_of in Hrow. rewrite Ht in Hrow. cbn [bind] in Hrow.
    inv_bind Hrow. injection Hrow as <-. cbn [row_values].
    assert (Hlen : (i < 29)%nat).
    { apply lookup_lt_Some in Hi. exact Hi. }
    destruct (lookup_lt_is_Some_2 column_affinities i) as [af Haf];
      [exact Hlen|].
    destruct (map_result_lookup _ _ _ i (af, VNone) Ha) as (y & Hy & Hf).
    { apply lookup_zip_with_Some. exists af, VNone. auto. }
    rewrite insert_value_absent in Hf. injection Hf as <-.
    match goal with |- map ?f ?l !! _ = _ => change (map f l) with (f <$> l) end.
    rewrite list_lookup_fmap, Hy. reflexivity.
Qed.

End AbsentFields.

(** ** compute_next_event *)

(** On a time that is not negative, [int(now / n)] is the floor of the
    quotient of the whole seconds. *)
Lemma Qtrunc_div (now : Q) (n : Z) :
  (0 <= now)%Q -> 0 < n ->
  Qdiv_int now n = Ok (now / inject_Z n)%Q /\
  Qtrunc (now / inject_Z n) = Qfloor now / n.
Proof.
  intros Hnow Hn. split.
  - unfold Qdiv_int. destruct (Z.eqb_spec n 0); [lia | reflexivity].
  - destruct now as [num den]. destruct n as [|p|p]; try lia.
    unfold Qle in Hnow. simpl in Hnow.
    unfold Qtrunc, Qdiv, Qmult, Qinv, inject_Z, Qfloor. simpl.
    rewrite Z.mul_1_r, Z.quot_div_nonneg by lia.
    rewrite Pos2Z.inj_mul, Z.div_div by lia. reflexivity.
Qed.

(** ** C3 *)

(** C3, at the boundary. Called at 300 seconds, a time divisible by
    300, [compute_next_event] answers POLL and not ARCHIVE: the next poll
    is at 330 and the next archive boundary at 600. Called at 270, a time
    divisible by 30 and not by 300, it answers ARCHIVE and not POLL. *)
Lemma compute_next_event_at_boundary :
  (300 | 300) /\
  (exists secs,
     compute_next_event (mkService 30 0 300) false (inject_Z 300)
     = Ok (POLL, secs)) /\
  (30 | 270) /\ ~ (300 | 270) /\
  (exists secs,
     compute_next_event (mkService 30 0 300) false (inject_Z 270)
     = Ok (ARCHIVE, secs)).
Proof.
  split; [exists 1; reflexivity|].
  split; [eexists; vm_compute; reflexivity|].
  split; [exists 9; reflexivity|].
  split; [intros [z Hz]; lia|].
  eexists; vm_compute; reflexivity.
Qed.

(** C3, amended. With a poll interval of 30 seconds and an archive
    interval of 300, [compute_next_event] called at a time [now] computes
    nextPoll = floor(now/30)*30 + 30 and nextArchive = floor(now/300)*300
    + 300 and answers ARCHIVE exactly when they coincide, that is exactly
    when the next poll falls on a multiple of 300; the wait is nextPoll -
    now + offset. It classifies the wake to come: called at a time whose
    whole seconds are divisible by 300 it answers POLL. *)
Theorem compute_next_event_spec (first_time : bool) (offset : Z) (now : Q) :
  (0 <= now)%Q ->
  let next_poll := Qfloor now / 30 * 30 + 30 in
  let next_archive := Qfloor now / 300 * 300 + 300 in
  exists event secs,
    compute_next_event (mkService 30 offset 300) first_time now
    = Ok (event, secs) /\
    secs = (inject_Z next_poll - now + inject_Z offset)%Q /\
    (event = ARCHIVE <-> next_poll = next_archive) /\
    (event = ARCHIVE <-> (300 | next_poll)) /\
    ((300 | Qfloor now) -> event = POLL).
Proof.
  intros Hnow next_poll next_archive.
  destruct (Qtrunc_div now 30 Hnow) as [Hd30 Ht30]; [lia|].
  destruct (Qtrunc_div now 300 Hnow) as [Hd300 Ht300]; [lia|].
  unfold compute_next_event. cbn [pollfreq_secs arcint_secs pollfreq_offset].
  rewrite Hd30. cbn [bind]. rewrite Hd300. cbn [bind].
  rewrite Ht30, Ht300. fold next_poll next_archive.
  assert (Hs : 0 <= Qfloor now).
  { rewrite <- (Qfloor_Z 0). apply Qfloor_resp_le, Hnow. }
  assert (Hiff : next_poll = next_archive <-> (300 | next_poll)).
  { unfold next_poll, next_archive. split.
    - intros ->. exists (Qfloor now / 300 + 1). ring.
    - intros [z Hz]. 
      pose proof (Z.div_mod (Qfloor now) 30 ltac:(lia)).
      pose proof (Z.mod_pos_bound (Qfloor now) 30 ltac:(lia)).
      pose proof (Z.div_mod (Qfloor now) 300 ltac:(lia)).
      pose proof (Z.mod_pos_bound (Qfloor now) 300 ltac:(lia)).
      lia. }
  destruct (Z.eqb_spec next_poll next_archive) as [Heq | Hneq].
  - exists ARCHIVE. eexists. split; [reflexivity|]. split; [reflexivity|].
    split; [tauto|]. split; [tauto|].
    intros [z Hz]. exfalso. unfold next_poll, next_archive in Heq.
    rewrite Hz in Heq. rewrite !Z.div_mul in Heq by lia.
    replace (z * 300) with (z * 10 * 30) in Heq by ring.
    rewrite Z.div_mul in Heq by lia. lia.
  - exists POLL. eexists. split; [reflexivity|]. split; [reflexivity|].
    split; [split; [discriminate | tauto]|].
    split; [split; [discriminate | tauto]|].
    reflexivity.
Qed.

Lemma compute_next_event_spec_witness :
  exists event secs,
    compute_next_event (mkService 30 0 300) false (5999 # 10)
    = Ok (event, secs) /\
    secs = (inject_Z (Qfloor (5999 # 10) / 30 * 30 + 30)
            - (5999 # 10) + inject_Z 0)%Q /\
    (event = ARCHIVE <->
     Qfloor (5999 # 10) / 30 * 30 + 30 = Qfloor (5999 # 10) / 300 * 300 + 300) /\
    (event = ARCHIVE <-> (300 | Qfloor (5999 # 10) / 30 * 30 + 30)) /\
    ((300 | Qfloor (5999 # 10)) -> event = POLL).
Proof.
  apply (compute_next_event_spec false 0 (5999 # 10)).
  unfold Qle. simpl. lia.
Defined.

Section LoopInvariant.

Context `{sqlite_impl : !Sqlite}.

(** ** The windows of the loop *)

Lemma present_not_false (f : pyval -> bool) (v : pyval) :
  present_not f v = false -> is_none v || f v = true.
Proof. unfold present_not. destruct (is_none v), (f v); simpl; congruence. Qed.

(** What [is_sane] accepts has the declared types. *)
Lemma is_sane_sound (now : Z) (r : Reading) :
  fst (is_sane now r) = true -> sane_reading r = true.
Proof.
  unfold is_sane, sane_reading. destruct (measurementTime r); try discriminate.
  cbv zeta. destruct (PrimFloat.ltb _ _); [discriminate|].
  repeat match goal with
  | |- context [if present_not ?f ?v then _ else _] =>
      let E := fresh "E" in
      destruct (present_not f v) eqn:E; [discriminate|];
      apply present_not_false in E
  end.
  intros _.
  unfold declared_types, channels_typed, str_or_none, int_or_none, float_or_none.
  cbn [forallb all_channels chan isinstance_datetime andb].
  repeat match goal with
  | H : _ || _ = true |- _ => rewrite H; clear H
  end.
  reflexivity.
Qed.

Lemma sane_reading_typed (r : Reading) :
  sane_reading r = true -> channels_typed r = true.
Proof.
  unfold sane_reading, declared_types. intros H.
  apply andb_prop in H as [_ H].
  repeat (apply andb_prop in H as [H ?]). assumption.
Qed.

Lemma Forall_sane_typed (rs : list Reading) :
  Forall (fun r => sane_reading r = true) rs ->
  Forall (fun r => channels_typed r = true) rs.
Proof. intros H. eapply Forall_impl; [exact H | exact sane_reading_typed]. Qed.

Lemma trim_sane (now : Z) (rs : list Reading) :
  forall rs', trim_two_minute_readings now rs = Ok rs' ->
  Forall (fun r => sane_reading r = true) rs ->
  Forall (fun r => sane_reading r = true) rs'.
Proof.
  induction rs as [|r rs IH]; intros rs' H Hs; simpl in H.
  - injection H as <-. constructor.
  - destruct (measurementTime r); try discriminate.
    destruct (us <? now - 120 * 1000000).
    + apply IH; [exact H | inversion Hs; assumption].
    + injection H as <-. exact Hs.
Qed.

Lemma trim_total (now : Z) (rs : list Reading) :
  Forall (fun r => sane_reading r = true) rs ->
  exists rs', trim_two_minute_readings now rs = Ok rs'.
Proof.
  induction rs as [|r rs IH]; intros Hs; simpl; [eauto|].
  inversion Hs as [|? ? Hr Hrs]; subst.
  unfold sane_reading in Hr. apply andb_prop in Hr as [Hdt _].
  destruct (measurementTime r); try discriminate.
  destruct (us <? now - 120 * 1000000); eauto.
Qed.

Lemma collect_phase_sane (c : Cycle) (st : LoopState) :
  windows_sane st -> windows_sane (collect_phase c st).
Proof.
  intros [Ha Ht]. unfold collect_phase.
  destruct (collect_data (response c) (read_now c)) as [reading|e];
    [|split; assumption].
  destruct (is_sane (sane_now c) reading) as [sane reason] eqn:E.
  destruct sane; [|split; assumption].
  assert (sane_reading reading = true).
  { apply (is_sane_sound (sane_now c)). rewrite E. reflexivity. }
  split; cbn [archive_readings two_minute_readings];
    (apply Forall_app; split; [assumption | constructor; [assumption | constructor]]).
Qed.

Lemma two_minute_phase_windows (c : Cycle) (st st' : LoopState) :
  two_minute_phase c st = Ok st' ->
  archive_readings st' = archive_readings st /\
  two_minute_readings st' = two_minute_readings st.
Proof.
  unfold two_minute_phase. destruct (two_minute_readings st) eqn:E.
  - intros [= <-]. rewrite E. split; reflexivity.
  - intros H. inv_bind H. injection H as <-. split; reflexivity.
Qed.

Lemma archive_phase_windows (self : Service) (c : Cycle) (ev : Event)
    (st st' : LoopState) :
  archive_phase self c ev st = Ok st' ->
  (archive_readings st' = archive_readings st \/ archive_readings st' = []) /\
  two_minute_readings st' = two_minute_readings st.
Proof.
  unfold archive_phase. destruct ev; [intros [= <-]; tauto|].
  destruct (archive_readings st) eqn:E; [intros [= <-]; tauto|].
  intros H. inv_bind H.
  destruct (store_write _ _ _); injection H as <-; cbn; tauto.
Qed.

(** A turn of the loop keeps the windows to accepted readings. *)
Lemma do_loop_turn_sane (self : Service) (c : Cycle) (st st' : LoopState) :
  windows_sane st -> do_loop_turn self c st = Ok st' -> windows_sane st'.
Proof.
  intros [Ha Ht] H. unfold do_loop_turn in H.
  apply bind_ok in H as (ev & Hev & H).
  apply bind_ok in H as (trimmed & Htrim & H).
  apply bind_ok in H as (st2 & Htwo & H).
  apply trim_sane in Htrim; [|exact Ht].
  match type of Htwo with two_minute_phase c (collect_phase c ?s) = _ =>
    assert (Hc : windows_sane (collect_phase c s))
      by (apply collect_phase_sane; split; assumption)
  end.
  destruct Hc as [Hca Hct].
  apply two_minute_phase_windows in Htwo as [E1 E2].
  apply archive_phase_windows in H as [[E3 | E3] E4].
  - split; congruence.
  - split; [rewrite E3; constructor | congruence].
Qed.

Lemma do_loop_from_sane (self : Service) (cycles : list Cycle) :
  forall st st',
  windows_sane st -> do_loop_from self cycles st = Ok st' -> windows_sane st'.
Proof.
  induction cycles as [|c cycles IH]; intros st st' Hs H; simpl in H.
  - injection H as <-. exact Hs.
  - inv_bind H. eapply IH; [|exact H].
    eapply do_loop_turn_sane; eassumption.
Qed.

(** Whatever the loop has met, its windows hold accepted readings: the
    averages of the loop are averages of typed readings. *)
Lemma do_loop_windows (self : Service) (cycles : list Cycle)
    (db : list Row) (st : LoopState) :
  do_loop_from self cycles (initial_state db) = Ok st -> windows_sane st.
Proof.
  apply do_loop_from_sane. split; constructor.
Qed.

End LoopInvariant.

Section ArchiveBranch.

Context `{sqlite_impl : !Sqlite}.

(** ** The archive branch of the loop *)

Lemma archive_timestamp_floor (self : Service) (now : Z) :
  0 < arcint_secs self ->
  0 <= now + 5 * 1000000 ->
  archive_timestamp self now
  = Ok ((now + 5 * 1000000) / (arcint_secs self * 1000000) * arcint_secs self).
Proof.
  intros HA Hnow. unfold archive_timestamp, timegm_utc.
  destruct (Z.eqb_spec (arcint_secs self) 0); [lia|].
  rewrite Z.quot_div_nonneg by (try apply Z.div_pos; lia).
  rewrite Z.div_div by lia.
  rewrite (Z.mul_comm 1000000). reflexivity.
Qed.

(** Whatever the clock, the timestamp is a multiple of the interval. *)
Lemma archive_timestamp_multiple (self : Service) (now ts : Z) :
  archive_timestamp self now = Ok ts -> (arcint_secs self | ts).
Proof.
  unfold archive_timestamp. destruct (arcint_secs self =? 0); [discriminate|].
  intros [= <-]. eexists. reflexivity.
Qed.

Lemma set_measurementTime_time (r : Reading) (t : pyval) :
  measurementTime (set_measurementTime r t) = t.
Proof. reflexivity. Qed.

Lemma set_measurementTime_chan (r : Reading) (t : pyval) (c : channel) :
  chan c (set_measurementTime r t) = chan c r.
Proof. destruct c; reflexivity. Qed.

(** The two outcomes of the archive branch on a window that is not
    empty. *)
Lemma archive_phase_cases (self : Service) (c : Cycle) (st : LoopState)
    (avg : Reading) :
  archive_readings st <> [] ->
  archive_reading self (archive_now c) (archive_readings st) = Ok avg ->
  match store_write (fault_archive c) (save_archive_reading avg) (database st) with
  | Ok db' =>
      archive_phase self c ARCHIVE st
      = Ok {| archive_readings := [];
              two_minute_readings := two_minute_readings st;
              first_time := first_time st;
              session_open := session_open st;
              database := db' |}
  | Err _ => archive_phase self c ARCHIVE st = Ok st
  end.
Proof.
  intros Hne Havg. unfold archive_phase.
  destruct (archive_readings st) as [|r rs] eqn:E; [congruence|].
  rewrite Havg. cbn [bind].
  destruct (store_write _ _ _); reflexivity.
Qed.

End ArchiveBranch.

Section TurnRows.

Context `{sqlite_impl : !Sqlite}.

(** ** The rows that a turn of the loop writes *)

Lemma save_replacing_elem (rt : Z) (r : Reading) (db db' : list Row) (row : Row) :
  rt = RecordType.CURRENT \/ rt = RecordType.TWO_MINUTE ->
  save_reading rt r db = Ok db' ->
  row ∈ db' -> row ∈ db \/ record_type row = rt.
Proof.
  intros Hrt H Hin. apply (save_replacing rt r db db' Hrt) in H as (new & Hnew & ->).
  apply elem_of_app in Hin as [Hin | Hin].
  - left. apply list_elem_of_filter in Hin as [_ Hin]. exact Hin.
  - right. apply list_elem_of_singleton in Hin as ->.
    apply insert_row_of_fields in Hnew as [Hty _]. exact Hty.
Qed.

Lemma collect_phase_rows (c : Cycle) (st : LoopState) (row : Row) :
  row ∈ database (collect_phase c st) ->
  row ∈ database st \/ record_type row = RecordType.CURRENT.
Proof.
  unfold collect_phase.
  destruct (collect_data (response c) (read_now c)) as [reading|e]; [|tauto].
  destruct (is_sane (sane_now c) reading) as [[] reason]; [|tauto].
  cbn [database]. unfold store_write.
  destruct (fault_current c); [tauto|].
  destruct (save_current_reading reading (database st)) as [db'|e] eqn:E; [|tauto].
  apply (save_replacing_elem _ _ _ _ _ (or_introl eq_refl) E).
Qed.

Lemma two_minute_phase_rows (c : Cycle) (st st' : LoopState) (row : Row) :
  two_minute_phase c st = Ok st' ->
  row ∈ database st' ->
  row ∈ database st \/ record_type row = RecordType.TWO_MINUTE.
Proof.
  unfold two_minute_phase. destruct (two_minute_readings st); [intros [= <-]; tauto|].
  intros H. inv_bind H. injection H as <-. cbn [database]. unfold store_write.
  destruct (fault_two_minute c); [tauto|].
  match goal with
  | |- context [save_two_minute_reading ?x ?d] =>
      destruct (save_two_minute_reading x d) as [db'|e] eqn:E; [|tauto]
  end.
  apply (save_replacing_elem _ _ _ _ _ (or_intror eq_refl) E).
Qed.

Lemma archive_phase_rows (self : Service) (c : Cycle) (ev : Event)
    (st st' : LoopState) (row : Row) :
  archive_phase self c ev st = Ok st' ->
  row ∈ database st' ->
  row ∈ database st \/
  exists avg,
    archive_reading self (archive_now c) (archive_readings st) = Ok avg /\
    insert_row_of RecordType.ARCHIVE avg = Ok row.
Proof.
  unfold archive_phase. destruct ev; [intros [= <-]; tauto|].
  destruct (archive_readings st) eqn:Hw; [intros [= <-]; tauto|].
  intros H. inv_bind H. unfold store_write in H.
  destruct (fault_archive c); [injection H as <-; tauto|].
  destruct (save_archive_reading a (database st)) as [db'|e] eqn:E;
    injection H as <-; [|tauto].
  cbn [database]. intros Hin.
  apply save_archive_inv in E as (new & Hnew & -> & _).
  apply elem_of_app in Hin as [Hin | Hin]; [tauto|].
  apply list_elem_of_singleton in Hin as ->. right. eauto.
Qed.

(** Through a whole turn of the loop: an ARCHIVE row of the table after
    the turn was there before it, or has the timestamp of the archive
    grid. *)
Lemma do_loop_turn_archive_rows (self : Service) (c : Cycle)
    (st st' : LoopState) (row : Row) :
  0 < arcint_secs self ->
  0 <= archive_now c + 5 * 1000000 ->
  do_loop_turn self c st = Ok st' ->
  row ∈ database st' ->
  record_type row = RecordType.ARCHIVE ->
  row ∈ database st \/
  row_timestamp row
  = (archive_now c + 5 * 1000000) / (arcint_secs self * 1000000)
    * arcint_secs self * 1000000.
Proof.
  intros HA Hnow H Hin Hty. unfold do_loop_turn in H.
  apply bind_ok in H as (ev & Hev & H).
  apply bind_ok in H as (trimmed & Htrim & H).
  apply bind_ok in H as (st2 & Htwo & H).
  destruct (archive_phase_rows _ _ _ _ _ _ H Hin) as [Hin2 | (avg & Havg & Hrow)].
  - left.
    destruct (two_minute_phase_rows _ _ _ _ Htwo Hin2) as [Hin1 | Hbad];
      [|rewrite Hty in Hbad; discriminate].
    destruct (collect_phase_rows _ _ _ Hin1) as [Hin0 | Hbad];
      [exact Hin0 | rewrite Hty in Hbad; discriminate].
  - right. unfold archive_reading in Havg.
    apply bind_ok in Havg as (a & Ha & Havg).
    apply bind_ok in Havg as (ts & Hts & Havg).
    injection Havg as <-.
    rewrite archive_timestamp_floor in Hts by assumption. injection Hts as <-.
    apply insert_row_of_fields in Hrow as [_ Htime].
    rewrite set_measurementTime_time in Htime. congruence.
Qed.

End TurnRows.

(** A turn of the sample service: called at 1700000070 s, the next
    event is the archive of 1700000100 s; the sensor does not answer; the
    two minute average and the archive record are written, the second
    on the archive grid, and the long window is emptied. *)
Example do_loop_turn_sample :
  exists st',
    do_loop_turn sample_service (sample_cycle false) sample_state = Ok st' /\
    archive_readings st' = [] /\
    session_open st' = false /\
    map key_of (database st')
    = [(RecordType.TWO_MINUTE, 1700000070000000);
       (RecordType.ARCHIVE, 1700000100000000)].
Proof.
  eexists. split; [vm_compute; reflexivity|].
  split; [reflexivity|]. split; reflexivity.
Qed.

Section TurnSteps.

Context `{sqlite_impl : !Sqlite}.

(** ** The steps of a turn *)

(** A turn is: the event, then everything before the archive branch,
    then the archive branch. *)
Lemma do_loop_turn_steps (self : Service) (c : Cycle) (st : LoopState) :
  do_loop_turn self c st
  = (ev <- turn_event self c st ;;
     st2 <- before_archive c st ;;
     archive_phase self c ev st2).
Proof.
  unfold do_loop_turn, turn_event, before_archive.
  match goal with
  | |- bind ?e _ = bind ?e _ => destruct e as [ev|e']; [|reflexivity]
  end.
  cbn [bind].
  destruct (trim_two_minute_readings (trim_now c) (two_minute_readings st));
    reflexivity.
Qed.

Lemma do_loop_turn_inv (self : Service) (c : Cycle) (st st' : LoopState) :
  do_loop_turn self c st = Ok st' ->
  exists ev st2,
    turn_event self c st = Ok ev /\
    before_archive c st = Ok st2 /\
    archive_phase self c ev st2 = Ok st'.
Proof.
  rewrite do_loop_turn_steps. intros H.
  apply bind_ok in H as (ev & Hev & H).
  apply bind_ok in H as (st2 & Hst2 & H).
  exists ev, st2. auto.
Qed.

(** The long window before the archive branch: the window of the turn
    before, and the reading of this turn when it is accepted. *)
Lemma collect_phase_window (c : Cycle) (st : LoopState) :
  archive_readings (collect_phase c st) = archive_readings st ++ accepted c /\
  two_minute_readings (collect_phase c st) = two_minute_readings st ++ accepted c.
Proof.
  unfold collect_phase, accepted.
  destruct (collect_data (response c) (read_now c)) as [reading|e];
    [|cbn [archive_readings two_minute_readings]; rewrite !app_nil_r; auto].
  destruct (is_sane (sane_now c) reading) as [[] reason];
    cbn [fst archive_readings two_minute_readings]; rewrite ?app_nil_r; auto.
Qed.

Lemma before_archive_window (c : Cycle) (st st2 : LoopState) :
  before_archive c st = Ok st2 ->
  archive_readings st2 = archive_readings st ++ accepted c /\
  exists trimmed,
    trim_two_minute_readings (trim_now c) (two_minute_readings st) = Ok trimmed /\
    two_minute_readings st2 = trimmed ++ accepted c.
Proof.
  unfold before_archive. intros H.
  apply bind_ok in H as (trimmed & Htrim & H).
  apply two_minute_phase_windows in H as [Ha Ht].
  rewrite Ha, Ht.
  match goal with
  | |- context [collect_phase c ?s] =>
      destruct (collect_phase_window c s) as [Ea Et]
  end.
  rewrite Ea, Et. cbn [archive_readings two_minute_readings].
  split; [reflexivity|]. exists trimmed. auto.
Qed.

Lemma before_archive_sane (c : Cycle) (st st2 : LoopState) :
  windows_sane st -> before_archive c st = Ok st2 -> windows_sane st2.
Proof.
  intros [Ha Ht] H. unfold before_archive in H.
  apply bind_ok in H as (trimmed & Htrim & H).
  apply two_minute_phase_windows in H as [Ea Et].
  match type of Ea with
  | _ = archive_readings (collect_phase c ?s) =>
      assert (Hs : windows_sane (collect_phase c s))
  end.
  { apply collect_phase_sane. split; [exact Ha|].
    cbn [two_minute_readings]. exact (trim_sane _ _ _ Htrim Ht). }
  destruct Hs as [Hsa Hst]. split; [rewrite Ea | rewrite Et]; assumption.
Qed.

End TurnSteps.

Section ArchiveCycle.

Context `{sqlite_impl : !Sqlite}.

(** ** C4 *)

(** C4. On a turn of the loop whose event is ARCHIVE and whose long
    window is not empty when the archive branch is reached, in a state of
    the loop (its windows hold readings that passed the sanity check,
    [do_loop_windows]), for a turn that the embedding describes
    ([described]), with a positive archive interval and a clock not
    before the epoch: the averaged reading gets the timestamp
    floor((now + 5 s) / archive_interval) * archive_interval, a multiple of
    the archive interval. When the store accepts the write, the row of
    that reading, an ARCHIVE row with that timestamp, is appended to the
    table, it is read back with that time, and the turn ends with that
    table and an empty long window. The store accepts it when it has no
    fault of its own, the row can be written and no ARCHIVE row has the
    timestamp. Every ARCHIVE row in the table after the turn that was
    not there before it has that timestamp. *)
Theorem archive_timestamp_on_grid (self : Service) (c : Cycle) (st st2 : LoopState) :
  0 < arcint_secs self ->
  0 <= archive_now c + 5 * 1000000 ->
  windows_sane st ->
  described c st = true ->
  turn_event self c st = Ok ARCHIVE ->
  before_archive c st = Ok st2 ->
  archive_readings st2 <> [] ->
  let grid := (archive_now c + 5 * 1000000) / (arcint_secs self * 1000000)
              * arcint_secs self in
  (arcint_secs self | grid) /\
  exists avg,
    archive_reading self (archive_now c) (archive_readings st2) = Ok avg /\
    measurementTime avg = VDatetime (grid * 1000000) /\
    (forall db',
       store_write (fault_archive c) (save_archive_reading avg) (database st2)
       = Ok db' ->
       exists row,
         insert_row_of RecordType.ARCHIVE avg = Ok row /\
         record_type row = RecordType.ARCHIVE /\
         row_timestamp row = grid * 1000000 /\
         measurementTime (create_reading_from_row row)
         = VDatetime (grid * 1000000) /\
         db' = database st2 ++ [row] /\
         do_loop_turn self c st
         = Ok {| archive_readings := [];
                 two_minute_readings := two_minute_readings st2;
                 first_time := first_time st2;
                 session_open := session_open st2;
                 database := database st2 ++ [row] |}) /\
    (forall row,
       fault_archive c = false ->
       insert_row_of RecordType.ARCHIVE avg = Ok row ->
       (forall x, x ∈ database st2 ->
                  key_of x <> (RecordType.ARCHIVE, grid * 1000000)) ->
       store_write (fault_archive c) (save_archive_reading avg) (database st2)
       = Ok (database st2 ++ [row])) /\
    (forall st' row,
       do_loop_turn self c st = Ok st' ->
       row ∈ database st' -> row ∉ database st ->
       record_type row = RecordType.ARCHIVE ->
       row_timestamp row = grid * 1000000).
Proof.
  intros HA Hnow Hsane _ Hev Hbefore Hne grid.
  split; [eexists; reflexivity|].
  destruct (before_archive_sane c st st2 Hsane Hbefore) as [Ht _].
  apply Forall_sane_typed in Ht.
  destruct (compute_avg_total _ Hne Ht) as (a & Ha).
  pose proof (archive_timestamp_floor self (archive_now c) HA Hnow) as Hts.
  fold grid in Hts.
  set (avg := set_measurementTime a (VDatetime (grid * 1000000))).
  assert (Havg : archive_reading self (archive_now c) (archive_readings st2)
                 = Ok avg).
  { unfold archive_reading. rewrite Ha. cbn [bind]. rewrite Hts. reflexivity. }
  exists avg. split; [exact Havg|]. split; [reflexivity|].
  split; [|split].
  - intros db' Hw.
    pose proof (archive_phase_cases self c st2 avg Hne Havg) as Hphase.
    rewrite Hw in Hphase.
    unfold store_write in Hw. destruct (fault_archive c); [discriminate|].
    apply save_archive_inv in Hw as (row & Hrow & -> & _).
    destruct (insert_row_of_fields _ _ _ Hrow) as [Hty Htime].
    assert (Hrt : row_timestamp row = grid * 1000000).
    { unfold avg in Htime. rewrite set_measurementTime_time in Htime. congruence. }
    exists row. split; [exact Hrow|]. split; [exact Hty|]. split; [exact Hrt|].
    split; [unfold create_reading_from_row; cbn [measurementTime]; congruence|].
    split; [reflexivity|].
    rewrite do_loop_turn_steps, Hev. cbn [bind]. rewrite Hbefore. cbn [bind].
    exact Hphase.
  - intros row Hfault Hrow Hfresh. unfold store_write. rewrite Hfault.
    apply save_archive_inv. exists row. split; [exact Hrow|].
    split; [reflexivity|]. intros x Hx.
    destruct (insert_row_of_fields _ _ _ Hrow) as [Hty Htime].
    unfold avg in Htime. rewrite set_measurementTime_time in Htime.
    injection Htime as Htime.
    unfold key_of at 2. rewrite Hty, <- Htime. apply Hfresh, Hx.
  - intros st' row Hturn Hin Hnot Hty.
    destruct (do_loop_turn_archive_rows self c st st' row HA Hnow Hturn Hin Hty)
      as [Hold | Hgrid]; [contradiction|].
    rewrite Hgrid. unfold grid. ring.
Qed.

(** ** C9 *)

(** C9. Through a turn of the loop that the embedding describes
    ([described]). Before the archive branch the long window is the
    window of the turn before with the reading of this turn added when
    it was accepted. When the event is ARCHIVE, the window is not empty
    and the write of the ARCHIVE record fails, the turn ends in the state
    it had before the archive branch: window and table are what they
    were. When the write succeeds the window is emptied and the table is
    the one written. The window after the turn differs from the one
    before the archive branch only in that case: the event was ARCHIVE and
    the write succeeded. A POLL turn leaves it. And the next turn starts
    from the window that this one left: before its archive branch the
    long window is that window and the reading accepted then, which is
    what its archive branch works on. *)
Theorem archive_failure_keeps_window (self : Service) (c : Cycle)
    (st st' : LoopState) :
  described c st = true ->
  do_loop_turn self c st = Ok st' ->
  exists ev st2,
    turn_event self c st = Ok ev /\
    before_archive c st = Ok st2 /\
    archive_readings st2 = archive_readings st ++ accepted c /\
    (forall avg e,
       ev = ARCHIVE ->
       archive_readings st2 <> [] ->
       archive_reading self (archive_now c) (archive_readings st2) = Ok avg ->
       store_write (fault_archive c) (save_archive_reading avg) (database st2)
       = Err e ->
       e <> Unmodelled ->
       st' = st2) /\
    (forall avg db',
       ev = ARCHIVE ->
       archive_readings st2 <> [] ->
       archive_reading self (archive_now c) (archive_readings st2) = Ok avg ->
       store_write (fault_archive c) (save_archive_reading avg) (database st2)
       = Ok db' ->
       archive_readings st' = [] /\ database st' = db') /\
    (archive_readings st' <> archive_readings st2 ->
     ev = ARCHIVE /\
     archive_readings st' = [] /\
     exists avg db',
       archive_reading self (archive_now c) (archive_readings st2) = Ok avg /\
       store_write (fault_archive c) (save_archive_reading avg) (database st2)
       = Ok db' /\
       database st' = db') /\
    (ev = POLL -> st' = st2) /\
    (forall c2 st'',
       described c2 st' = true ->
       do_loop_turn self c2 st' = Ok st'' ->
       exists ev2 st3,
         turn_event self c2 st' = Ok ev2 /\
         before_archive c2 st' = Ok st3 /\
         archive_readings st3 = archive_readings st' ++ accepted c2 /\
         archive_phase self c2 ev2 st3 = Ok st'').
Proof.
  intros _ H.
  destruct (do_loop_turn_inv _ _ _ _ H) as (ev & st2 & Hev & Hbefore & Harch).
  destruct (before_archive_window _ _ _ Hbefore) as [Hwin _].
  exists ev, st2.
  split; [exact Hev|]. split; [exact Hbefore|]. split; [exact Hwin|].
  split; [|split; [|split; [|split]]].
  - intros avg e -> Hne Havg Hw _.
    pose proof (archive_phase_cases self c st2 avg Hne Havg) as Hphase.
    rewrite Hw in Hphase. congruence.
  - intros avg db' -> Hne Havg Hw.
    pose proof (archive_phase_cases self c st2 avg Hne Havg) as Hphase.
    rewrite Hw in Hphase. rewrite Harch in Hphase. injection Hphase as ->.
    split; reflexivity.
  - intros Hdiff. unfold archive_phase in Harch.
    destruct ev; [injection Harch as <-; contradiction|].
    split; [reflexivity|].
    destruct (archive_readings st2) as [|r rs] eqn:Ew;
      [injection Harch as <-; congruence|].
    apply bind_ok in Harch as (avg & Havg & Harch).
    destruct (store_write (fault_archive c) (save_archive_reading avg)
                (database st2)) as [db'|e] eqn:Hw;
      injection Harch as <-; [|congruence].
    split; [reflexivity|]. exists avg, db'. auto.
  - intros ->. cbn [archive_phase] in Harch. congruence.
  - intros c2 st'' _ H2.
    destruct (do_loop_turn_inv _ _ _ _ H2) as (ev2 & st3 & Hev2 & Hbefore2 & Harch2).
    destruct (before_archive_window _ _ _ Hbefore2) as [Hwin2 _].
    exists ev2, st3. auto.
Qed.

End ArchiveCycle.

(** The sample turn, when the store takes the write: the archive row of
    1700000100 s is in the table after the turn. *)
Lemma archive_timestamp_on_grid_witness :
  (300 | 1700000100) /\
  exists st' row,
    do_loop_turn sample_service (sample_cycle false) sample_state = Ok st' /\
    archive_readings st' = [] /\
    rows_of RecordType.ARCHIVE (database st') = [row] /\
    row_timestamp row = 1700000100 * 1000000.
Proof.
  destruct (before_archive (sample_cycle false) sample_state) as [st2|e] eqn:E;
    [|vm_compute in E; discriminate].
  assert (Hst2 : archive_readings st2 = archive_readings sample_state
                 /\ rows_of RecordType.ARCHIVE (database st2) = []).
  { vm_compute in E. injection E as <-. split; reflexivity. }
  destruct Hst2 as [Hwin Hrows].
  destruct (archive_timestamp_on_grid sample_service (sample_cycle false)
              sample_state st2)
    as (Hdiv & avg & Havg & Htime & Hstored & Haccept & _).
  - reflexivity.
  - discriminate.
  - split; repeat constructor.
  - vm_compute. reflexivity.
  - vm_compute. reflexivity.
  - exact E.
  - rewrite Hwin. discriminate.
  - split; [exact Hdiv|].
    destruct (insert_row_of RecordType.ARCHIVE avg) as [row|e] eqn:Erow.
    2:{ rewrite Hwin in Havg. vm_compute in Havg. injection Havg as <-.
        vm_compute in Erow. discriminate. }
    destruct (Hstored (database st2 ++ [row])) as (row' & _ & Hty & Hts & _ & _ & Hturn).
    + apply (Haccept row eq_refl eq_refl).
      intros x Hx Hkey.
      assert (Hin : x ∈ rows_of RecordType.ARCHIVE (database st2)).
      { apply list_elem_of_filter. split; [|exact Hx].
        unfold key_of in Hkey. congruence. }
      rewrite Hrows in Hin. inversion Hin.
    + eexists. exists row'. split; [exact Hturn|]. split; [reflexivity|].
      cbn [database]. split; [|exact Hts].
      unfold rows_of in *. rewrite filter_app, Hrows. cbn [app].
      rewrite filter_cons_True by exact Hty. reflexivity.
Defined.

(** The sample turn, when the store refuses the write: the window is
    what it was, and the turn after it has it. *)
Lemma archive_failure_keeps_window_witness :
  exists st',
    do_loop_turn sample_service (sample_cycle true) sample_state = Ok st' /\
    archive_readings st' = archive_readings sample_state /\
    forall c2 st'',
      described c2 st' = true ->
      do_loop_turn sample_service c2 st' = Ok st'' ->
      exists st3,
        before_archive c2 st' = Ok st3 /\
        archive_readings st3 = archive_readings sample_state ++ accepted c2.
Proof.
  destruct (do_loop_turn sample_service (sample_cycle true) sample_state)
    as [st'|e] eqn:E; [|vm_compute in E; discriminate].
  destruct (archive_failure_keeps_window sample_service (sample_cycle true)
              sample_state st' ltac:(vm_compute; reflexivity) E)
    as (ev & st2 & Hev & Hbefore & Hwin & Hfail & _ & _ & _ & Hnext).
  vm_compute in Hev. injection Hev as <-.
  assert (Hst2 : archive_readings st2 = archive_readings sample_state).
  { vm_compute in Hbefore. injection Hbefore as <-. reflexivity. }
  destruct (archive_reading sample_service
              (archive_now (sample_cycle true)) (archive_readings st2))
    as [avg|e] eqn:Eavg;
    [|rewrite Hst2 in Eavg; vm_compute in Eavg; discriminate].
  assert (Hsame : st' = st2).
  { apply (Hfail avg OperationalError eq_refl); try reflexivity; try discriminate.
    rewrite Hst2. discriminate. }
  exists st'. split; [reflexivity|].
  split; [rewrite Hsame; exact Hst2|].
  intros c2 st'' Hd2 H2.
  destruct (Hnext c2 st'' Hd2 H2) as (ev2 & st3 & _ & Hb2 & Hw2 & _).
  exists st3. split; [exact Hb2|].
  rewrite Hw2, Hsame, Hst2. reflexivity.
Defined.

Section Fetch.

Context `{sqlite_impl : !Sqlite}.

(** ** What a fetch returns *)

(** The SELECT reads only the rows of its record type. *)
Lemma select_rows_of_type (rt since_ts : Z) (max_ts limit : option Z) (db : list Row) :
  select_rows rt since_ts max_ts limit db
  = select_rows rt since_ts max_ts limit (rows_of rt db).
Proof.
  unfold select_rows, rows_of.
  assert (E : filter (fun row => record_type row = rt /\
                                 since_ts * 1000000 < row_timestamp row)
                (filter (fun row => record_type row = rt) db)
              = filter (fun row => record_type row = rt /\
                                   since_ts * 1000000 < row_timestamp row) db).
  { rewrite list_filter_filter. apply list_filter_iff. intros x. tauto. }
  rewrite E. reflexivity.
Qed.

Lemma selected_spec (rt since_ts : Z) (max_ts : option Z) (row : Row) :
  selected rt since_ts max_ts row = true <->
  record_type row = rt /\ since_ts * 1000000 < row_timestamp row /\
  forall m, max_ts = Some m -> row_timestamp row ≤ m * 1000000.
Proof.
  unfold selected. rewrite !andb_true_iff, Z.eqb_eq, Z.ltb_lt.
  destruct max_ts as [m|].
  - rewrite Z.leb_le. split.
    + intros [[? ?] ?]. repeat split; try assumption. intros ? [= <-]. assumption.
    + intros (? & ? & H). repeat split; try assumption. apply H. reflexivity.
  - split.
    + intros [[? ?] _]. repeat split; try assumption. intros ? [=].
    + intros (? & ? & _). repeat split; assumption.
Qed.

(** The rows of the SELECT without a limit. *)
Lemma select_rows_unlimited (rt since_ts : Z) (max_ts : option Z) (db : list Row) :
  select_rows rt since_ts max_ts None db
  = merge_sort ts_le (filter (fun row => selected rt since_ts max_ts row = true) db).
Proof.
  unfold select_rows. f_equal. destruct max_ts as [m|].
  - rewrite list_filter_filter. apply list_filter_iff. intros x.
    rewrite selected_spec. split.
    + intros (? & ? & ?). repeat split; try assumption. intros ? [= <-]. assumption.
    + intros (? & ? & H). repeat split; try assumption. apply H. reflexivity.
  - apply list_filter_iff. intros x. rewrite selected_spec. split.
    + intros (? & ?). repeat split; try assumption. intros ? [=].
    + intros (? & ? & _). split; assumption.
Qed.

Lemma select_rows_limit (rt since_ts : Z) (max_ts : option Z) (n : Z) (db : list Row) :
  select_rows rt since_ts max_ts (Some n) db
  = if n <? 0 then select_rows rt since_ts max_ts None db
    else take (Z.to_nat n) (select_rows rt since_ts max_ts None db).
Proof. reflexivity. Qed.

Lemma select_rows_sorted_any (rt since_ts : Z) (max_ts limit : option Z) (db : list Row) :
  StronglySorted ts_le (select_rows rt since_ts max_ts limit db).
Proof.
  assert (H : StronglySorted ts_le (select_rows rt since_ts max_ts None db)).
  { rewrite select_rows_unlimited.
    apply (@StronglySorted_merge_sort _ ts_le _ ts_le_trans ts_le_total). }
  destruct limit as [n|]; [|exact H].
  rewrite select_rows_limit. destruct (n <? 0); [exact H|].
  rewrite <- (take_drop (Z.to_nat n) (select_rows rt since_ts max_ts None db)) in H.
  apply StronglySorted_app_1_l in H. exact H.
Qed.

Lemma time_le_rows (a b : Row) :
  ts_le a b -> time_le (create_reading_from_row a) (create_reading_from_row b).
Proof. intros H. exact H. Qed.

Lemma fetch_readings_sorted (rt since_ts : Z) (max_ts limit : option Z) (db : list Row) :
  StronglySorted time_le (fetch_readings rt since_ts max_ts limit db).
Proof.
  unfold fetch_readings.
  apply (StronglySorted_fmap create_reading_from_row ts_le time_le).
  - exact time_le_rows.
  - apply select_rows_sorted_any.
Qed.

(** X1. Without a limit, [fetch_readings] returns the readings of
    exactly the rows of the table that have the record type and a
    timestamp later than [since_ts] and, when [max_ts] is given, not
    later than [max_ts] (the lower bound is exclusive, the upper one
    inclusive), each row once, in the order of their times. *)
Theorem fetch_readings_exact (rt since_ts : Z) (max_ts : option Z) (db : list Row) :
  fetch_readings rt since_ts max_ts None db
    ≡ₚ map create_reading_from_row
         (filter (fun row => selected rt since_ts max_ts row = true) db)
  /\ StronglySorted time_le (fetch_readings rt since_ts max_ts None db).
Proof.
  split.
  - unfold fetch_readings. rewrite select_rows_unlimited.
    apply Permutation_map, merge_sort_Permutation.
  - apply fetch_readings_sorted.
Qed.

End Fetch.

Section FetchLimit.

Context `{sqlite_impl : !Sqlite}.

(** X2. With a limit [n >= 0], [fetch_readings] returns the first [n]
    readings of the fetch without a limit (all of them when there are
    fewer), so that no reading left out is earlier than a reading
    returned. *)
Theorem fetch_readings_limit (rt since_ts : Z) (max_ts : option Z) (n : Z)
    (db : list Row) :
  0 ≤ n ->
  let every := fetch_readings rt since_ts max_ts None db in
  let page := fetch_readings rt since_ts max_ts (Some n) db in
  length page = Nat.min (Z.to_nat n) (length every) /\
  every = page ++ drop (length page) every /\
  forall a b, a ∈ page -> b ∈ drop (length page) every -> time_le a b.
Proof.
  intros Hn every page.
  assert (Hpage : page = take (Z.to_nat n) every).
  { unfold page, every, fetch_readings. rewrite select_rows_limit.
    destruct (Z.ltb_spec n 0) as [?|_]; [lia|].
    change (map create_reading_from_row) with (fmap (M:=list) create_reading_from_row).
    apply fmap_take. }
  assert (Hlen : length page = Nat.min (Z.to_nat n) (length every)).
  { rewrite Hpage. apply length_take. }
  assert (Hdrop : drop (length page) every = drop (Z.to_nat n) every).
  { rewrite Hlen. destruct (Nat.min_spec (Z.to_nat n) (length every)) as [[_ ->]|[Hle ->]].
    - reflexivity.
    - rewrite !drop_ge by lia. reflexivity. }
  split; [exact Hlen|]. rewrite Hdrop, Hpage. split.
  - symmetry. apply take_drop.
  - intros a b Ha Hb.
    pose proof (fetch_readings_sorted rt since_ts max_ts None db) as Hs.
    fold every in Hs. rewrite <- (take_drop (Z.to_nat n) every) in Hs.
    exact (StronglySorted_app_1_elem_of _ _ _ _ _ Hs Ha Hb).
Qed.

(** ** What a save leaves alone *)

Lemma rows_of_app (rt : Z) (a b : list Row) :
  rows_of rt (a ++ b) = rows_of rt a ++ rows_of rt b.
Proof. apply filter_app. Qed.

(** The rows of a save, from the rows before it. *)
Lemma save_reading_inv (rt : Z) (r : Reading) (db db' : list Row) :
  save_reading rt r db = Ok db' ->
  exists row,
    insert_row_of rt r = Ok row /\
    db' = (if (rt =? RecordType.CURRENT) || (rt =? RecordType.TWO_MINUTE)
           then delete_record_type rt db else db) ++ [row].
Proof.
  unfold save_reading. intros H.
  apply bind_ok in H as (row & Hrow & H). exists row. split; [exact Hrow|].
  apply insert_row_inv in H as [-> _]. f_equal.
  destruct (Z.eqb_spec rt RecordType.CURRENT) as [->|?]; [reflexivity|].
  destruct (Z.eqb_spec rt RecordType.TWO_MINUTE) as [->|?]; reflexivity.
Qed.

Lemma save_reading_rows_of (rt rt' : Z) (r : Reading) (db db' : list Row) :
  save_reading rt r db = Ok db' ->
  rt' <> rt ->
  rows_of rt' db' = rows_of rt' db.
Proof.
  intros H Hne. apply save_reading_inv in H as (row & Hrow & ->).
  apply insert_row_of_fields in Hrow as [Hty _].
  rewrite rows_of_app. unfold rows_of at 2.
  rewrite filter_cons_False by congruence. rewrite filter_nil, app_nil_r.
  destruct ((rt =? RecordType.CURRENT) || (rt =? RecordType.TWO_MINUTE));
    [apply rows_of_delete_ne; exact Hne | reflexivity].
Qed.

(** X3. A save of one record type changes no fetch of another record
    type: whatever the bounds and the limit, the fetch returns after the
    save what it returned before. In particular a save of the current or
    of the two minute reading never touches the archive. *)
Theorem save_reading_other_types (rt rt' : Z) (r : Reading) (db db' : list Row)
    (since_ts : Z) (max_ts limit : option Z) :
  save_reading rt r db = Ok db' ->
  rt' <> rt ->
  fetch_readings rt' since_ts max_ts limit db'
  = fetch_readings rt' since_ts max_ts limit db.
Proof.
  intros H Hne. unfold fetch_readings.
  rewrite (select_rows_of_type _ _ _ _ db'), (select_rows_of_type _ _ _ _ db).
  rewrite (save_reading_rows_of _ _ _ _ _ H Hne). reflexivity.
Qed.

End FetchLimit.

Lemma fetch_readings_limit_witness :
  0 ≤ 1 /\
  length (fetch_readings RecordType.ARCHIVE 0 None (Some 1) sample_archive_table)
  = 1%nat.
Proof.
  split; [lia|].
  exact (proj1 (fetch_readings_limit RecordType.ARCHIVE 0 None 1
                  sample_archive_table ltac:(lia))).
Defined.

Lemma save_reading_other_types_witness :
  exists db',
    save_reading RecordType.CURRENT (create_test_reading 1700000000000000) [] = Ok db' /\
    fetch_readings RecordType.ARCHIVE 0 None None db'
    = fetch_readings RecordType.ARCHIVE 0 None None [].
Proof.
  eexists. split; [reflexivity|].
  apply (save_reading_other_types RecordType.CURRENT RecordType.ARCHIVE
           (create_test_reading 1700000000000000) []).
  - reflexivity.
  - unfold RecordType.ARCHIVE, RecordType.CURRENT. lia.
Defined.

Section SaveThenFetch.

Context `{sqlite_impl : !Sqlite}.

(** X4. No save deletes or alters an archive row: after any save the
    archive rows are the ones before it, in their order, followed by at
    most one new row (none when the save is not of the archive type), and
    a fetch of the archive without a limit still returns every reading
    that it returned before. *)
Theorem save_reading_keeps_archive (rt : Z) (r : Reading) (db db' : list Row)
    (since_ts : Z) (max_ts : option Z) :
  save_reading rt r db = Ok db' ->
  (exists new,
     rows_of RecordType.ARCHIVE db' = rows_of RecordType.ARCHIVE db ++ new /\
     (length new ≤ 1)%nat /\
     (rt <> RecordType.ARCHIVE -> new = [])) /\
  forall x,
    x ∈ fetch_archive_readings since_ts max_ts None db ->
    x ∈ fetch_archive_readings since_ts max_ts None db'.
Proof.
  intros H.
  assert (Hrows : exists new,
     rows_of RecordType.ARCHIVE db' = rows_of RecordType.ARCHIVE db ++ new /\
     (length new ≤ 1)%nat /\
     (rt <> RecordType.ARCHIVE -> new = [])).
  { destruct (decide (rt = RecordType.ARCHIVE)) as [->|Hne].
    - apply save_reading_inv in H as (row & Hrow & ->).
      exists (rows_of RecordType.ARCHIVE [row]).
      split; [apply rows_of_app|]. split; [|congruence].
      unfold rows_of. destruct (decide (record_type row = RecordType.ARCHIVE)).
      + rewrite filter_cons_True by assumption. simpl. lia.
      + rewrite filter_cons_False by assumption. simpl. lia.
    - exists []. rewrite app_nil_r.
      split; [apply (save_reading_rows_of _ _ _ _ _ H); congruence|].
      split; [simpl; lia | reflexivity]. }
  split; [exact Hrows|].
  destruct Hrows as (new & Hnew & _).
  intros x. unfold fetch_archive_readings, fetch_readings.
  rewrite (select_rows_of_type _ _ _ _ db'), (select_rows_of_type _ _ _ _ db).
  rewrite Hnew, !select_rows_unlimited.
  intros Hx. apply list_elem_of_In, in_map_iff in Hx as (row & <- & Hx).
  apply list_elem_of_In, in_map, list_elem_of_In.
  apply list_elem_of_In in Hx. rewrite merge_sort_Permutation in Hx.
  rewrite merge_sort_Permutation, filter_app. apply elem_of_app. left. exact Hx.
Qed.

(** ** Round trips *)

(** X5. A reading that the store can hold (every field present and of
    the type of its column) with a time later than the epoch and before
    2^33 seconds comes back with its time and its fields, each float being
    the REAL that SQLite read in its [repr] ([read_back]): after
    [save_current_reading] the fetch of the current reading returns it
    alone, whatever the table held before; likewise for the two minute
    reading; and after [save_archive_reading] into a table with no archive
    row at its time the fetch of the archive returns it, alone when the
    table had no archive row (the check of [test_db_archive_records]). *)
Theorem save_fetch_round_trip (r : Reading) (t : Z) (db : list Row) :
  storable r = true ->
  measurementTime r = VDatetime t ->
  0 < t < 8589934592 * 1000000 ->
  (exists db', save_current_reading r db = Ok db' /\
               fetch_current_readings db' = [read_back r]) /\
  (exists db', save_two_minute_reading r db = Ok db' /\
               fetch_two_minute_readings db' = [read_back r]) /\
  ((forall x, x ∈ db -> key_of x <> (RecordType.ARCHIVE, t)) ->
   exists db', save_archive_reading r db = Ok db' /\
               read_back r ∈ fetch_archive_readings 0 None None db' /\
               (rows_of RecordType.ARCHIVE db = [] ->
                fetch_archive_readings 0 None None db' = [read_back r])).
Proof.
  intros Hs Ht [Hpos _].
  assert (Hrep : forall rt,
            rt = RecordType.CURRENT \/ rt = RecordType.TWO_MINUTE ->
            exists db', save_reading rt r db = Ok db' /\
                        fetch_readings rt 0 None None db' = [read_back r]).
  { intros rt Hrt.
    destruct (insert_row_of_storable rt t r Hs Ht) as (row & Hrow & Hty & Hts & Hback).
    exists (delete_record_type rt db ++ [row]).
    assert (Hsave : save_reading rt r db = Ok (delete_record_type rt db ++ [row])).
    { apply save_replacing; [exact Hrt|]. exists row. split; [exact Hrow | reflexivity]. }
    split; [exact Hsave|].
    destruct (save_replacing_rows rt r db _ Hrt Hsave) as (row' & Hrow' & Hone & _).
    rewrite Hrow in Hrow'. injection Hrow' as <-.
    rewrite (fetch_single _ row); [|exact Hone | lia].
    rewrite Hback. reflexivity. }
  split; [exact (Hrep _ (or_introl eq_refl))|].
  split; [exact (Hrep _ (or_intror eq_refl))|].
  intros Hfresh.
  destruct (insert_row_of_storable RecordType.ARCHIVE t r Hs Ht)
    as (row & Hrow & Hty & Hts & Hback).
  exists (db ++ [row]).
  assert (Hsave : save_archive_reading r db = Ok (db ++ [row])).
  { apply save_archive_inv. exists row. split; [exact Hrow|]. split; [reflexivity|].
    intros x Hx. unfold key_of at 2. rewrite Hty, Hts. apply Hfresh, Hx. }
  split; [exact Hsave|].
  assert (Hsel : selected RecordType.ARCHIVE 0 None row = true).
  { apply selected_spec. split; [exact Hty|]. split; [lia|]. intros ? [=]. }
  split.
  - unfold fetch_archive_readings, fetch_readings. rewrite select_rows_unlimited.
    rewrite <- Hback. apply list_elem_of_In, in_map, list_elem_of_In.
    rewrite merge_sort_Permutation. apply list_elem_of_filter. split; [exact Hsel|].
    apply elem_of_app. right. apply list_elem_of_singleton. reflexivity.
  - intros Hnone. unfold fetch_archive_readings.
    rewrite (fetch_single _ row); [rewrite Hback; reflexivity | | lia].
    rewrite rows_of_app, Hnone. unfold rows_of.
    rewrite filter_cons_True by exact Hty. reflexivity.
Qed.

End SaveThenFetch.

Lemma save_reading_keeps_archive_witness :
  exists db',
    save_reading RecordType.CURRENT (create_test_reading 1700000000000000) [] = Ok db' /\
    forall x, x ∈ fetch_archive_readings 0 None None [] ->
              x ∈ fetch_archive_readings 0 None None db'.
Proof.
  eexists. split; [reflexivity|].
  exact (proj2 (save_reading_keeps_archive RecordType.CURRENT
                  (create_test_reading 1700000000000000) [] _ 0 None eq_refl)).
Defined.

Lemma save_fetch_round_trip_witness :
  exists db',
    save_archive_reading (create_test_reading 1700000000000000) [] = Ok db' /\
    fetch_archive_readings 0 None None db'
    = [read_back (create_test_reading 1700000000000000)].
Proof.
  destruct (proj2 (proj2 (save_fetch_round_trip
                     (create_test_reading 1700000000000000) 1700000000000000 []
                     eq_refl eq_refl ltac:(lia)))) as (db' & Hsave & _ & Hone).
  - intros x Hx. inversion Hx.
  - exists db'. split; [exact Hsave | apply Hone; reflexivity].
Defined.

Section FetchPages.

Context `{sqlite_impl : !Sqlite}.

(** ** Paging through the archive *)

Lemma key_of_inj (db : list Row) (x y : Row) :
  keys_unique db -> x ∈ db -> y ∈ db -> key_of x = key_of y -> x = y.
Proof.
  unfold keys_unique. induction db as [|z db IH]; intros Hnd Hx Hy Hk.
  - inversion Hx.
  - simpl in Hnd. apply NoDup_cons in Hnd as [Hz Hnd].
    apply elem_of_cons in Hx as [->|Hx]; apply elem_of_cons in Hy as [->|Hy].
    + reflexivity.
    + exfalso. apply Hz. rewrite Hk. apply list_elem_of_In, in_map, list_elem_of_In, Hy.
    + exfalso. apply Hz. rewrite <- Hk. apply list_elem_of_In, in_map, list_elem_of_In, Hx.
    + apply IH; assumption.
Qed.

Lemma select_rows_unlimited_elem (rt since_ts : Z) (max_ts : option Z)
    (db : list Row) (row : Row) :
  row ∈ select_rows rt since_ts max_ts None db
  <-> row ∈ db /\ selected rt since_ts max_ts row = true.
Proof.
  rewrite select_rows_unlimited, merge_sort_Permutation, list_elem_of_filter. tauto.
Qed.

Lemma select_rows_NoDup (rt since_ts : Z) (max_ts : option Z) (db : list Row) :
  keys_unique db -> NoDup (select_rows rt since_ts max_ts None db).
Proof.
  intros Hk. rewrite select_rows_unlimited, merge_sort_Permutation.
  apply NoDup_filter. exact (NoDup_fmap_1 key_of db Hk).
Qed.

(** The rows after a page that ends at [s'] seconds are the rows of the
    SELECT from [s']. *)
Lemma select_rows_next_page (rt since_ts s' : Z) (max_ts : option Z)
    (db front rest : list Row) (x : Row) :
  keys_unique db ->
  select_rows rt since_ts max_ts None db = (front ++ [x]) ++ rest ->
  row_timestamp x = s' * 1000000 ->
  select_rows rt s' max_ts None db = rest.
Proof.
  intros Hk HL Hx.
  pose proof (select_rows_sorted_any rt since_ts max_ts None db) as Hs.
  pose proof (select_rows_NoDup rt since_ts max_ts db Hk) as Hnd.
  assert (Hin : forall y, y ∈ (front ++ [x]) ++ rest ->
                          y ∈ db /\ selected rt since_ts max_ts y = true).
  { intros y Hy. rewrite <- HL in Hy. apply select_rows_unlimited_elem, Hy. }
  rewrite HL in Hs, Hnd.
  assert (Hxin : x ∈ (front ++ [x]) ++ rest).
  { apply elem_of_app. left. apply elem_of_app. right.
    apply list_elem_of_singleton. reflexivity. }
  destruct (Hin x Hxin) as [Hxdb Hxsel].
  apply selected_spec in Hxsel as (Hxrt & Hxsince & Hxmax).
  assert (Hfront : forall y, y ∈ front ++ [x] -> row_timestamp y ≤ s' * 1000000).
  { intros y Hy. apply elem_of_app in Hy as [Hy|Hy].
    - apply StronglySorted_app_1_l in Hs.
      rewrite <- Hx.
      apply (StronglySorted_app_1_elem_of _ _ _ _ _ Hs Hy).
      apply list_elem_of_singleton. reflexivity.
    - apply list_elem_of_singleton in Hy as ->. lia. }
  assert (Hrest : forall y, y ∈ rest -> s' * 1000000 < row_timestamp y).
  { intros y Hy.
    assert (Hle : ts_le x y).
    { apply (StronglySorted_app_1_elem_of _ _ _ _ _ Hs); [|exact Hy].
      apply elem_of_app. right. apply list_elem_of_singleton. reflexivity. }
    unfold ts_le in Hle.
    destruct (decide (row_timestamp y = row_timestamp x)) as [Heq|Hne]; [|lia].
    exfalso.
    destruct (Hin y) as [Hydb Hysel]; [apply elem_of_app; right; exact Hy|].
    apply selected_spec in Hysel as (Hyrt & _).
    assert (y = x) as ->.
    { apply (key_of_inj db); try assumption. unfold key_of. congruence. }
    apply NoDup_app in Hnd as (_ & Hdisj & _).
    apply (Hdisj x); [|exact Hy].
    apply elem_of_app. right. apply list_elem_of_singleton. reflexivity. }
  apply (StronglySorted_unique_strong ts_le).
  - intros x1 x2 H1 H2 Hle1 Hle2. unfold ts_le in *.
    apply select_rows_unlimited_elem in H1 as [H1db H1sel].
    apply selected_spec in H1sel as (H1rt & _).
    destruct (Hin x2) as [H2db H2sel]; [apply elem_of_app; right; exact H2|].
    apply selected_spec in H2sel as (H2rt & _).
    apply (key_of_inj db); try assumption. unfold key_of. f_equal; [congruence | lia].
  - apply select_rows_sorted_any.
  - apply StronglySorted_app_1_r in Hs. exact Hs.
  - apply NoDup_Permutation.
    + apply select_rows_NoDup, Hk.
    + apply NoDup_app in Hnd as (_ & _ & Hnd). exact Hnd.
    + intros y. rewrite select_rows_unlimited_elem. split.
      * intros [Hydb Hysel].
        apply selected_spec in Hysel as (Hyrt & Hys & Hymax).
        assert (Hy : y ∈ (front ++ [x]) ++ rest).
        { rewrite <- HL. apply select_rows_unlimited_elem. split; [exact Hydb|].
          apply selected_spec. repeat split; try assumption. lia. }
        apply elem_of_app in Hy as [Hy|Hy]; [|exact Hy].
        apply Hfront in Hy. lia.
      * intros Hy. destruct (Hin y) as [Hydb Hysel]; [apply elem_of_app; right; exact Hy|].
        split; [exact Hydb|].
        apply selected_spec in Hysel as (Hyrt & _ & Hymax).
        apply selected_spec. repeat split; try assumption. apply Hrest, Hy.
Qed.

(** X6. Paging through the archive loses and repeats nothing. When no
    two rows of the table share record type and timestamp, and a fetch
    with a limit [n >= 0] returns a page whose last reading is at [s']
    whole seconds, the fetch without a limit is that page followed by the
    fetch from [since_ts = s']. *)
Theorem fetch_archive_next_page (db : list Row) (since_ts s' n : Z)
    (max_ts : option Z) (front : list Reading) (last_reading : Reading) :
  keys_unique db ->
  0 ≤ n ->
  fetch_archive_readings since_ts max_ts (Some n) db = front ++ [last_reading] ->
  measurementTime last_reading = VDatetime (s' * 1000000) ->
  fetch_archive_readings since_ts max_ts None db
  = (front ++ [last_reading]) ++ fetch_archive_readings s' max_ts None db.
Proof.
  intros Hk Hn Hpage Hlast.
  unfold fetch_archive_readings, fetch_readings in *.
  rewrite select_rows_limit in Hpage.
  destruct (Z.ltb_spec n 0) as [?|_]; [lia|].
  set (L := select_rows RecordType.ARCHIVE since_ts max_ts None db) in *.
  change (map create_reading_from_row) with (fmap (M:=list) create_reading_from_row) in *.
  pose proof Hpage as Hrows.
  apply fmap_app_inv in Hrows as (rf & rl & Hf & Hl & Htake).
  destruct rl as [|x rl]; [discriminate|]. destruct rl; [|discriminate].
  injection Hl as Hl.
  assert (HL : L = (rf ++ [x]) ++ drop (Z.to_nat n) L).
  { rewrite <- Htake. symmetry. apply take_drop. }
  assert (Hx : row_timestamp x = s' * 1000000).
  { rewrite Hl in Hlast. simpl in Hlast. congruence. }
  rewrite (select_rows_next_page _ _ _ _ _ _ _ _ Hk HL Hx).
  rewrite <- Hpage, <- fmap_app, take_drop. reflexivity.
Qed.

End FetchPages.

Lemma fetch_archive_next_page_witness :
  fetch_archive_readings 0 None None sample_archive_table
  = fetch_archive_readings 0 None (Some 1) sample_archive_table
    ++ fetch_archive_readings 300 None None sample_archive_table.
Proof.
  refine (fetch_archive_next_page sample_archive_table 0 300 1 None []
            (create_test_reading 300000000) _ _ eq_refl eq_refl).
  - unfold keys_unique.
    change (map key_of sample_archive_table)
      with [(RecordType.ARCHIVE, 600000000); (RecordType.ARCHIVE, 300000000)].
    apply NoDup_cons. split; [|apply NoDup_singleton].
    intros H. apply list_elem_of_singleton in H. discriminate.
  - lia.
Defined.

Section EarliestTimestamp.

Context `{sqlite_impl : !Sqlite}.

(** ** The earliest archive timestamp *)

(** X7. [get_earliest_timestamp_as_json] reports the least timestamp of
    the archive rows of the table, and no timestamp exactly when the
    table has no archive row. *)
Theorem get_earliest_timestamp_spec (db : list Row) :
  match get_earliest_timestamp db with
  | Some t =>
      (exists row, row ∈ db /\ record_type row = RecordType.ARCHIVE /\
                   row_timestamp row = t) /\
      forall row, row ∈ db -> record_type row = RecordType.ARCHIVE ->
                  t ≤ row_timestamp row
  | None => forall row, row ∈ db -> record_type row <> RecordType.ARCHIVE
  end.
Proof.
  unfold get_earliest_timestamp.
  pose proof (merge_sort_Permutation ts_le (rows_of RecordType.ARCHIVE db)) as Hp.
  pose proof (@StronglySorted_merge_sort _ ts_le _ ts_le_trans ts_le_total
                (rows_of RecordType.ARCHIVE db)) as Hs.
  destruct (merge_sort ts_le (rows_of RecordType.ARCHIVE db)) as [|x l].
  - simpl. intros row Hrow Hty.
    assert (Hin : row ∈ rows_of RecordType.ARCHIVE db).
    { apply list_elem_of_filter. split; assumption. }
    rewrite <- Hp in Hin. inversion Hin.
  - simpl. split.
    + exists x.
      assert (Hin : x ∈ rows_of RecordType.ARCHIVE db).
      { rewrite <- Hp. apply elem_of_cons. left. reflexivity. }
      apply list_elem_of_filter in Hin as [Hty Hin].
      split; [exact Hin|]. split; [exact Hty | reflexivity].
    + intros row Hrow Hty.
      assert (Hin : row ∈ x :: l).
      { rewrite Hp. apply list_elem_of_filter. split; assumption. }
      apply elem_of_cons in Hin as [->|Hin]; [lia|].
      apply StronglySorted_inv in Hs as [_ Hall].
      rewrite Forall_forall in Hall. apply (Hall row), Hin.
Qed.

End EarliestTimestamp.

Section ArchiveTwice.

Context `{sqlite_impl : !Sqlite}.

(** ** C5 *)

(** What an unlimited fetch of the archive returns, up to the order. *)
Lemma fetch_archive_perm (since_ts : Z) (db : list Row) :
  fetch_archive_readings since_ts None None db
  ≡ₚ map create_reading_from_row
       (filter (fun row => selected RecordType.ARCHIVE since_ts None row = true) db).
Proof.
  unfold fetch_archive_readings, fetch_readings. rewrite select_rows_unlimited.
  apply Permutation_map, merge_sort_Permutation.
Qed.

(** Two readings in the order of their times are the only sorted list
    of the two. *)
Lemma sorted_pair (a b : Reading) (ta tb : Z) (l : list Reading) :
  measurementTime a = VDatetime ta ->
  measurementTime b = VDatetime tb ->
  ta < tb ->
  l ≡ₚ [a; b] ->
  StronglySorted time_le l ->
  l = [a; b].
Proof.
  intros Ha Hb Hlt Hp Hs. symmetry in Hp.
  apply Permutation_length_2_inv in Hp as [-> | ->]; [reflexivity|].
  exfalso. apply StronglySorted_inv in Hs as [_ Hall].
  apply Forall_inv in Hall. unfold time_le in Hall.
  rewrite Ha, Hb in Hall. lia.
Qed.


End ArchiveTwice.


(** ** More on is_sane *)

(** A reading of the declared types whose time is not too far is
    accepted. *)
Lemma is_sane_accepts (now t : Z) (r : Reading) :
  measurementTime r = VDatetime t ->
  too_far now t = false ->
  declared_types r = true ->
  is_sane now r = (true, ""%string).
Proof.
  intros Hmt Hnear Htyped. unfold is_sane. rewrite Hmt. cbv zeta.
  unfold too_far in Hnear. rewrite Hnear.
  unfold declared_types, channels_typed in Htyped.
  cbn [forallb all_channels chan] in Htyped.
  repeat match goal with
  | H : _ && _ = true |- _ => apply andb_prop in H as [? ?]
  end.
  repeat match goal with
  | H : str_or_none ?v = true |- _ =>
      rewrite (present_not_str v H); clear H
  | H : int_or_none ?v = true |- _ =>
      rewrite (present_not_int v H); clear H
  | H : float_or_none ?v = true |- _ =>
      rewrite (present_not_float v H); clear H
  end.
  reflexivity.
Qed.

(** X8. [is_sane] accepts a reading only if its measurementTime is a
    datetime whose timestamp and the clock's, as floats, are at most 20.0
    apart, and every field, where present, has its declared type; and the
    reason it returns is empty exactly when it accepts. *)
Theorem is_sane_accepts_only (now : Z) (r : Reading) :
  (fst (is_sane now r) = true ->
   exists t, measurementTime r = VDatetime t /\
             too_far now t = false /\
             declared_types r = true) /\
  (fst (is_sane now r) = true <-> snd (is_sane now r) = ""%string).
Proof.
  split.
  - intros H. pose proof (is_sane_sound now r H) as Hs.
    unfold sane_reading in Hs. apply andb_prop in Hs as [Hdt Hty].
    destruct (measurementTime r) as [| | | | |t| |] eqn:Hmt; try discriminate.
    exists t. split; [reflexivity|]. split; [|exact Hty].
    unfold is_sane in H. rewrite Hmt in H. cbv zeta in H. unfold too_far.
    destruct (PrimFloat.ltb _ _); [discriminate | reflexivity].
  - unfold is_sane. destruct (measurementTime r);
      try (split; discriminate).
    cbv zeta. destruct (PrimFloat.ltb _ _); [split; discriminate|].
    repeat match goal with
    | |- context [if present_not ?f ?v then _ else _] =>
        destruct (present_not f v); [split; discriminate|]
    end.
    split; reflexivity.
Qed.

Lemma is_sane_accepts_only_witness :
  fst (is_sane 1700000005000000 (create_test_reading 1700000000000000)) = true /\
  exists t, measurementTime (create_test_reading 1700000000000000) = VDatetime t /\
            too_far 1700000005000000 t = false /\
            declared_types (create_test_reading 1700000000000000) = true.
Proof.
  split; [vm_compute; reflexivity|].
  apply (proj1 (is_sane_accepts_only 1700000005000000
                  (create_test_reading 1700000000000000))).
  vm_compute. reflexivity.
Defined.

(** ** More on parse_response *)

Lemma float_field_inv (items : list (string * pyval)) (key : string) (v' : pyval) :
  float_field (VDict items) key = Ok v' ->
  exists v, assoc key items = Some v /\
            ((v = VNone /\ v' = VNone) \/
             (exists f, py_float v = Ok f /\ v' = VFloat f)).
Proof.
  unfold float_field, getitem. destruct (assoc key items) as [v|]; [|discriminate].
  cbn [bind]. intros H. exists v. split; [reflexivity|].
  destruct v; cbn [is_none negb bind] in H;
    try (left; split; [reflexivity | congruence]);
    right;
    (destruct (py_float _) as [x|e] eqn:E; [|discriminate]);
    cbn [bind] in H; exists x; (split; [reflexivity | congruence]).
Qed.

Lemma getitem_inv (items : list (string * pyval)) (key : string) (v : pyval) :
  getitem (VDict items) key = Ok v -> assoc key items = Some v.
Proof.
  unfold getitem. destruct (assoc key items); [congruence | discriminate].
Qed.

(** X9. In a reading that [parse_response] returns, the time is the
    clock's, each of the 23 channels comes from the key of its own name
    (absent for a null, else the [float] of the value) and serialno, boot,
    bootCount, ledMode, firmware and model are the payload's values as
    they are. *)
Theorem parse_response_fields (items : list (string * pyval)) (now : Z) (r : Reading) :
  parse_response (Ok (VDict items)) now = Ok r ->
  measurementTime r = VDatetime now /\
  (forall c, exists v,
     assoc (channel_name c) items = Some v /\
     ((v = VNone /\ chan c r = VNone) \/
      (exists f, py_float v = Ok f /\ chan c r = VFloat f))) /\
  assoc "serialno" items = Some (serialno r) /\
  assoc "boot" items = Some (boot r) /\
  assoc "bootCount" items = Some (bootCount r) /\
  assoc "ledMode" items = Some (ledMode r) /\
  assoc "firmware" items = Some (firmware r) /\
  assoc "model" items = Some (model r).
Proof.
  unfold parse_response. cbn [bind]. intros H.
  repeat inv_bind H.
  repeat match goal with
  | H : float_field _ _ = Ok _ |- _ => apply float_field_inv in H
  | H : getitem _ _ = Ok _ |- _ => apply getitem_inv in H
  end.
  injection H as <-. cbn.
  split; [reflexivity|]. split; [|repeat split; assumption].
  intros c. destruct c; cbn [chan channel_name]; assumption.
Qed.

Lemma parse_response_fields_witness :
  exists r, parse_response (Ok (VDict sample_one_items)) 1700000000000000 = Ok r /\
            measurementTime r = VDatetime 1700000000000000.
Proof.
  destruct (parse_response (Ok (VDict sample_one_items)) 1700000000000000)
    as [r|e] eqn:E.
  - exists r. split; [reflexivity|].
    exact (proj1 (parse_response_fields sample_one_items 1700000000000000 r E)).
  - vm_compute in E. discriminate.
Defined.

Lemma float_field_typed (j : pyval) (key : string) (v : pyval) :
  float_field j key = Ok v -> float_or_none v = true.
Proof.
  unfold float_field. intros H.
  apply bind_ok in H as (x & _ & H).
  destruct (negb (is_none x)); [|injection H as <-; reflexivity].
  apply bind_ok in H as (x' & _ & H).
  apply bind_ok in H as (f & _ & H).
  injection H as <-. reflexivity.
Qed.

(** What [parse_response] returns has the clock's time and typed channels. *)
Lemma parse_response_typed (response_json : result pyval) (now : Z) (r : Reading) :
  parse_response response_json now = Ok r ->
  measurementTime r = VDatetime now /\ channels_typed r = true.
Proof.
  unfold parse_response. intros H.
  repeat inv_bind H.
  repeat match goal with
  | H : float_field _ _ = Ok _ |- _ => apply float_field_typed in H
  end.
  injection H as <-. split; [reflexivity|].
  unfold channels_typed. apply forallb_forall. intros c _.
  destruct c; assumption.
Qed.

(** X10. Of a reading that [parse_response] has just built, [is_sane]
    can only refuse the time or one of serialno, boot, bootCount, ledMode,
    firmware and model: when the reading's timestamp and the clock's, as
    floats, are at most 20.0 apart, it is accepted exactly when those six
    fields, where present, have their declared types. None of the 23
    channel checks can fail. *)
Theorem parse_then_is_sane (response_json : result pyval) (t now : Z) (r : Reading) :
  parse_response response_json t = Ok r ->
  too_far now t = false ->
  is_sane now r = (true, ""%string)
  <-> str_or_none (serialno r) && int_or_none (boot r) && int_or_none (bootCount r)
      && str_or_none (ledMode r) && str_or_none (firmware r)
      && str_or_none (model r) = true.
Proof.
  intros Hparse Hnear.
  destruct (parse_response_typed _ _ _ Hparse) as [Hmt Hch].
  split.
  - intros H.
    assert (Hs : sane_reading r = true).
    { apply (is_sane_sound now). rewrite H. reflexivity. }
    unfold sane_reading, declared_types in Hs.
    repeat match goal with
    | H : _ && _ = true |- _ => apply andb_prop in H as [? ?]
    end.
    repeat (apply andb_true_intro; split); assumption.
  - intros H. apply (is_sane_accepts now t); [exact Hmt | exact Hnear|].
    unfold declared_types. rewrite Hch.
    repeat match goal with
    | H : _ && _ = true |- _ => apply andb_prop in H as [? ?]
    end.
    repeat (apply andb_true_intro; split); try assumption; reflexivity.
Qed.

Lemma parse_then_is_sane_witness :
  exists r,
    parse_response (Ok sample_one_null_rco2) 1700000000000000 = Ok r /\
    is_sane 1700000001000000 r = (true, ""%string).
Proof.
  destruct (parse_response (Ok sample_one_null_rco2) 1700000000000000)
    as [r|e] eqn:E.
  - exists r. split; [reflexivity|].
    apply (proj2 (parse_then_is_sane (Ok sample_one_null_rco2)
                    1700000000000000 1700000001000000 r E eq_refl)).
    vm_compute in E. injection E as <-. reflexivity.
  - vm_compute in E. discriminate.
Defined.

Lemma float_field_number (items : list (string * pyval)) (key : string) (v : pyval) :
  assoc key items = Some v ->
  number_or_null v = true ->
  exists v', float_field (VDict items) key = Ok v'.
Proof.
  intros Hk Hv. unfold float_field, getitem. rewrite Hk. cbn [bind].
  destruct v; try discriminate; cbn [is_none negb bind py_float]; eauto.
  simpl in Hv. destruct (int_to_float z); [cbn [bind]; eauto | discriminate].
Qed.

(** X11. [parse_response] returns a reading for every payload that is a
    JSON object with the 29 keys it reads in which each channel value is
    null or a number (a float, a bool, or an int in the range of the
    floats); the values of serialno, boot, bootCount, ledMode, firmware and
    model can be anything. *)
Theorem parse_response_total (items : list (string * pyval)) (now : Z) :
  payload_ok items = true ->
  exists r, parse_response (Ok (VDict items)) now = Ok r.
Proof.
  unfold payload_ok. cbn [forallb identity_keys all_channels channel_name].
  intros H.
  repeat match goal with
  | H : _ && _ = true |- _ => apply andb_prop in H as [? ?]
  end.
  repeat match goal with
  | H : bool_decide (is_Some (assoc ?k items)) = true |- _ =>
      apply bool_decide_eq_true in H; destruct H as [? H];
      assert (getitem (VDict items) k = Ok _) by (unfold getitem; rewrite H; reflexivity);
      clear H
  | H : match assoc ?k items with Some _ => _ | None => _ end = true |- _ =>
      let v := fresh "v" in
      let E := fresh "E" in
      destruct (assoc k items) as [v|] eqn:E; [|discriminate];
      destruct (float_field_number items k v E H);
      clear E H
  end.
  unfold parse_response. cbn [bind].
  repeat (eapply bind_ok_intro; [eassumption | cbv beta]).
  eexists. reflexivity.
Qed.

Lemma parse_response_total_witness :
  exists r,
    parse_response (Ok (VDict sample_one_items)) 1700000000000000 = Ok r.
Proof.
  apply (parse_response_total sample_one_items 1700000000000000).
  vm_compute. reflexivity.
Defined.

(** ** compute_avg on any readings *)

Lemma div_opt_out (v : pyval) (n : Z) (v' : pyval) :
  div_opt v n = Ok v' -> float_or_none v' = true.
Proof.
  unfold div_opt. destruct (negb (is_none v)); [|intros [= <-]; reflexivity].
  unfold py_truediv. destruct (as_num v); [|discriminate].
  intros H. apply bind_ok in H as (f & _ & H).
  destruct (n =? 0); [discriminate|]. injection H as <-. reflexivity.
Qed.

(** X12. Whatever the fields of the readings hold, an average that
    [compute_avg] returns has the measurementTime and the serialno, boot,
    bootCount, ledMode, firmware and model of the last reading of the
    list, and each of its 23 channels is a float or None (never an int,
    also when the readings hold ints); the list was not empty. *)
Theorem compute_avg_any_input (readings : list Reading) (avg : Reading) :
  compute_avg readings = Ok avg ->
  readings <> [] /\
  (forall d, measurementTime avg = measurementTime (List.last readings d) /\
             identity_fields avg = identity_fields (List.last readings d)) /\
  channels_typed avg = true.
Proof.
  intros H. destruct readings as [|first rest]; [discriminate|].
  split; [discriminate|].
  unfold compute_avg in H. apply bind_ok in H as (summed & Hs & Hd).
  destruct (sum_readings_identity _ _ _ Hs) as [Ht Hi].
  destruct (divide_identity _ _ _ Hd) as [Ht' Hi'].
  split.
  - intros d. rewrite last_cons. split; congruence.
  - unfold channels_typed. apply forallb_forall. intros c _.
    apply (div_opt_out (chan c summed) (Z.of_nat (length (first :: rest)))).
    apply (divide_chan _ _ _ Hd).
Qed.

Lemma compute_avg_any_input_witness :
  exists avg,
    compute_avg sample_int_readings = Ok avg /\
    channels_typed avg = true.
Proof.
  destruct (compute_avg sample_int_readings) as [avg|e] eqn:E.
  - exists avg. split; [reflexivity|].
    exact (proj2 (proj2 (compute_avg_any_input sample_int_readings avg E))).
  - vm_compute in E. discriminate.
Defined.

Lemma sum_chan_ints (xs : list Z) :
  forall a, sum_chan (VInt a) (map VInt xs) = Ok (VInt (a + fold_right Z.add 0 xs)).
Proof.
  induction xs as [|x xs IH]; intros a; simpl.
  - f_equal. f_equal. lia.
  - rewrite IH. f_equal. f_equal. lia.
Qed.

(** X13. A channel that holds an int in every reading (as the readings
    of [create_test_reading] do) is summed exactly, as an int; the
    average is the float of that sum divided by the float of the number
    of readings. *)
Theorem compute_avg_int_channel (readings : list Reading) (avg : Reading)
    (c : channel) (zs : list Z) :
  compute_avg readings = Ok avg ->
  map (chan c) readings = map VInt zs ->
  chan c avg
  = VFloat (PrimFloat.div (float_of_Z (fold_right Z.add 0 zs))
                          (float_of_Z (Z.of_nat (length readings)))).
Proof.
  intros H Hc. destruct readings as [|first rest]; [discriminate|].
  unfold compute_avg in H. apply bind_ok in H as (summed & Hs & Hd).
  pose proof (sum_readings_chan _ _ _ Hs c) as Hsum.
  pose proof (divide_chan _ _ _ Hd c) as Hdiv.
  destruct zs as [|z zs]; [discriminate|].
  simpl in Hc. injection Hc as Hz Hzs.
  rewrite Hz, Hzs, sum_chan_ints in Hsum. injection Hsum as Hsum.
  rewrite <- Hsum in Hdiv. unfold div_opt, py_truediv in Hdiv.
  cbn [is_none negb as_num num_to_float] in Hdiv.
  unfold int_to_float in Hdiv.
  destruct (is_infinity _); [discriminate|]. cbn [bind] in Hdiv.
  destruct (_ =? 0); [discriminate|].
  injection Hdiv as <-. reflexivity.
Qed.

Lemma compute_avg_int_channel_witness :
  exists avg,
    compute_avg sample_int_readings = Ok avg /\
    wifi avg = VFloat (PrimFloat.div (float_of_Z (-143)) (float_of_Z 2)).
Proof.
  destruct (compute_avg sample_int_readings) as [avg|e] eqn:E.
  - exists avg. split; [reflexivity|].
    exact (compute_avg_int_channel sample_int_readings avg Cwifi [-71; -72] E eq_refl).
  - vm_compute in E. discriminate.
Defined.

(** ** The scheduler for any intervals *)

(** The wake that [compute_next_event] plans: the first multiple of the
    poll interval after [now]. *)
Lemma compute_next_event_wait (self : Service) (first_time : bool) (now : Q) :
  0 < pollfreq_secs self ->
  0 < arcint_secs self ->
  (0 <= now)%Q ->
  let fl := Qfloor now in
  let next_poll := fl / pollfreq_secs self * pollfreq_secs self + pollfreq_secs self in
  let next_archive := fl / arcint_secs self * arcint_secs self + arcint_secs self in
  compute_next_event self first_time now
  = Ok (if next_poll =? next_archive then ARCHIVE else POLL,
        (inject_Z next_poll - now + inject_Z (pollfreq_offset self))%Q) /\
  fl + 1 ≤ next_poll ≤ fl + pollfreq_secs self /\
  (now < inject_Z next_poll)%Q /\
  (inject_Z next_poll <= now + inject_Z (pollfreq_secs self))%Q.
Proof.
  intros HP HA Hnow fl next_poll next_archive.
  destruct self as [P off A]. cbn [pollfreq_secs arcint_secs pollfreq_offset] in *.
  destruct (Qtrunc_div now P Hnow HP) as [HdP HtP].
  destruct (Qtrunc_div now A Hnow HA) as [HdA HtA].
  assert (Hq1 : (now < inject_Z (fl + 1))%Q) by apply Qlt_floor.
  assert (Hq2 : (inject_Z fl <= now)%Q) by apply Qfloor_le.
  pose proof (Z.div_mod fl P ltac:(lia)) as HfP.
  pose proof (Z.mod_pos_bound fl P HP) as HbP.
  assert (Hlo : fl + 1 ≤ next_poll) by (unfold next_poll; clear - HP HfP HbP; lia).
  assert (Hhi : next_poll ≤ fl + P) by (unfold next_poll; clear - HP HfP HbP; lia).
  split.
  { unfold compute_next_event. cbn [pollfreq_secs arcint_secs pollfreq_offset].
    rewrite HdP. cbn [bind]. rewrite HdA. cbn [bind].
    rewrite HtP, HtA. reflexivity. }
  split; [split; assumption|].
  split.
  - apply Qlt_le_trans with (inject_Z (fl + 1)); [exact Hq1|].
    rewrite <- Zle_Qle. exact Hlo.
  - apply Qle_trans with (inject_Z (fl + P)); [rewrite <- Zle_Qle; exact Hhi|].
    rewrite inject_Z_plus. apply Qplus_le_compat; [exact Hq2 | apply Qle_refl].
Qed.



(** ** trim_two_minute_readings *)

(** X15. [trim_two_minute_readings] removes a front segment of the
    list and nothing else: every reading removed is older than two
    minutes, and the first reading kept, if any, is not. It stops at the
    first reading that is recent enough; when the readings are in the
    order of their times, every reading kept is at most two minutes old. *)
Theorem trim_two_minute_readings_spec (now : Z) (rs rs' : list Reading) :
  trim_two_minute_readings now rs = Ok rs' ->
  exists dropped,
    rs = dropped ++ rs' /\
    Forall (fun r => exists t, measurementTime r = VDatetime t /\
                               t < now - 120 * 1000000) dropped /\
    (forall r, head rs' = Some r ->
               exists t, measurementTime r = VDatetime t /\
                         now - 120 * 1000000 ≤ t) /\
    (StronglySorted time_le rs ->
     Forall (fun r => exists t, measurementTime r = VDatetime t /\
                                now - 120 * 1000000 ≤ t) rs').
Proof.
  revert rs'. induction rs as [|r rs IH]; intros rs' H; simpl in H.
  - injection H as <-. exists []. repeat split; try constructor.
    intros r [=].
  - destruct (measurementTime r) as [| | | | |t| |] eqn:Hmt; try discriminate.
    destruct (Z.ltb_spec t (now - 120 * 1000000)) as [Hold|Hnew].
    + destruct (IH rs' H) as (dropped & -> & Hd & Hh & Hs).
      exists (r :: dropped). split; [reflexivity|].
      split; [constructor; [eauto | exact Hd]|].
      split; [exact Hh|].
      intros Hsorted. apply Hs. apply StronglySorted_inv in Hsorted as [Hsorted _].
      exact Hsorted.
    + injection H as <-. exists []. split; [reflexivity|].
      split; [constructor|].
      split; [intros r' [= <-]; eauto|].
      intros Hsorted. apply StronglySorted_inv in Hsorted as [_ Hall].
      constructor; [eauto|].
      eapply Forall_impl; [exact Hall|].
      intros x Hx. unfold time_le in Hx. rewrite Hmt in Hx.
      destruct (measurementTime x) as [| | | | |tx| |]; try contradiction.
      exists tx. split; [reflexivity | lia].
Qed.

Lemma trim_two_minute_readings_spec_witness :
  exists dropped,
    [create_test_reading 1700000000000000; create_test_reading 1700000090000000]
    = dropped ++ [create_test_reading 1700000090000000].
Proof.
  destruct (trim_two_minute_readings_spec 1700000130000000
              [create_test_reading 1700000000000000;
               create_test_reading 1700000090000000]
              [create_test_reading 1700000090000000] eq_refl)
    as (dropped & Heq & _).
  exists dropped. exact Heq.
Defined.

Section LoopTotal.

Context `{sqlite_impl : !Sqlite}.

(** ** The loop never stops on an error *)

Lemma two_minute_phase_total (c : Cycle) (st : LoopState) :
  windows_sane st -> exists st', two_minute_phase c st = Ok st'.
Proof.
  intros [_ Ht]. unfold two_minute_phase.
  destruct (two_minute_readings st) as [|first rest] eqn:E; [eauto|].
  destruct (compute_avg_total (first :: rest)) as [avg Havg];
    [discriminate | apply Forall_sane_typed, Ht|].
  rewrite Havg. cbn [bind]. eauto.
Qed.

Lemma archive_phase_total (self : Service) (c : Cycle) (ev : Event) (st : LoopState) :
  arcint_secs self <> 0 ->
  windows_sane st ->
  exists st', archive_phase self c ev st = Ok st'.
Proof.
  intros HA [Ha _]. unfold archive_phase. destruct ev; [eauto|].
  destruct (archive_readings st) as [|first rest] eqn:E; [eauto|].
  destruct (compute_avg_total (first :: rest)) as [avg Havg];
    [discriminate | apply Forall_sane_typed, Ha|].
  unfold archive_reading, archive_timestamp. rewrite Havg. cbn [bind].
  destruct (Z.eqb_spec (arcint_secs self) 0) as [?|_]; [contradiction|].
  cbn [bind]. destruct (store_write _ _ _); eauto.
Qed.

Lemma two_minute_phase_sane (c : Cycle) (st st' : LoopState) :
  windows_sane st -> two_minute_phase c st = Ok st' -> windows_sane st'.
Proof.
  intros [Ha Ht] H. apply two_minute_phase_windows in H as [E1 E2].
  split; congruence.
Qed.

(** A turn of the loop ends, from a state whose windows hold accepted
    readings. *)
Lemma do_loop_turn_total (self : Service) (c : Cycle) (st : LoopState) :
  0 < pollfreq_secs self ->
  0 < arcint_secs self ->
  0 ≤ pollfreq_offset self ->
  (0 <= time_now c)%Q ->
  windows_sane st ->
  exists st', do_loop_turn self c st = Ok st'.
Proof.
  intros HP HA Hoff Hnow Hs. unfold do_loop_turn.
  assert (Hev : exists ev,
            (if first_time st then Ok POLL
             else
               es <- compute_next_event self (first_time st) (time_now c) ;;
               if Qgtb 0 (snd es) then Err ValueError else Ok (fst es)) = Ok ev).
  { destruct (first_time st); [eauto|].
    destruct (compute_next_event_wait self false (time_now c) HP HA Hnow)
      as (Hev & _ & Hlt & _).
    rewrite Hev. cbn [bind snd fst].
    match goal with
    | |- context [Qgtb 0 ?s] =>
        assert (Hpos : Qgtb 0 s = false)
    end.
    { unfold Qgtb. apply negb_false_iff, Qle_bool_iff.
      apply Qle_trans with (0 + inject_Z (pollfreq_offset self))%Q.
      - rewrite Qplus_0_l. change 0%Q with (inject_Z 0). rewrite <- Zle_Qle. exact Hoff.
      - apply Qplus_le_compat; [|apply Qle_refl].
        unfold Qminus. rewrite <- Qle_minus_iff. apply Qlt_le_weak, Hlt. }
    rewrite Hpos. eauto. }
  destruct Hev as [ev ->]. cbn [bind].
  destruct Hs as [Ha Ht].
  destruct (trim_total (trim_now c) _ Ht) as [trimmed Htrim].
  rewrite Htrim. cbn [bind].
  pose proof (trim_sane _ _ _ Htrim Ht) as Ht'.
  match goal with
  | |- context [two_minute_phase c (collect_phase c ?s)] =>
      assert (Hc : windows_sane (collect_phase c s))
        by (apply collect_phase_sane; split; assumption)
  end.
  destruct (two_minute_phase_total c _ Hc) as [st2 Htwo].
  rewrite Htwo. cbn [bind].
  apply archive_phase_total; [lia|].
  eapply two_minute_phase_sane; eassumption.
Qed.


End LoopTotal.


Section LoopTable.

Context `{sqlite_impl : !Sqlite}.

(** ** The table through the loop *)

(** Whatever holds from one table to the next across every save holds
    across a turn of the loop. *)
Lemma do_loop_turn_saves (R : list Row -> list Row -> Prop) :
  (forall db, R db db) ->
  (forall a b c, R a b -> R b c -> R a c) ->
  (forall rt r db db', save_reading rt r db = Ok db' -> R db db') ->
  forall self c st st',
    do_loop_turn self c st = Ok st' -> R (database st) (database st').
Proof.
  intros Hrefl Htrans Hsave self c st st' H. unfold do_loop_turn in H.
  apply bind_ok in H as (ev & _ & H).
  apply bind_ok in H as (trimmed & _ & H).
  apply bind_ok in H as (st2 & Htwo & H).
  match type of Htwo with
  | two_minute_phase c (collect_phase c ?s) = _ => set (st0 := s) in *
  end.
  assert (H1 : R (database st0) (database (collect_phase c st0))).
  { unfold collect_phase.
    destruct (collect_data (response c) (read_now c)) as [reading|e]; [|apply Hrefl].
    destruct (is_sane (sane_now c) reading) as [[] reason]; [|apply Hrefl].
    cbn [database]. unfold store_write.
    destruct (fault_current c); [apply Hrefl|].
    destruct (save_current_reading reading (database st0)) as [db'|e] eqn:E;
      [|apply Hrefl].
    exact (Hsave _ _ _ _ E). }
  assert (H2 : R (database (collect_phase c st0)) (database st2)).
  { clear H. unfold two_minute_phase in Htwo.
    destruct (two_minute_readings (collect_phase c st0));
      [injection Htwo as <-; apply Hrefl|].
    apply bind_ok in Htwo as (avg & _ & Htwo). injection Htwo as <-.
    cbn [database]. unfold store_write.
    destruct (fault_two_minute c); [apply Hrefl|].
    match goal with
    | |- context [save_two_minute_reading ?x ?d] =>
        destruct (save_two_minute_reading x d) as [db'|e] eqn:E; [|apply Hrefl]
    end.
    exact (Hsave _ _ _ _ E). }
  assert (H3 : R (database st2) (database st')).
  { unfold archive_phase in H. destruct ev; [injection H as <-; apply Hrefl|].
    destruct (archive_readings st2); [injection H as <-; apply Hrefl|].
    apply bind_ok in H as (avg & _ & H). unfold store_write in H.
    destruct (fault_archive c); [injection H as <-; apply Hrefl|].
    destruct (save_archive_reading avg (database st2)) as [db'|e] eqn:E;
      injection H as <-; [|apply Hrefl].
    exact (Hsave _ _ _ _ E). }
  change (database st) with (database st0).
  eapply Htrans; [eapply Htrans|]; eassumption.
Qed.

Lemma do_loop_from_saves (R : list Row -> list Row -> Prop) :
  (forall db, R db db) ->
  (forall a b c, R a b -> R b c -> R a c) ->
  (forall rt r db db', save_reading rt r db = Ok db' -> R db db') ->
  forall self cycles st st',
    do_loop_from self cycles st = Ok st' -> R (database st) (database st').
Proof.
  intros Hrefl Htrans Hsave self cycles.
  induction cycles as [|c cycles IH]; intros st st' H; simpl in H.
  - injection H as <-. apply Hrefl.
  - apply bind_ok in H as (st1 & Hturn & H).
    eapply Htrans; [|apply IH, H].
    exact (do_loop_turn_saves R Hrefl Htrans Hsave _ _ _ _ Hturn).
Qed.

Lemma save_reading_archive_prefix (rt : Z) (r : Reading) (db db' : list Row) :
  save_reading rt r db = Ok db' ->
  rows_of RecordType.ARCHIVE db `prefix_of` rows_of RecordType.ARCHIVE db'.
Proof.
  intros H. destruct (decide (rt = RecordType.ARCHIVE)) as [->|Hne].
  - apply save_reading_inv in H as (row & _ & ->).
    rewrite rows_of_app. apply prefix_app_r. reflexivity.
  - rewrite (save_reading_rows_of _ _ _ _ _ H); [reflexivity | congruence].
Qed.

(** X17. Over any run of the loop the table keeps its primary key and
    its archive: if no two rows shared record type and timestamp when the
    loop started, none do after any number of turns, and the archive rows
    the table had are still there, in their order, before the rows the
    loop has added. The loop never deletes or rewrites an archive row. *)
Theorem do_loop_keeps_table (self : Service) (cycles : list Cycle)
    (db : list Row) (st : LoopState) :
  do_loop_from self cycles (initial_state db) = Ok st ->
  (keys_unique db -> keys_unique (database st)) /\
  rows_of RecordType.ARCHIVE db `prefix_of` rows_of RecordType.ARCHIVE (database st).
Proof.
  intros H. split.
  - exact (do_loop_from_saves (fun a b => keys_unique a -> keys_unique b)
             (fun _ Ha => Ha)
             (fun _ _ _ Hab Hbc Ha => Hbc (Hab Ha))
             (fun rt r a b Hsave Ha => save_reading_keys rt r a b Ha Hsave)
             _ _ _ _ H).
  - refine (do_loop_from_saves
              (fun a b => rows_of RecordType.ARCHIVE a
                          `prefix_of` rows_of RecordType.ARCHIVE b)
              _ _ save_reading_archive_prefix _ _ _ _ H).
    + reflexivity.
    + intros a b c Hab Hbc. etransitivity; eassumption.
Qed.

End LoopTable.

Lemma do_loop_keeps_table_witness :
  exists st,
    do_loop_from sample_service [sample_cycle false] (initial_state []) = Ok st /\
    keys_unique (database st).
Proof.
  destruct (do_loop_from sample_service [sample_cycle false] (initial_state []))
    as [st|e] eqn:E.
  - exists st. split; [reflexivity|].
    apply (proj1 (do_loop_keeps_table sample_service [sample_cycle false] [] st E)).
    apply NoDup_nil_2.
  - vm_compute in E. discriminate.
Defined.

Section TurnOutcome.

Context `{sqlite_impl : !Sqlite}.

(** ** What a turn does with the answer of the sensor *)

Lemma two_minute_phase_keeps (c : Cycle) (st st' : LoopState) :
  two_minute_phase c st = Ok st' ->
  session_open st' = session_open st /\
  forall rt, rt <> RecordType.TWO_MINUTE ->
             rows_of rt (database st') = rows_of rt (database st).
Proof.
  unfold two_minute_phase.
  destruct (two_minute_readings st); [intros [= <-]; split; reflexivity|].
  intros H. apply bind_ok in H as (avg & _ & H). injection H as <-.
  cbn [session_open database]. split; [reflexivity|]. intros rt Hrt.
  unfold store_write. destruct (fault_two_minute c); [reflexivity|].
  match goal with
  | |- context [save_two_minute_reading ?x ?d] =>
      destruct (save_two_minute_reading x d) as [db'|e] eqn:E; [|reflexivity]
  end.
  exact (save_reading_rows_of _ _ _ _ _ E Hrt).
Qed.

Lemma archive_phase_keeps (self : Service) (c : Cycle) (ev : Event)
    (st st' : LoopState) :
  archive_phase self c ev st = Ok st' ->
  session_open st' = session_open st /\
  forall rt, rt <> RecordType.ARCHIVE ->
             rows_of rt (database st') = rows_of rt (database st).
Proof.
  unfold archive_phase. destruct ev; [intros [= <-]; split; reflexivity|].
  destruct (archive_readings st); [intros [= <-]; split; reflexivity|].
  intros H. apply bind_ok in H as (avg & _ & H). unfold store_write in H.
  destruct (fault_archive c); [injection H as <-; split; reflexivity|].
  destruct (save_archive_reading avg (database st)) as [db'|e] eqn:E;
    injection H as <-; [|split; reflexivity].
  cbn [session_open database]. split; [reflexivity|]. intros rt Hrt.
  exact (save_reading_rows_of _ _ _ _ _ E Hrt).
Qed.

Lemma collect_phase_keeps (c : Cycle) (st : LoopState) (rt : Z) :
  rt <> RecordType.CURRENT ->
  rows_of rt (database (collect_phase c st)) = rows_of rt (database st).
Proof.
  intros Hrt. unfold collect_phase.
  destruct (collect_data (response c) (read_now c)) as [reading|e]; [|reflexivity].
  destruct (is_sane (sane_now c) reading) as [[] reason]; [|reflexivity].
  cbn [database]. unfold store_write.
  destruct (fault_current c); [reflexivity|].
  destruct (save_current_reading reading (database st)) as [db'|e] eqn:E;
    [|reflexivity].
  exact (save_reading_rows_of _ _ _ _ _ E Hrt).
Qed.

Lemma collect_phase_session (c : Cycle) (st : LoopState) :
  session_open (collect_phase c st)
  = is_ok (collect_data (response c) (read_now c)).
Proof.
  unfold collect_phase.
  destruct (collect_data (response c) (read_now c)) as [reading|e]; [|reflexivity].
  destruct (is_sane (sane_now c) reading) as [[] reason]; reflexivity.
Qed.

(** The current reading in the table after the read of the sensor. *)
Lemma collect_phase_current (c : Cycle) (st : LoopState) :
  (accepted c = [] -> database (collect_phase c st) = database st) /\
  (forall reading row,
     accepted c = [reading] ->
     fault_current c = false ->
     insert_row_of RecordType.CURRENT reading = Ok row ->
     rows_of RecordType.CURRENT (database (collect_phase c st)) = [row]).
Proof.
  unfold collect_phase, accepted.
  destruct (collect_data (response c) (read_now c)) as [reading|e];
    [|split; [reflexivity | discriminate]].
  destruct (is_sane (sane_now c) reading) as [[] reason]; cbn [fst];
    [|split; [reflexivity | discriminate]].
  split; [discriminate|].
  intros reading' row [= <-] Hfault Hrow. cbn [database].
  unfold store_write. rewrite Hfault.
  assert (Hsave : save_current_reading reading (database st)
                  = Ok (delete_record_type RecordType.CURRENT (database st) ++ [row])).
  { apply save_replacing; [left; reflexivity|].
    exists row. split; [exact Hrow | reflexivity]. }
  rewrite Hsave.
  destruct (save_replacing_rows _ _ _ _ (or_introl eq_refl) Hsave)
    as (row' & Hrow' & Hone & _).
  rewrite Hrow in Hrow'. injection Hrow' as <-. exact Hone.
Qed.

(** The archive branch either leaves the long window and the archive
    rows, or empties the window and appends an archive row. *)
Lemma archive_phase_window_rows (self : Service) (c : Cycle) (ev : Event)
    (st st' : LoopState) :
  archive_phase self c ev st = Ok st' ->
  (archive_readings st' = archive_readings st /\
   rows_of RecordType.ARCHIVE (database st')
   = rows_of RecordType.ARCHIVE (database st)) \/
  (archive_readings st' = [] /\
   exists row,
     rows_of RecordType.ARCHIVE (database st')
     = rows_of RecordType.ARCHIVE (database st) ++ [row]).
Proof.
  unfold archive_phase. destruct ev; [intros [= <-]; left; auto|].
  destruct (archive_readings st) eqn:Ew; [intros [= <-]; left; auto|].
  intros H. apply bind_ok in H as (avg & _ & H). unfold store_write in H.
  destruct (fault_archive c); [injection H as <-; left; auto|].
  destruct (save_archive_reading avg (database st)) as [db'|e] eqn:E;
    injection H as <-; [|left; auto].
  right. split; [reflexivity|]. cbn [database].
  apply save_archive_inv in E as (row & Hrow & -> & _).
  exists row. unfold rows_of. rewrite filter_app.
  rewrite filter_cons_True by (apply insert_row_of_fields in Hrow as [Hty _]; exact Hty).
  reflexivity.
Qed.

(** X18. What a turn of the loop does with the sensor's answer, for
    a turn that the embedding describes ([described]). The session is
    kept exactly when the read succeeded (a transport error, a body that
    is no JSON, a payload without a key drop it). The two minute window
    after the turn is the trimmed window and the reading, when [is_sane]
    accepted it. The long window is the one before the turn and the
    accepted reading, unless the turn added an archive row: then it is
    empty. When no reading was accepted the current row of the table is
    as it was; when one was, the store has no fault and the row can be
    written, the table holds that row as its only current row. *)
Theorem do_loop_turn_reading_outcome (self : Service) (c : Cycle)
    (st st' : LoopState) :
  described c st = true ->
  do_loop_turn self c st = Ok st' ->
  exists trimmed,
    trim_two_minute_readings (trim_now c) (two_minute_readings st) = Ok trimmed /\
    session_open st' = is_ok (collect_data (response c) (read_now c)) /\
    two_minute_readings st' = trimmed ++ accepted c /\
    (rows_of RecordType.ARCHIVE (database st')
     = rows_of RecordType.ARCHIVE (database st) ->
     archive_readings st' = archive_readings st ++ accepted c) /\
    (rows_of RecordType.ARCHIVE (database st')
     <> rows_of RecordType.ARCHIVE (database st) ->
     archive_readings st' = []) /\
    (accepted c = [] ->
     rows_of RecordType.CURRENT (database st')
     = rows_of RecordType.CURRENT (database st)) /\
    (forall reading row,
       accepted c = [reading] ->
       fault_current c = false ->
       insert_row_of RecordType.CURRENT reading = Ok row ->
       rows_of RecordType.CURRENT (database st') = [row]).
Proof.
  intros _ H. unfold do_loop_turn in H.
  apply bind_ok in H as (ev & _ & H).
  apply bind_ok in H as (trimmed & Htrim & H).
  apply bind_ok in H as (st2 & Htwo & H).
  exists trimmed. split; [exact Htrim|].
  destruct (two_minute_phase_windows _ _ _ Htwo) as [Ea2 Et2].
  destruct (two_minute_phase_keeps _ _ _ Htwo) as [Es2 Hr2].
  destruct (archive_phase_windows _ _ _ _ _ H) as [_ Et3].
  destruct (archive_phase_keeps _ _ _ _ _ H) as [Es3 Hr3].
  pose proof (archive_phase_window_rows _ _ _ _ _ H) as Hwr.
  match type of Htwo with
  | two_minute_phase c (collect_phase c ?s) = _ =>
      destruct (collect_phase_window c s) as [Ea1 Et1];
      pose proof (collect_phase_session c s) as Es1;
      destruct (collect_phase_current c s) as [Hc0 Hc1];
      pose proof (collect_phase_keeps c s RecordType.ARCHIVE ltac:(discriminate))
        as Hk1;
      set (st1 := collect_phase c s) in *
  end.
  cbn [archive_readings two_minute_readings database] in Ea1, Et1, Hc0, Hk1.
  rewrite (Hr2 RecordType.ARCHIVE), Hk1, Ea2, Ea1 in Hwr by discriminate.
  split; [congruence|]. split; [congruence|].
  split; [|split; [|split]].
  - intros Hsame. destruct Hwr as [[Hw _] | [_ [row Hrow]]]; [exact Hw|].
    rewrite Hrow in Hsame. apply (f_equal length) in Hsame.
    rewrite length_app in Hsame. simpl in Hsame. lia.
  - intros Hdiff. destruct Hwr as [[_ Hrows] | [Hw _]]; [contradiction | exact Hw].
  - intros Hnone. rewrite (Hr3 RecordType.CURRENT), (Hr2 RecordType.CURRENT)
      by discriminate.
    rewrite (Hc0 Hnone). reflexivity.
  - intros reading row Hacc Hfault Hrow.
    rewrite (Hr3 RecordType.CURRENT), (Hr2 RecordType.CURRENT) by discriminate.
    exact (Hc1 reading row Hacc Hfault Hrow).
Qed.

End TurnOutcome.

(** The sample turn in which the sensor does not answer: the session is
    dropped, and the long window is emptied with the archive row. *)
Lemma do_loop_turn_reading_outcome_witness :
  (exists st',
     do_loop_turn sample_service (sample_cycle false) sample_state = Ok st' /\
     session_open st' = false /\
     archive_readings st' = []) /\
  (exists st' reading row,
     do_loop_turn sample_service sample_cycle_answered sample_state = Ok st' /\
     session_open st' = true /\
     two_minute_readings st' = two_minute_readings sample_state ++ [reading] /\
     archive_readings st' = archive_readings sample_state ++ [reading] /\
     rows_of RecordType.CURRENT (database st') = [row] /\
     row_timestamp row = 1700000130200000).
Proof.
  split.
  - destruct (do_loop_turn sample_service (sample_cycle false) sample_state)
      as [st'|e] eqn:E; [|vm_compute in E; discriminate].
    exists st'. split; [reflexivity|].
    destruct (do_loop_turn_reading_outcome sample_service (sample_cycle false)
                sample_state st' ltac:(vm_compute; reflexivity) E)
      as (trimmed & _ & Hs & _ & _ & Hcleared & _).
    split; [exact Hs|]. apply Hcleared.
    vm_compute in E. injection E as <-. vm_compute. discriminate.
  - destruct (do_loop_turn sample_service sample_cycle_answered sample_state)
      as [st'|e] eqn:E; [|vm_compute in E; discriminate].
    destruct (do_loop_turn_reading_outcome sample_service sample_cycle_answered
                sample_state st' ltac:(vm_compute; reflexivity) E)
      as (trimmed & Htrim & Hs & Htwo & Hkept & _ & _ & Hcur).
    vm_compute in Htrim. injection Htrim as <-.
    destruct (accepted sample_cycle_answered) as [|reading [|? ?]] eqn:Eacc;
      [vm_compute in Eacc; discriminate | | vm_compute in Eacc; discriminate].
    destruct (insert_row_of RecordType.CURRENT reading) as [row|e] eqn:Erow.
    2:{ vm_compute in Eacc. injection Eacc as <-. vm_compute in Erow. discriminate. }
    exists st', reading, row. split; [reflexivity|].
    split; [exact Hs|]. split; [exact Htwo|].
    split.
    { apply Hkept. vm_compute in E. injection E as <-. reflexivity. }
    split; [exact (Hcur reading row eq_refl eq_refl Erow)|].
    vm_compute in Eacc. injection Eacc as <-.
    vm_compute in Erow. injection Erow as <-. reflexivity.
Defined.

Section JsonServed.

Context `{sqlite_impl : !Sqlite}.

(** ** The JSON that the web server serves *)

Lemma string_app_cons (x : Ascii.ascii) (a b : string) :
  (String x a ++ b = String x (a ++ b))%string.
Proof. reflexivity. Qed.

Lemma string_app_assoc (a b c : string) :
  ((a ++ b) ++ c = a ++ (b ++ c))%string.
Proof.
  induction a as [|x a IH]; [reflexivity|].
  rewrite !string_app_cons, IH. reflexivity.
Qed.

Lemma string_app_nonempty (a b : string) :
  a <> ""%string -> (a ++ b)%string <> ""%string.
Proof.
  destruct a; [congruence|]. intros _. rewrite string_app_cons. discriminate.
Qed.

Lemma concat_comma_cons (acc j : string) (l : list string) :
  String.concat "," (((acc ++ ",") ++ j)%string :: l)
  = String.concat "," (acc :: j :: l).
Proof.
  destruct l as [|k l]; cbn [String.concat].
  - apply string_app_assoc.
  - rewrite !string_app_assoc. reflexivity.
Qed.

(** A replacing save, then the fetch of its record type. *)
Lemma save_replacing_fetch (rt : Z) (r : Reading) (t : Z) (db : list Row) :
  rt = RecordType.CURRENT \/ rt = RecordType.TWO_MINUTE ->
  storable r = true ->
  measurementTime r = VDatetime t ->
  0 < t ->
  exists db', save_reading rt r db = Ok db' /\
              fetch_readings rt 0 None None db' = [read_back r].
Proof.
  intros Hrt Hs Ht Hpos.
  destruct (insert_row_of_storable rt t r Hs Ht) as (row & Hrow & Hty & Hts & Hback).
  exists (delete_record_type rt db ++ [row]).
  assert (Hsave : save_reading rt r db = Ok (delete_record_type rt db ++ [row])).
  { apply save_replacing; [exact Hrt|]. exists row. split; [exact Hrow | reflexivity]. }
  split; [exact Hsave|].
  destruct (save_replacing_rows rt r db _ Hrt Hsave) as (row' & Hrow' & Hone & _).
  rewrite Hrow in Hrow'. injection Hrow' as <-.
  rewrite (fetch_single _ row); [|exact Hone | lia].
  rewrite Hback. reflexivity.
Qed.

Section JsonProperties.

Variable dumps : list (string * pyval) -> result string.
Variable strftime : Z -> string.

Lemma archive_contents_nonempty (readings : list Reading) :
  forall (contents : string) (jsons : list string),
    contents <> ""%string ->
    map_result (convert_to_json dumps strftime) readings = Ok jsons ->
    archive_contents dumps strftime contents readings
    = Ok (String.concat "," (contents :: jsons)).
Proof.
  induction readings as [|r readings IH]; intros contents jsons Hne H; simpl in H.
  - injection H as <-. reflexivity.
  - apply bind_ok in H as (j & Hj & H).
    apply bind_ok in H as (js & Hjs & H). injection H as <-.
    cbn [archive_contents]. apply String.eqb_neq in Hne. rewrite Hne.
    rewrite Hj. cbn [bind].
    rewrite (IH _ js); [|apply string_app_nonempty, string_app_nonempty;
                          apply String.eqb_neq, Hne | exact Hjs].
    f_equal. apply concat_comma_cons.
Qed.

(** X19. [fetch_archive_readings_as_json] writes the JSON texts of the
    readings it fetches, in their order, separated by single commas,
    between ["[  "] and [" ]"] (["[   ]"] when there is none), as long as
    no reading has an empty JSON text, which [dumps] never gives. The
    separator is decided by whether the text so far is empty. *)
Theorem fetch_archive_readings_as_json_join (since_ts : Z) (max_ts limit : option Z)
    (db : list Row) (jsons : list string) :
  (forall d s, dumps d = Ok s -> s <> ""%string) ->
  map_result (convert_to_json dumps strftime)
    (fetch_archive_readings since_ts max_ts limit db) = Ok jsons ->
  fetch_archive_readings_as_json dumps strftime since_ts max_ts limit db
  = Ok ("[  " ++ String.concat "," jsons ++ " ]")%string.
Proof.
  intros Hdumps H. unfold fetch_archive_readings_as_json.
  destruct (fetch_archive_readings since_ts max_ts limit db) as [|r readings];
    simpl in H.
  - injection H as <-. reflexivity.
  - apply bind_ok in H as (j & Hj & H).
    apply bind_ok in H as (js & Hjs & H). injection H as <-.
    cbn [archive_contents String.eqb]. rewrite Hj. cbn [bind].
    assert (Hne : j <> ""%string).
    { unfold convert_to_json in Hj. apply bind_ok in Hj as (stamp & _ & Hj).
      exact (Hdumps _ _ Hj). }
    change (("" ++ j)%string) with j.
    rewrite (archive_contents_nonempty _ _ js Hne Hjs). reflexivity.
Qed.

(** X20. The JSON served for the current reading is the JSON of the
    reading last saved, as it comes back from the store: after
    [save_current_reading] of a reading that the store can hold, with a
    time later than the epoch and before 2^33 seconds,
    [fetch_current_reading_as_json] returns what [convert_to_json] returns
    for that reading with each float replaced by the REAL that SQLite read
    in its [repr] ([read_back]), whatever the table held before; likewise
    for the two minute reading. *)
Theorem fetch_reading_as_json_saved (r : Reading) (t : Z) (db : list Row) :
  storable r = true ->
  measurementTime r = VDatetime t ->
  0 < t < 8589934592 * 1000000 ->
  (exists db', save_current_reading r db = Ok db' /\
               fetch_current_reading_as_json dumps strftime db'
               = convert_to_json dumps strftime (read_back r)) /\
  (exists db', save_two_minute_reading r db = Ok db' /\
               fetch_two_minute_reading_as_json dumps strftime db'
               = convert_to_json dumps strftime (read_back r)).
Proof.
  intros Hs Ht [Hpos _]. split.
  - destruct (save_replacing_fetch RecordType.CURRENT r t db
                (or_introl eq_refl) Hs Ht Hpos) as (db' & Hsave & Hfetch).
    exists db'. split; [exact Hsave|].
    unfold fetch_current_reading_as_json, fetch_current_readings.
    rewrite Hfetch. reflexivity.
  - destruct (save_replacing_fetch RecordType.TWO_MINUTE r t db
                (or_intror eq_refl) Hs Ht Hpos) as (db' & Hsave & Hfetch).
    exists db'. split; [exact Hsave|].
    unfold fetch_two_minute_reading_as_json, fetch_two_minute_readings.
    rewrite Hfetch. reflexivity.
Qed.

End JsonProperties.

End JsonServed.

Lemma fetch_archive_readings_as_json_join_witness :
  fetch_archive_readings_as_json (fun _ => Ok "{}"%string) (fun _ => ""%string)
    0 None None sample_archive_table
  = Ok "[  {},{} ]"%string.
Proof.
  apply (fetch_archive_readings_as_json_join
           (fun _ => Ok "{}"%string) (fun _ => ""%string)
           0 None None sample_archive_table ["{}"; "{}"]%string).
  - intros d s [= <-]. discriminate.
  - reflexivity.
Defined.

Lemma fetch_reading_as_json_saved_witness :
  exists db',
    save_current_reading (create_test_reading 1700000000000000) [] = Ok db' /\
    fetch_current_reading_as_json sample_dumps sample_strftime db'
    = convert_to_json sample_dumps sample_strftime
        (read_back (create_test_reading 1700000000000000)) /\
    fetch_current_reading_as_json sample_dumps sample_strftime db'
    <> Ok "{}"%string.
Proof.
  destruct (proj1 (fetch_reading_as_json_saved sample_dumps sample_strftime
                     (create_test_reading 1700000000000000) 1700000000000000 []
                     eq_refl eq_refl ltac:(lia))) as (db' & Hsave & Hjson).
  exists db'. split; [exact Hsave|]. split; [exact Hjson|].
  rewrite Hjson. vm_compute. discriminate.
Defined.

Section JsonReads.

Context `{sqlite_impl : !Sqlite}.

(** ** The web server's reads never fail on the table *)

Lemma row_col_jsonable (k : nat) (row : Row) : jsonable (row_col k row) = true.
Proof. unfold row_col. destruct (nth _ _ _); reflexivity. Qed.

Section JsonTotal.

Variable dumps : list (string * pyval) -> result string.
Variable strftime : Z -> string.

(** [dumps] returns on every dict whose values JSON has a form for. *)
Hypothesis dumps_total :
  forall d, Forall (fun kv => jsonable (snd kv) = true) d -> is_ok (dumps d) = true.

Lemma convert_to_json_fetched (row : Row) :
  exists s, convert_to_json dumps strftime (create_reading_from_row row) = Ok s.
Proof.
  unfold convert_to_json.
  cbn [measurementTime create_reading_from_row bind].
  match goal with
  | |- exists s, dumps ?d = Ok s =>
      assert (Hd : is_ok (dumps d) = true);
      [|destruct (dumps d) as [s|e]; [eauto | discriminate]]
  end.
  apply dumps_total.
  repeat (constructor; [first [apply row_col_jsonable | reflexivity]|]).
  constructor.
Qed.

Lemma archive_contents_fetched (rows : list Row) :
  forall contents,
    exists s, archive_contents dumps strftime contents
                (map create_reading_from_row rows) = Ok s.
Proof.
  induction rows as [|row rows IH]; intros contents; simpl; [eauto|].
  destruct (convert_to_json_fetched row) as [j Hj]. rewrite Hj. cbn [bind].
  apply IH.
Qed.


End JsonTotal.

End JsonReads.


Section TwoMinuteRecord.

Context `{sqlite_impl : !Sqlite}.

(** ** The two minute record of a turn *)

(** X22. The two minute record carries the time of the newest sample,
    not the time of the clock. After a turn of the loop that the
    embedding describes ([described]) with an empty
    two minute window the two minute rows of the table are as they were.
    With a window that is not empty the average of the window exists;
    when the store has a fault the rows are as they were; when the row of
    the average with the [measurementTime] of the last reading of the
    window can be written, it is the one two minute row of the table and
    its timestamp is that time; when writing it raises, the rows are as
    they were. *)
Theorem do_loop_turn_two_minute_row (self : Service) (c : Cycle)
    (st st' : LoopState) :
  described c st = true ->
  do_loop_turn self c st = Ok st' ->
  match two_minute_readings st' with
  | [] =>
      rows_of RecordType.TWO_MINUTE (database st')
      = rows_of RecordType.TWO_MINUTE (database st)
  | first :: rest =>
      exists avg,
        compute_avg (first :: rest) = Ok avg /\
        if fault_two_minute c then
          rows_of RecordType.TWO_MINUTE (database st')
          = rows_of RecordType.TWO_MINUTE (database st)
        else
          match insert_row_of RecordType.TWO_MINUTE
                  (set_measurementTime avg (measurementTime (List.last rest first)))
          with
          | Ok row =>
              rows_of RecordType.TWO_MINUTE (database st') = [row] /\
              measurementTime (List.last rest first)
              = VDatetime (row_timestamp row)
          | Err _ =>
              rows_of RecordType.TWO_MINUTE (database st')
              = rows_of RecordType.TWO_MINUTE (database st)
          end
  end.
Proof.
  intros _ H. unfold do_loop_turn in H.
  apply bind_ok in H as (ev & _ & H).
  apply bind_ok in H as (trimmed & _ & H).
  apply bind_ok in H as (st2 & Htwo & H).
  destruct (archive_phase_windows _ _ _ _ _ H) as [_ Et3].
  destruct (archive_phase_keeps _ _ _ _ _ H) as [_ Hr3].
  rewrite Et3, (Hr3 RecordType.TWO_MINUTE) by discriminate. clear H Et3 Hr3.
  match type of Htwo with
  | two_minute_phase c (collect_phase c ?s) = _ =>
      pose proof (collect_phase_keeps c s RecordType.TWO_MINUTE ltac:(discriminate))
        as Hc;
      cbn [database] in Hc; set (st1 := collect_phase c s) in *
  end.
  rewrite <- Hc. clear Hc.
  unfold two_minute_phase in Htwo.
  destruct (two_minute_readings st1) as [|first rest] eqn:Ew;
    [injection Htwo as <-; rewrite Ew; reflexivity|].
  apply bind_ok in Htwo as (avg & Havg & Htwo). injection Htwo as <-.
  cbn [database two_minute_readings]. rewrite ?Ew.
  exists avg. split; [exact Havg|].
  unfold store_write.
  destruct (fault_two_minute c); [reflexivity|].
  destruct (insert_row_of RecordType.TWO_MINUTE
              (set_measurementTime avg (measurementTime (List.last rest first))))
    as [row|e] eqn:Erow.
  - match goal with
    | |- context [save_two_minute_reading ?x ?d] =>
        assert (Hsave : save_two_minute_reading x d
                        = Ok (delete_record_type RecordType.TWO_MINUTE d ++ [row]))
    end.
    { apply save_replacing; [right; reflexivity|].
      exists row. split; [exact Erow | reflexivity]. }
    rewrite Hsave.
    destruct (save_replacing_rows _ _ _ _ (or_intror eq_refl) Hsave)
      as (row' & Hrow' & Hone & _).
    rewrite Erow in Hrow'. injection Hrow' as <-.
    split; [exact Hone|].
    apply insert_row_of_fields in Erow as [_ Htime].
    rewrite set_measurementTime_time in Htime. exact Htime.
  - unfold save_two_minute_reading, save_reading. rewrite Erow.
    reflexivity.
Qed.

End TwoMinuteRecord.

(** The sample turn: the two minute row has the time of the newest
    sample of the window, 1700000070 s. *)
Lemma do_loop_turn_two_minute_row_witness :
  exists st' row,
    do_loop_turn sample_service (sample_cycle false) sample_state = Ok st' /\
    rows_of RecordType.TWO_MINUTE (database st') = [row] /\
    row_timestamp row = 1700000070000000.
Proof.
  destruct (do_loop_turn sample_service (sample_cycle false) sample_state)
    as [st'|e] eqn:E; [|vm_compute in E; discriminate].
  pose proof (do_loop_turn_two_minute_row sample_service (sample_cycle false)
                sample_state st' ltac:(vm_compute; reflexivity) E) as H.
  assert (Hw : two_minute_readings st'
               = [create_test_reading 1700000040000000;
                  create_test_reading 1700000070000000]).
  { vm_compute in E. injection E as <-. reflexivity. }
  rewrite Hw in H. destruct H as (avg & Havg & H).
  vm_compute in Havg. injection Havg as <-.
  cbn [fault_two_minute sample_cycle] in H.
  match type of H with
  | match ?x with _ => _ end =>
      destruct x as [row|e] eqn:Erow; [|vm_compute in Erow; discriminate]
  end.
  destruct H as [Hone Htime].
  exists st', row. split; [reflexivity|]. split; [exact Hone|].
  cbn in Htime. injection Htime as <-. reflexivity.
Defined.
